(* ===== verification/_CoqProject ===== *)
-Q . S2P
Prelude.v
Frame.v
Blend.v
DelayBuffer.v
Detector.v
Motion.v
Trail.v
Driver.v
Playback.v
Pipeline.v
