(* ===== verification/Prelude.v ===== *)
(** * Motion-extract pupil tracker (src/main.py): a verification development

    The program is one Python file, [src/main.py], built on OpenCV,
    NumPy and pyautogui.  Per video frame it
    - inverts the frame ([255 - frame], NumPy uint8 arithmetic),
    - appends the inverted frame to an ever-growing Python list [buffer],
    - blends the raw frame with the inverted frame [delay] steps back
      ([cv2.addWeighted]) once the list is deep enough
      ([process_frame], lines 5-14),
    - converts the result to grey, thresholds it at 50 (inverse binary),
      extracts external contours, keeps the one of largest area (Python
      [max] with [key=cv2.contourArea]) and returns the truncated centre
      of its minimum enclosing circle ([detect_pupil], lines 16-25),
    - draws a trail of past detections while trail mode is on, moves the
      mouse pointer to the detection modulo the screen size, shows the
      frame, waits for a key and handles ESC (quit) and [t] (toggle the
      trail) ([main], lines 30-100).

    ** Files, in dependency order

    - [Prelude] (this file): Python semantics shared by every component:
      list indexing with negative indices ([py_get], IndexError as
      [None]), [max(iterable, key=...)] ([py_max_by], which returns the
      FIRST maximal element), [int()] on a float ([py_int], truncation
      toward zero); OpenCV's [saturate_cast<uchar>(cvRound(.))]
      ([cv_round_div], round half to even, and [saturate_u8]); the
      [eye] hint database and the tactics of the development.
    - [Frame]: pixels ([bgr], one record per BGR sample), frames as a list
      of rows, the uint8 well-formedness predicate [frame_ok], NumPy's
      [255 - frame] ([invert], with the modulo-256 wrap written out).
    - [Blend]: [cv2.addWeighted(frame, 1 - alpha, delayed, alpha, 0)] on
      uint8 frames ([add_weighted]), with the opacity trackbar's integer
      percentage [p] standing for [alpha = p / 100]; a size mismatch is
      OpenCV's error, returned as [None].
    - [DelayBuffer]: [process_frame] with the buffer passed in and
      returned (the Python list is mutated in place before the guard, so
      the append survives even an error in the blend); the stream of
      calls the main loop makes ([feed]).
    - [Detector]: [cv2.cvtColor(.., COLOR_BGR2GRAY)] in OpenCV's 14-bit
      fixed point ([gray_px]), [cv2.threshold(.., 50, 255,
      THRESH_BINARY_INV)] ([threshold_inv]), [cv2.contourArea] (shoelace
      formula, [contour_area2] = twice the area), and [detect_pupil],
      written against the two OpenCV routines it calls through a
      [ContourBackend] record ([find_contours], [min_enclosing_circle])
      whose laws are the documented behaviour of those routines; the
      shoelace sum's independence of how a polygon is listed.
    - [Motion]: the composition of [process_frame] with the grey
      conversion and threshold of [detect_pupil], in closed form: what
      the detector sees of a blended frame.
    - [Trail]: the trail state ([trail_mode], [trail_points]), the
      drawing of lines 73-83 as a list of [cv2.circle] commands, the key
      dispatch of lines 91-97 ([key_action], with [& 0xFF] as [Z.land]).
    - [Driver]: [main] (lines 30-100): the capture selection and fps
      default, the window and the three trackbars ([setup_effects],
      with the trackbar ranges as [ui_ok]), the main loop of lines 54-97
      as a step function [loop_iter] on an explicit loop state (capture
      position, buffer, trail state, frames processed) over an
      environment (video frames, trackbar positions and key codes per
      iteration), producing a trace of effects ([moveTo], [imshow],
      [waitKey]); [run] iterates it with fuel; [teardown] is
      [cap.release()] and [cv2.destroyAllWindows()] after a [break].
    - [Playback]: theorems about whole runs, on top of [Driver]: the
      buffer of a looped video, the frames shown, teardown and aborts,
      the range of the [waitKey] delay.
    - [Pipeline]: the spec's PipelineDriver as an abstract machine
      ([spec_iter]: lookback DelayBuffer, the two-state trail of spec
      4.5, rounded wait) and the simulation of [loop_iter] by it through
      the abstraction [abs_state]; the spec's BlobDetector
      ([spec_detect], centre rounded to the nearest pixel).

    ** What the theorems show (claim ids C1-C38)

    - DelayBuffer: delay correctness for a per-call delay, so a delay
      raised at runtime still reaches back (C1); the warm-up law: calls
      with delay [d > t] return the raw frame (C2); no exception escapes
      on a stream of one frame shape (C3); refinement of the spec's
      append-then-lookback contract, where a too-short history is
      NotAvailable, by the code's guard and negative index (C20).
    - Frame: on uint8 frames, [255 - frame] is [255 - v] on every
      sample, the NumPy wrap never firing, and inverting twice gives the
      frame back (C4).
    - Blend: opacity 0 gives the current frame, 100 the delayed one
      (C5, C6); the rounded weighted sum never needs clamping (C7).
    - Detector, for every backend satisfying the laws: no detection
      exactly when no pixel is dark (grey <= 50) (C8); the selected
      contour is the first of maximal area (C9); a detection lies in the
      bounding box of the dark pixels (C10).
    - Trail: the trail is exactly the points detected since trail mode
      was last turned on, so On, 3 points, Off, On leaves it empty (C11);
      the discs drawn per frame (C12); the [& 0xFF] key mask (C13).
    - Driver: the invariant of every reachable loop state, by rule
      induction (C14); an empty or unreadable video with looping on spins
      forever without reaching [waitKey] (C15, a defect); every pointer
      move is made by an iteration that detected [(x, y)] in the frame it
      shows, and targets [(x mod w, y mod h)] on the screen; none in test
      mode (C16); ESC pressed at frame
      [k] of a looped video ends the loop within [2 k + 2] iterations
      (C17); a video of [n] frames without looping ends after [n + 1]
      iterations (C18); [waitKey(0)], which blocks, is called exactly
      when [fps * max(1, speed) > 10000] (C19, a defect); the effects
      of any run are per-frame blocks in order: pointer move, [imshow],
      [waitKey] (C21); with the Delay trackbar at 0 or 1, [max(1, ..)]
      makes the frame shown the blend with the previous frame's inverse,
      never the frame's own (C38).
    - Motion: past the warm-up, a grey pixel is foreground for the
      detector exactly when [v (100 - p) + (255 - w) p <= 5050], [v] its
      level now, [w] [delay] frames back, at the opacities where OpenCV's
      float32 blend is exact ([exact_opacity]: 0, 25, 50, 75, 100): at
      opacity 50, when it darkened by at least 154 levels (C22); a frame equal to the one [delay]
      calls back blends to uniform grey 128 and no pupil is found: a
      pupil that does not move is not tracked (C23); end to end, for
      every lawful backend, a detection on a grey video lies in the
      bounding box of the pixels that darkened by at least 154 levels,
      which in the spec's moving-disc scenario is the current disc (C31);
      on colour pixels at those opacities, a pixel each of whose channels
      darkened enough is foreground and one none of whose channels did
      is background, since the grey level lies between the smallest and
      the largest channel (C36).
    - Detector: [contourArea] is invariant under rotation and reversal
      of the vertex list (C24) and under removal of a collinear vertex,
      the compression of [CHAIN_APPROX_SIMPLE] (C25).
    - Playback: while a video loops, the buffer holds the inverses of
      frames [0 .. n-1, 0, 1, ..] in processing order, across the
      restart (C26, rule induction on [reachable]); every frame shown is
      a uint8 frame of the capture's dimensions, shown by a reachable
      iteration from the frame [f] it read: [f] itself during the
      warm-up, else, pixel by pixel within half a unit (a bound OpenCV's
      float32 arithmetic also meets), the blend of [f] with the buffer
      entry [buffer[-(d + 1)]], the inverse of a frame read (C27); the
      capture is
      released, last, exactly when the loop is left by [break] (C28); a
      frame-size change raises in [addWeighted] and aborts the loop
      with no effect (C29); within the trackbar ranges and at most 200
      fps the [waitKey] delay is between 1 and [int(10000 / fps)] ms
      (C30); a zero screen dimension makes [x % screen_w] raise
      [ZeroDivisionError] before [imshow] (C32); without a usable path
      the webcam is read with looping off, and a failed read ends the
      program (C34); a looped video whose first frame reads never spins:
      of [n] iterations at most every other one is a seek, so [imshow]
      is called at least [(n - 1) / 2] times, each followed by exactly
      one [waitKey] (C37).
    - Pipeline: refinement of the spec's driver by the loop of [main],
      by a simulation diagram on [abs_state] with [trail_ok] as the
      invariant: same stop reasons, same effects in order, [waitKey]
      delays at most 1 ms apart (C33); refinement of the spec's
      BlobDetector by [detect_pupil]: the same detections, each
      coordinate the spec's rounded centre or one less (C35).

    Fuel: [run] takes the number of loop iterations.  The bounds in C17
    and C18 are sufficient, not just "if it stops": each frame costs one
    read, plus at most one seek back to frame 0 when looping, and the end
    of a non-looped stream costs one more iteration.  C15 holds for every
    fuel, which is how non-termination is stated; C37 bounds from below
    the frames shown in any number of iterations, which is how progress
    is stated.

    ** Modelling choices

    Pixel values are [Z] with their uint8 range as an invariant
    ([frame_ok]).  Floating-point arithmetic is modelled by exact
    rationals: [add_weighted] computes [(a (100 - p) + b p) / 100]
    exactly and rounds half to even (exact for [p] in {0, 25, 50, 75,
    100}, where [alpha] and [1 - alpha] are binary fractions and
    OpenCV's float32 sum is exact; at other [p] OpenCV's float32 sum can
    round the other way on an exact .5 tie).  The theorems that depend on
    the exact sum assume [exact_opacity]; the others only use that a
    blended sample is within half a unit of the weighted mean, which
    OpenCV meets at every opacity.  fps is a [Q].  Drawing ([cv2.circle]) is kept as the list of circle commands,
    not rasterised.  The discs are drawn on [motion_frame], which is
    either a fresh [addWeighted] result or the raw frame; neither is ever
    stored in the buffer (which holds the fresh arrays [255 - frame]), so
    the in-place drawing cannot alias the history and value semantics are
    faithful.  Grey conversion follows OpenCV's portable fixed-point
    implementation (the IPP/HAL paths may round differently).  The loop
    runs with explicit fuel; every theorem that the loop stops gives the
    fuel that suffices.

    ** Not modelled

    What the GUI and the OS do with the effects of the trace (the
    window's display, the pointer's motion): the program only issues
    the calls, which are the trace's events.  The pixels [cv2.circle]
    writes into the shown frame: the circles are kept as commands, and
    the drawn frame is never read back by the program.  The internals
    of [cv2.findContours] (Suzuki-Abe border following with
    [CHAIN_APPROX_SIMPLE]) and [cv2.minEnclosingCircle] (Welzl's
    algorithm in floating point): OpenCV library code that [main.py]
    only calls, stated as the [ContourBackend] interface with the laws
    [detect_pupil] relies on ([backend_laws]); every detector theorem
    holds for every lawful backend, and C24-C25 show that the start
    vertex, orientation and chain compression of the traced contours do
    not change the contour [max] selects.  Modelling those routines would
    translate OpenCV's C++ rather than this repository, and the spec
    describes them only by what they return, which is what the laws
    state.  [box_backend] (one contour of
    all foreground pixels, circle on their bounding box) is a concrete
    backend satisfying the laws, used to run the theorems on frames; it
    is not a model of OpenCV.  The module guard [if __name__ ==
    '__main__'] and the imports (lines 1-3, 102-103) and the no-op
    trackbar callback [nothing] (lines 27-28) have no behaviour to model.
    pyautogui's fail-safe ([FailSafeException] when [moveTo] is called
    while the mouse is in a corner of the screen) depends on the mouse
    position, which the user also moves and the environment does not
    record: [pointer_moves] assumes it does not fire.

    ** Automation

    [case_zcmp] splits on the comparisons the code branches on; the hint
    databases [eye] (range lemmas: [saturate_u8_range], [invert_ok], ...)
    and [eye_rw] (list-length and index rewrites) are filled by each
    component at the end of its file.

    ** Status

    Every line of [main.py] with behaviour is translated (the map of the
    development names them); the remaining gaps are the library code
    and the OS effects listed under "Not modelled", which [main.py]
    only calls.
*)

From Stdlib Require Import ZArith QArith Qround List Lia Lqa Morphisms.
From stdpp Require Import base list decidable.

Declare Scope eye_scope.
Delimit Scope eye_scope with eye.
Open Scope Z_scope.

Create HintDb eye discriminated.
Create Rewrite HintDb eye_rw.

(** ** Tactics *)

(** Split on the integer comparisons the code branches on ([if a < b],
    [if a <= b]), in the goal first, then in a hypothesis. *)
Ltac case_zcmp :=
  match goal with
  | |- context [Z.ltb ?a ?b] => destruct (Z.ltb_spec a b)
  | |- context [Z.leb ?a ?b] => destruct (Z.leb_spec a b)
  | H : context [Z.ltb ?a ?b] |- _ => destruct (Z.ltb_spec a b)
  | H : context [Z.leb ?a ?b] |- _ => destruct (Z.leb_spec a b)
  end.

(** ** Python list indexing *)

(** [l[i]] in Python: [0 <= i < len l] reads position [i],
    [-len l <= i < 0] reads position [len l + i], anything else raises
    IndexError ([None]). *)
Definition py_get {A} (l : list A) (i : Z) : option A :=
  let n := Z.of_nat (length l) in
  if (0 <=? i) && (i <? n) then nth_error l (Z.to_nat i)
  else if (-n <=? i) && (i <? 0) then nth_error l (Z.to_nat (n + i))
  else None.

Notation "l .[ i ]" := (py_get l i) (at level 1, format "l .[ i ]") : eye_scope.
Open Scope eye_scope.

(** [len(l)] as a Python int. *)
Definition py_len {A} (l : list A) : Z := Z.of_nat (length l).

(** ** Python's [max(iterable, key=k)]

    CPython keeps the first item and replaces it only by an item whose
    key is strictly greater, so ties go to the earliest item; an empty
    iterable raises ValueError ([None]). *)
Definition py_max_step {A} (key : A -> Z) (best y : A) : A :=
  if key best <? key y then y else best.

Definition py_max_by {A} (key : A -> Z) (l : list A) : option A :=
  match l with
  | [] => None
  | x :: xs => Some (fold_left (py_max_step key) xs x)
  end.

(** ** Python's [int()] on a float: truncation toward zero *)
Definition py_int (q : Q) : Z := Z.quot (Qnum q) (Zpos (Qden q)).

(** ** OpenCV's [saturate_cast<uchar>(cvRound(n / d))] *)

(** [cvRound] rounds half to even ([lrint] in the default mode). *)
Definition cv_round_div (n d : Z) : Z :=
  let q := n / d in
  match Z.compare (2 * (n mod d)) d with
  | Lt => q
  | Gt => q + 1
  | Eq => if Z.even q then q else q + 1
  end.

Definition saturate_u8 (v : Z) : Z := Z.max 0 (Z.min 255 v).

(** ** A reference for [max(l, key=k)]

    The first element of [l] whose key no element of [l] exceeds: the
    declarative reading of the documented behaviour of Python's [max]
    ("if multiple items are maximal, the function returns the first one
    encountered"). *)
Definition first_max {A} (key : A -> Z) (l : list A) : option A :=
  find (fun x => forallb (fun y => key y <=? key x) l) l.

(** ** Generic lemmas *)

Lemma py_len_app_one {A} (l : list A) (x : A) :
  py_len (l ++ [x]) = py_len l + 1.
Proof. unfold py_len. rewrite length_app. simpl. lia. Qed.

(** Reading [-(k+1)] of a list of length [n > k] is [nth (n - 1 - k)]. *)
Lemma py_get_neg {A} (l : list A) (k : Z) :
  0 <= k < py_len l ->
  py_get l (- (k + 1)) = nth_error l (Z.to_nat (py_len l - 1 - k)).
Proof.
  unfold py_len, py_get. intros Hk.
  destruct ((0 <=? - (k + 1)) && _) eqn:E1.
  { apply andb_prop in E1 as [E1 _]. apply Z.leb_le in E1. lia. }
  destruct ((- Z.of_nat (length l) <=? - (k + 1)) && (- (k + 1) <? 0)) eqn:E2.
  - f_equal. lia.
  - apply andb_false_iff in E2 as [E2|E2];
      [apply Z.leb_gt in E2 | apply Z.ltb_ge in E2]; lia.
Qed.

Lemma py_get_app_one_last {A} (l : list A) (x : A) :
  py_get (l ++ [x]) (-1) = Some x.
Proof.
  change (-1) with (- (0 + 1)). rewrite py_get_neg; rewrite py_len_app_one.
  - rewrite nth_error_app2; unfold py_len; [|lia].
    replace (Z.to_nat (Z.of_nat (length l) + 1 - 1 - 0) - length l)%nat with 0%nat by lia.
    reflexivity.
  - unfold py_len. lia.
Qed.

Lemma saturate_u8_id v : 0 <= v <= 255 -> saturate_u8 v = v.
Proof. unfold saturate_u8. lia. Qed.

Lemma saturate_u8_range v : 0 <= saturate_u8 v <= 255.
Proof. unfold saturate_u8. lia. Qed.

(** [cvRound] of an exact quotient is the quotient. *)
Lemma cv_round_div_exact d k : 0 < d -> cv_round_div (k * d) d = k.
Proof.
  intros Hd. unfold cv_round_div.
  rewrite Z.mod_mul, Z.div_mul by lia.
  replace (2 * 0) with 0 by lia.
  destruct (Z.compare_spec 0 d); lia.
Qed.

(** [cvRound (n / d)] lies between [n / d] rounded down and up. *)
Lemma cv_round_div_bounds n d :
  0 < d -> n / d <= cv_round_div n d <= n / d + 1.
Proof.
  intros Hd. unfold cv_round_div.
  destruct (Z.compare_spec (2 * (n mod d)) d); try lia.
  destruct (Z.even (n / d)); lia.
Qed.

(** [cvRound(n / d)] is within half a unit of [n / d]. *)
Lemma cv_round_div_near n d : 0 < d -> 2 * Z.abs (d * cv_round_div n d - n) <= d.
Proof.
  intros Hd. pose proof (Z.div_mod n d ltac:(lia)) as Hdm.
  pose proof (Z.mod_pos_bound n d Hd) as Hm. unfold cv_round_div.
  destruct (Z.compare_spec (2 * (n mod d)) d); [destruct (Z.even (n / d))|..]; lia.
Qed.

(** Rounding a quotient of a value in [d lo, d hi] stays in [lo, hi]. *)
Lemma cv_round_div_range n d lo hi :
  0 < d -> d * lo <= n <= d * hi -> lo <= cv_round_div n d <= hi.
Proof.
  intros Hd Hn. pose proof (cv_round_div_bounds n d Hd) as Hb.
  pose proof (Z.div_mod n d ltac:(lia)) as Hdm.
  pose proof (Z.mod_pos_bound n d Hd) as Hm.
  unfold cv_round_div in *.
  assert (lo <= n / d <= hi) by nia.
  destruct (Z.compare_spec (2 * (n mod d)) d); [ | lia | ].
  - destruct (Z.even (n / d)); [lia|].
    assert (n / d < hi \/ n / d = hi) as [|] by lia; [lia|].
    exfalso. nia.
  - assert (n / d < hi \/ n / d = hi) as [|] by lia; [lia|].
    exfalso. nia.
Qed.

#[export] Hint Resolve saturate_u8_range : eye.
#[export] Hint Rewrite @py_len_app_one @py_get_app_one_last : eye_rw.

Lemma py_max_step_cases {A} (key : A -> Z) (x y : A) :
  (py_max_step key x y = y /\ key x < key y) \/
  (py_max_step key x y = x /\ key y <= key x).
Proof.
  unfold py_max_step. case_zcmp; [left|right]; auto.
Qed.

Lemma fold_py_max_in {A} (key : A -> Z) (xs : list A) (x : A) :
  In (fold_left (py_max_step key) xs x) (x :: xs).
Proof.
  revert x. induction xs as [|y ys IH]; intros x; simpl; [auto|].
  destruct (py_max_step_cases key x y) as [[-> _]|[-> _]].
  - specialize (IH y). simpl in IH. tauto.
  - specialize (IH x). simpl in IH. tauto.
Qed.

(** [max] returns an element of its argument. *)
Lemma py_max_by_in {A} (key : A -> Z) (l : list A) (m : A) :
  py_max_by key l = Some m -> In m l.
Proof.
  destruct l as [|x xs]; simpl; [discriminate|]. intros [= <-].
  apply (fold_py_max_in key xs x).
Qed.

Lemma fold_py_max_ge {A} (key : A -> Z) (xs : list A) (x : A) :
  key x <= key (fold_left (py_max_step key) xs x) /\
  Forall (fun y => key y <= key (fold_left (py_max_step key) xs x)) xs.
Proof.
  revert x. induction xs as [|y ys IH]; intros x; simpl; [split; [lia|constructor]|].
  destruct (py_max_step_cases key x y) as [[-> E]|[-> E]].
  - destruct (IH y) as [H1 H2]. split; [lia|]. constructor; auto.
  - destruct (IH x) as [H1 H2]. split; [lia|]. constructor; [lia|auto].
Qed.

(** [max] returns an element whose key is at least every key. *)
Lemma py_max_by_ge {A} (key : A -> Z) (l : list A) (m : A) :
  py_max_by key l = Some m -> Forall (fun y => key y <= key m) l.
Proof.
  destruct l as [|x xs]; simpl; [discriminate|]. intros [= <-].
  destruct (fold_py_max_ge key xs x). constructor; auto.
Qed.

Lemma Forall_nth_error {A} (P : A -> Prop) (l : list A) :
  Forall P l <-> forall i x, nth_error l i = Some x -> P x.
Proof.
  rewrite Forall_forall. split.
  - intros H i x Hx. apply H. eapply nth_error_In; eauto.
  - intros H x Hx. apply In_nth_error in Hx as [i Hi]. eauto.
Qed.

(** A list none of whose elements passes the test filters to nothing. *)
Lemma filter_none {A} (P : A -> bool) (l : list A) :
  Forall (fun x => P x = false) l -> List.filter P l = [].
Proof. induction 1 as [|x l Hx _ IH]; simpl; [|rewrite Hx]; auto. Qed.

(** [max] returns the FIRST element of maximal key: every element before
    it has a strictly smaller key. *)
Lemma fold_py_max_first {A} (key : A -> Z) (xs : list A) (x : A) :
  exists pre post,
    x :: xs = pre ++ fold_left (py_max_step key) xs x :: post /\
    Forall (fun y => key y < key (fold_left (py_max_step key) xs x)) pre.
Proof.
  revert x. induction xs as [|y ys IH]; intros x; simpl.
  - exists [], []. auto.
  - destruct (py_max_step_cases key x y) as [[-> E]|[-> E]].
    + destruct (IH y) as (pre & post & Heq & Hlt). rewrite Heq.
      exists (x :: pre), post. split; [reflexivity|]. constructor; [|exact Hlt].
      pose proof (proj1 (fold_py_max_ge key ys y)). lia.
    + destruct (IH x) as (pre & post & Heq & Hlt).
      destruct pre as [|z pre]; simpl in Heq; injection Heq as Hz Hrest.
      * exists [], (y :: ys). rewrite <- Hz. auto.
      * subst z. exists (x :: y :: pre), post. split; [simpl; rewrite <- Hrest; reflexivity|].
        inversion Hlt as [|? ? Hx Hpre]; subst. constructor; [exact Hx|]. constructor; [lia|exact Hpre].
Qed.

Lemma py_max_by_first {A} (key : A -> Z) (l : list A) (m : A) :
  py_max_by key l = Some m ->
  exists pre post, l = pre ++ m :: post /\ Forall (fun y => key y < key m) pre.
Proof.
  destruct l as [|x xs]; simpl; [discriminate|]. intros [= <-]. apply fold_py_max_first.
Qed.

(** A key composed with a strictly increasing map selects the same
    element: comparing [contourArea] or twice it is the same. *)
Lemma py_max_by_mono {A} (key : A -> Z) (g : Z -> Z) (l : list A) :
  (forall a b, a < b <-> g a < g b) ->
  py_max_by (fun x => g (key x)) l = py_max_by key l.
Proof.
  intros Hg. destruct l as [|x xs]; simpl; [reflexivity|]. f_equal.
  revert x. induction xs as [|y ys IH]; intros x; simpl; [reflexivity|].
  rewrite <- IH. f_equal. unfold py_max_step.
  do 2 case_zcmp; try reflexivity;
    exfalso; apply Hg in H || apply Hg in H0; lia.
Qed.

(** [int(q)] of a non-negative rational is its floor. *)
Lemma py_int_floor (q : Q) : (0 <= q)%Q -> py_int q = Qfloor q.
Proof.
  destruct q as [n d]. unfold py_int, Qfloor, Qle. simpl. intros H.
  apply Z.quot_div_nonneg; lia.
Qed.

(** Truncating a non-negative rational between two integers stays
    between them. *)
Lemma py_int_between (lo hi : Z) (q : Q) :
  0 <= lo -> (inject_Z lo <= q)%Q -> (q <= inject_Z hi)%Q -> lo <= py_int q <= hi.
Proof.
  intros Hlo H1 H2. assert (Hq : (0 <= q)%Q).
  { apply Qle_trans with (inject_Z lo); [|exact H1]. unfold Qle. simpl. lia. }
  rewrite py_int_floor by exact Hq. split.
  - rewrite <- (Qfloor_Z lo). apply Qfloor_resp_le. exact H1.
  - rewrite <- (Qfloor_Z hi). apply Qfloor_resp_le. exact H2.
Qed.

(** [int()] commutes with negation (truncation toward zero). *)
Lemma py_int_opp (q : Q) : py_int (- q) = - py_int q.
Proof. destruct q as [n d]. unfold py_int. simpl. apply Z.quot_opp_l. lia. Qed.

(** [int()] depends on the value of the rational, not on its
    representation: a morphism from [Qeq] to [eq], so that [rewrite]
    with rational equalities works under [py_int]. *)
#[export] Instance py_int_proper : Proper (Qeq ==> eq) py_int.
Proof.
  intros p q H. destruct (Qlt_le_dec p 0) as [Hp|Hp].
  - assert (Hq : (q < 0)%Q) by (rewrite <- H; exact Hp).
    rewrite <- (Z.opp_involutive (py_int p)), <- (Z.opp_involutive (py_int q)).
    rewrite <- (py_int_opp p), <- (py_int_opp q), !py_int_floor by lra.
    f_equal. apply Qfloor_comp. rewrite H. reflexivity.
  - assert (Hq : (0 <= q)%Q) by (rewrite <- H; exact Hp).
    rewrite !py_int_floor by assumption. apply Qfloor_comp. exact H.
Qed.

(** [int()] is monotone on non-negative rationals. *)
Lemma py_int_mono (p q : Q) : (0 <= p)%Q -> (p <= q)%Q -> py_int p <= py_int q.
Proof.
  intros Hp Hpq. rewrite !py_int_floor by lra. apply Qfloor_resp_le. exact Hpq.
Qed.

(** [int(q)] of a non-negative rational is 0 exactly below 1. *)
Lemma py_int_zero_iff (q : Q) : (0 <= q)%Q -> py_int q = 0 <-> (q < 1)%Q.
Proof.
  intros Hq. rewrite py_int_floor by exact Hq. split.
  - intros H0. pose proof (Qlt_floor q) as Hlt. rewrite H0 in Hlt. exact Hlt.
  - intros H1. pose proof (Qfloor_resp_le 0 q Hq) as Hge. change (Qfloor 0) with 0 in Hge.
    assert (Hle : (inject_Z (Qfloor q) < inject_Z 1)%Q)
      by (apply Qle_lt_trans with q; [apply Qfloor_le | exact H1]).
    rewrite <- Zlt_Qlt in Hle. lia.
Qed.

(** [find] on [pre ++ m :: post] returns [m] when it is the first
    element satisfying the test. *)
Lemma find_app_cons {A} (P : A -> bool) (pre post : list A) (m : A) :
  Forall (fun x => P x = false) pre -> P m = true -> find P (pre ++ m :: post) = Some m.
Proof.
  intros Hpre Hm. induction Hpre as [|x pre Hx _ IH]; simpl; [rewrite Hm|rewrite Hx]; auto.
Qed.

(** The fold and the reference agree. *)
Lemma py_max_by_eq_first_max {A} (key : A -> Z) (l : list A) :
  py_max_by key l = first_max key l.
Proof.
  destruct (py_max_by key l) as [m|] eqn:Hm; [|destruct l; [reflexivity|discriminate]].
  destruct (py_max_by_first key l m Hm) as (pre & post & Hl & Hlt).
  pose proof (py_max_by_ge key l m Hm) as Hge. rewrite Forall_forall in Hge.
  unfold first_max. set (P := fun x => forallb _ l). rewrite Hl. symmetry.
  apply find_app_cons; subst P; simpl.
  - eapply Forall_impl; [|exact Hlt]. intros x Hx. apply not_true_is_false.
    rewrite forallb_forall. intros Hall. specialize (Hall m (py_max_by_in key l m Hm)).
    apply Z.leb_le in Hall. simpl in Hx. lia.
  - apply forallb_forall. intros y Hy. apply Z.leb_le. auto.
Qed.

