(* ===== verification/Frame.v ===== *)
(** * Frames and the FrameInverter ([inverted = 255 - frame], main.py:6)

    A frame read by [cv2.VideoCapture.read] is a NumPy uint8 array of
    shape (rows, cols, 3) in BGR order.  It is modelled as a list of rows,
    each a list of [bgr] pixels, with the uint8 range as the invariant
    [frame_ok].  NumPy evaluates [255 - frame] elementwise in uint8, so
    each sample is [(255 - v) mod 256]; the modulo is written out and
    shown never to fire on a well-formed frame. *)

From Stdlib Require Import ZArith List Lia.
From stdpp Require Import base list decidable.
From S2P Require Import Prelude.

Open Scope Z_scope.

(** ** Data *)

Record bgr := mk_bgr { blue : Z; green : Z; red : Z }.

#[export] Instance bgr_eq_dec : EqDecision bgr.
Proof. solve_decision. Defined.

(** A frame: rows top to bottom, each row left to right. *)
Definition frame := list (list bgr).

Definition u8_ok (v : Z) : bool := (0 <=? v) && (v <=? 255).

Definition px_ok (p : bgr) : bool :=
  u8_ok (blue p) && u8_ok (green p) && u8_ok (red p).

(** Every sample of every pixel is a uint8. *)
Definition frame_ok (f : frame) : bool := forallb (forallb px_ok) f.

(** The NumPy shape, up to the constant channel count: the length of
    every row.  Two arrays read from one capture have equal shapes. *)
Definition shape (f : frame) : list nat := map (@length bgr) f.

(** ** The inverter *)

(** [c - v] on a uint8 array, [c] a Python int that fits uint8. *)
Definition u8_rsub (c v : Z) : Z := (c - v) mod 256.

Definition invert_px (p : bgr) : bgr :=
  mk_bgr (u8_rsub 255 (blue p)) (u8_rsub 255 (green p)) (u8_rsub 255 (red p)).

(** [255 - frame]. *)
Definition invert (f : frame) : frame := map (map invert_px) f.

(** ** Lemmas *)

Lemma u8_ok_iff v : u8_ok v = true <-> 0 <= v <= 255.
Proof. unfold u8_ok. rewrite andb_true_iff, Z.leb_le, Z.leb_le. tauto. Qed.

Lemma px_ok_iff p :
  px_ok p = true <->
  0 <= blue p <= 255 /\ 0 <= green p <= 255 /\ 0 <= red p <= 255.
Proof. unfold px_ok. rewrite !andb_true_iff, !u8_ok_iff. tauto. Qed.

Lemma frame_ok_iff f :
  frame_ok f = true <-> Forall (Forall (fun p => px_ok p = true)) f.
Proof.
  unfold frame_ok. rewrite forallb_forall, Forall_forall.
  split; intros H row Hrow; specialize (H row Hrow);
    [apply Forall_forall; apply forallb_forall; exact H
    |apply forallb_forall; apply Forall_forall; exact H].
Qed.

(** On a uint8 sample the subtraction does not wrap. *)
Lemma u8_rsub_255 v : 0 <= v <= 255 -> u8_rsub 255 v = 255 - v.
Proof. intros Hv. unfold u8_rsub. apply Z.mod_small. lia. Qed.

Lemma u8_rsub_range c v : 0 <= u8_rsub c v <= 255.
Proof. unfold u8_rsub. pose proof (Z.mod_pos_bound (c - v) 256). lia. Qed.

Lemma invert_px_ok p : px_ok (invert_px p) = true.
Proof. apply px_ok_iff. simpl. pose proof u8_rsub_range. auto. Qed.

Lemma invert_px_involutive p : px_ok p = true -> invert_px (invert_px p) = p.
Proof.
  intros Hp. apply px_ok_iff in Hp as (Hb & Hg & Hr).
  destruct p as [b g r]. unfold invert_px; simpl in *.
  rewrite (u8_rsub_255 b), (u8_rsub_255 g), (u8_rsub_255 r) by lia.
  rewrite !u8_rsub_255 by lia. f_equal; lia.
Qed.


(** On a uint8 pixel the inversion is [255 - v] on each channel. *)
Lemma invert_px_sub p :
  px_ok p = true -> invert_px p = mk_bgr (255 - blue p) (255 - green p) (255 - red p).
Proof.
  intros Hp. apply px_ok_iff in Hp as (Hb & Hg & Hr).
  unfold invert_px. rewrite !u8_rsub_255 by assumption. reflexivity.
Qed.

(** [map] is determined by the values of the function on the list. *)
Lemma map_Forall_ext {A B} (g h : A -> B) (l : list A) :
  Forall (fun x => g x = h x) l -> map g l = map h l.
Proof. induction 1; simpl; f_equal; auto. Qed.

Lemma map_map_Forall_ext (g h : bgr -> bgr) (f : frame) :
  Forall (Forall (fun p => g p = h p)) f -> map (map g) f = map (map h) f.
Proof. intros H. apply map_Forall_ext. eapply Forall_impl; [|exact H]. apply map_Forall_ext. Qed.

(** Mapping a pixel function over a frame keeps the shape. *)
Lemma shape_map_map (g : bgr -> bgr) f : shape (map (map g) f) = shape f.
Proof.
  unfold shape. rewrite map_map. apply map_ext. intros row. apply length_map.
Qed.

Lemma frame_ok_map_map (g : bgr -> bgr) f :
  (forall p, px_ok (g p) = true) -> frame_ok (map (map g) f) = true.
Proof.
  intros Hg. unfold frame_ok. apply forallb_forall. intros row Hrow.
  apply in_map_iff in Hrow as (r0 & <- & _).
  apply forallb_forall. intros p Hp. apply in_map_iff in Hp as (q & <- & _). auto.
Qed.

Lemma invert_shape f : shape (invert f) = shape f.
Proof. apply shape_map_map. Qed.

Lemma invert_ok f : frame_ok (invert f) = true.
Proof. apply frame_ok_map_map, invert_px_ok. Qed.


(** Pixel [(x, y)] of a frame: column [x] of row [y]. *)
Definition pixel_at (f : frame) (x y : nat) : option bgr :=
  row ← nth_error f y; nth_error row x.

(** ** Properties *)

(** C4 (inversion of a uint8 frame).  On a frame of uint8 samples,
    [255 - frame] is the frame of samples [255 - v], exactly: NumPy's
    modulo-256 wrap never fires; and inverting twice gives the frame
    back. *)
Theorem invert_involutive (f : frame) :
  frame_ok f = true ->
  invert f = map (map (fun p => mk_bgr (255 - blue p) (255 - green p) (255 - red p))) f /\
  invert (invert f) = f.
Proof.
  intros Hok. apply frame_ok_iff in Hok. unfold invert. split.
  - apply map_map_Forall_ext. eapply Forall_impl; [|exact Hok]. intros row Hrow.
    eapply Forall_impl; [|exact Hrow]. intros p Hp. apply invert_px_sub, Hp.
  - rewrite map_map. rewrite <- (map_id f) at 2. apply map_Forall_ext.
    eapply Forall_impl; [|exact Hok]. intros row Hrow. simpl. rewrite map_map.
    rewrite <- (map_id row) at 2. apply map_Forall_ext.
    eapply Forall_impl; [|exact Hrow]. intros p Hp. apply invert_px_involutive, Hp.
Qed.

Lemma invert_involutive_witness :
  frame_ok [[mk_bgr 0 128 255; mk_bgr 7 50 200]] = true /\
  invert (invert [[mk_bgr 0 128 255; mk_bgr 7 50 200]]) = [[mk_bgr 0 128 255; mk_bgr 7 50 200]].
Proof. split; [reflexivity | apply invert_involutive; reflexivity]. Defined.

(** ** Automation exported to the later components *)

#[export] Hint Resolve invert_px_ok u8_rsub_range : eye.
#[export] Hint Resolve invert_ok : eye.
#[export] Hint Rewrite invert_shape : eye_rw.
