(* ===== verification/Blend.v ===== *)
(** * The Blender: [cv2.addWeighted(frame, 1 - alpha, delayed, alpha, 0)]
    (main.py:11)

    OpenCV computes, per uint8 sample, [saturate_cast<uchar>(a * (1 -
    alpha) + b * alpha + 0)], where [saturate_cast] rounds half to even
    and clamps to [0, 255]; arrays of different sizes raise an error.
    The opacity is the trackbar position [p] (main.py:65 divides it by
    100), so the weighted sum is the exact rational [(a (100 - p) + b p)
    / 100]. *)

From Stdlib Require Import ZArith List Lia.
From stdpp Require Import base list decidable.
From S2P Require Import Prelude Frame.

Open Scope Z_scope.

(** One sample: [saturate_cast<uchar>(a * (1 - p/100) + b * (p/100))]. *)
Definition add_weighted_u8 (a b p : Z) : Z :=
  saturate_u8 (cv_round_div (a * (100 - p) + b * p) 100).

Definition add_weighted_px (p : Z) (x y : bgr) : bgr :=
  mk_bgr (add_weighted_u8 (blue x) (blue y) p)
         (add_weighted_u8 (green x) (green y) p)
         (add_weighted_u8 (red x) (red y) p).

(** [cv2.addWeighted(src1, 1 - p/100, src2, p/100, 0)]; [None] is the
    OpenCV error raised when the two arrays differ in size. *)
Definition add_weighted (src1 : frame) (p : Z) (src2 : frame) : option frame :=
  if decide (shape src1 = shape src2)
  then Some (zip_with (zip_with (add_weighted_px p)) src1 src2)
  else None.

(** The opacities at which this model is exact.  OpenCV converts the
    weights [1 - alpha] and [alpha] to float32 and sums [a (1 - alpha) +
    b alpha] in float32 before [cvRound].  When [p] is 0, 25, 50, 75 or
    100 both weights are multiples of 1/4, and the products and the sum
    of two uint8 samples are computed without rounding, so [cvRound] sees
    the exact rational [(a (100 - p) + b p) / 100] of [add_weighted_u8].
    At other opacities the float32 sum can land on the other side of a
    .5 tie (at [p = 30], [a = 1], [b = 166] OpenCV gives 51, the model
    50). *)
Definition exact_opacity (p : Z) : bool := bool_decide (p ∈ [0; 25; 50; 75; 100]).

Lemma exact_opacity_range p : exact_opacity p = true -> 0 <= p <= 100.
Proof. unfold exact_opacity. rewrite bool_decide_eq_true, !elem_of_cons, elem_of_nil. lia. Qed.

(** ** Sample level *)

Lemma add_weighted_u8_0 a b : 0 <= a <= 255 -> add_weighted_u8 a b 0 = a.
Proof.
  intros Ha. unfold add_weighted_u8.
  replace (a * (100 - 0) + b * 0) with (a * 100) by lia.
  rewrite cv_round_div_exact by lia. apply saturate_u8_id; lia.
Qed.

Lemma add_weighted_u8_swap a b p :
  add_weighted_u8 a b p = add_weighted_u8 b a (100 - p).
Proof. unfold add_weighted_u8. f_equal. f_equal. lia. Qed.

Lemma add_weighted_px_ok p x y : px_ok (add_weighted_px p x y) = true.
Proof. apply px_ok_iff. simpl. unfold add_weighted_u8. auto with eye. Qed.


(** ** Frame level *)

(** Zipping two frames of one shape row by row. *)
Lemma zip_with_rows_shape (g : bgr -> bgr -> bgr) (f1 f2 : frame) :
  shape f1 = shape f2 -> shape (zip_with (zip_with g) f1 f2) = shape f1.
Proof.
  unfold shape. revert f2. induction f1 as [|r1 f1 IH]; intros [|r2 f2]; simpl;
    try discriminate; [reflexivity|].
  intros [= Hl Hs]. rewrite IH by exact Hs. f_equal.
  rewrite length_zip_with. lia.
Qed.

Lemma zip_with_rows_ok (g : bgr -> bgr -> bgr) (f1 f2 : frame) :
  (forall x y, px_ok (g x y) = true) ->
  frame_ok (zip_with (zip_with g) f1 f2) = true.
Proof.
  intros Hg. revert f2. induction f1 as [|r1 f1 IH]; intros [|r2 f2]; simpl; auto.
  rewrite IH, andb_true_r. apply forallb_forall. intros q Hq.
  revert r2 Hq. induction r1 as [|a r1 IHr]; intros [|b r2]; simpl; try tauto.
  intros [<-|Hq]; eauto.
Qed.

(** A pointwise zip that acts as the left argument on well-formed rows
    is the left frame. *)
Lemma zip_with_rows_left (g : bgr -> bgr -> bgr) (f1 f2 : frame) :
  (forall x y, px_ok x = true -> g x y = x) ->
  frame_ok f1 = true -> shape f1 = shape f2 ->
  zip_with (zip_with g) f1 f2 = f1.
Proof.
  intros Hg. unfold shape, frame_ok.
  revert f2. induction f1 as [|r1 f1 IH]; intros [|r2 f2]; simpl; try discriminate; auto.
  intros Hok [= Hl Hs]. apply andb_prop in Hok as [Hr Hf]. rewrite IH by auto. f_equal.
  clear IH Hs Hf. revert r2 Hl. induction r1 as [|a r1 IHr]; intros [|b r2]; simpl;
    try discriminate; auto.
  intros [= Hl]. apply andb_prop in Hr as [Ha Hr]. rewrite Hg, IHr; auto.
Qed.

Lemma zip_with_rows_flip (g h : bgr -> bgr -> bgr) (f1 f2 : frame) :
  (forall x y, g x y = h y x) ->
  zip_with (zip_with g) f1 f2 = zip_with (zip_with h) f2 f1.
Proof.
  intros Hgh. revert f2. induction f1 as [|r1 f1 IH]; intros [|r2 f2]; simpl; auto.
  rewrite IH. f_equal. revert r2. induction r1 as [|a r1 IHr]; intros [|b r2]; simpl; auto.
  rewrite IHr, Hgh. reflexivity.
Qed.

Lemma add_weighted_px_0 x y : px_ok x = true -> add_weighted_px 0 x y = x.
Proof.
  intros Hx. apply px_ok_iff in Hx as (Hb & Hg & Hr).
  destruct x. unfold add_weighted_px; simpl in *. rewrite !add_weighted_u8_0; auto.
Qed.

Lemma add_weighted_px_swap p x y :
  add_weighted_px p x y = add_weighted_px (100 - p) y x.
Proof. unfold add_weighted_px. rewrite !(add_weighted_u8_swap _ _ p). reflexivity. Qed.

Lemma add_weighted_shape src1 p src2 out :
  add_weighted src1 p src2 = Some out -> shape out = shape src1.
Proof.
  unfold add_weighted. case_decide; [|discriminate]. intros [= <-].
  apply zip_with_rows_shape; auto.
Qed.

Lemma add_weighted_ok src1 p src2 out :
  add_weighted src1 p src2 = Some out -> frame_ok out = true.
Proof.
  unfold add_weighted. case_decide; [|discriminate]. intros [= <-].
  apply zip_with_rows_ok. apply add_weighted_px_ok.
Qed.

(** The blend of two frames is symmetric in its arguments up to the
    opacity [p <-> 100 - p]. *)
Lemma add_weighted_swap src1 p src2 :
  add_weighted src1 p src2 = add_weighted src2 (100 - p) src1.
Proof.
  unfold add_weighted. do 2 case_decide; try congruence.
  f_equal. apply zip_with_rows_flip. intros. apply add_weighted_px_swap.
Qed.

(** ** Properties *)

(** C5 (opacity 0).  [cv2.addWeighted(current, 1, delayed, 0, 0)] returns
    the current frame unchanged, for any delayed frame of the same
    shape. *)
Theorem add_weighted_opacity_0 (cur del : frame) :
  frame_ok cur = true -> shape cur = shape del ->
  add_weighted cur 0 del = Some cur.
Proof.
  intros Hok Hs. unfold add_weighted. case_decide; [|contradiction].
  f_equal. apply zip_with_rows_left; auto using add_weighted_px_0.
Qed.

(** C6 (opacity 100).  [cv2.addWeighted(current, 0, delayed, 1, 0)]
    returns the delayed frame. *)
Theorem add_weighted_opacity_100 (cur del : frame) :
  frame_ok del = true -> shape cur = shape del ->
  add_weighted cur 100 del = Some del.
Proof.
  intros Hok Hs. rewrite add_weighted_swap. replace (100 - 100) with 0 by lia.
  unfold add_weighted. case_decide; [|congruence].
  f_equal. apply zip_with_rows_left; auto using add_weighted_px_0.
Qed.

(** C7 (no clamping).  For uint8 samples and an opacity in [0, 100]
    the weighted sum is within [0, 255] before [saturate_cast]: the
    result is the exactly rounded convex combination. *)
Theorem add_weighted_u8_no_clamp (a b p : Z) :
  0 <= a <= 255 -> 0 <= b <= 255 -> 0 <= p <= 100 ->
  add_weighted_u8 a b p = cv_round_div (a * (100 - p) + b * p) 100 /\
  0 <= cv_round_div (a * (100 - p) + b * p) 100 <= 255.
Proof.
  intros Ha Hb Hp. split.
  - unfold add_weighted_u8. apply saturate_u8_id. apply cv_round_div_range; nia.
  - apply cv_round_div_range; nia.
Qed.

Definition demo_cur : frame := [[mk_bgr 10 20 30; mk_bgr 200 100 0]].
Definition demo_del : frame := [[mk_bgr 245 235 225; mk_bgr 55 155 255]].

Lemma add_weighted_opacity_0_witness :
  add_weighted demo_cur 0 demo_del = Some demo_cur.
Proof. apply add_weighted_opacity_0; reflexivity. Defined.

Lemma add_weighted_opacity_100_witness :
  add_weighted demo_cur 100 demo_del = Some demo_del.
Proof. apply add_weighted_opacity_100; reflexivity. Defined.

(** At opacity 50, 3 and 0 average to 1.5, which rounds to the even 2. *)
Lemma add_weighted_u8_no_clamp_witness :
  add_weighted_u8 3 0 50 = 2.
Proof.
  destruct (add_weighted_u8_no_clamp 3 0 50) as [-> _]; [lia | lia | lia | reflexivity].
Defined.

(** ** Automation exported to the later components *)

#[export] Hint Resolve add_weighted_px_ok : eye.
