(* ===== verification/DelayBuffer.v ===== *)
(** * The DelayBuffer: [process_frame] (main.py:5-14)

    [process_frame(frame, buffer, delay, alpha)] appends the inverted
    frame to the caller's list (an in-place mutation that the caller
    sees), then reads [buffer[-(delay+1)]] when [len(buffer) > delay]
    and blends, and otherwise returns the raw frame.  The model passes
    the list in and returns it together with the outcome, which is
    either the blended frame or the Python exception that would escape
    (the append has happened in every case).  [feed] is the sequence of
    calls that the main loop makes, one per frame read. *)

From Stdlib Require Import ZArith List Lia.
From stdpp Require Import base list decidable.
From S2P Require Import Prelude Frame Blend.

Open Scope Z_scope.

(** Exceptions the program can raise: the two that can escape
    [process_frame], and Python's [%] by zero in [main] (line 87). *)
Inductive py_error :=
| IndexError          (** [buffer[-(delay+1)]] out of range *)
| CvSizeMismatch      (** [cv2.addWeighted] on arrays of different sizes *)
| ZeroDivisionError.  (** [x % screen_w] with [screen_w = 0] *)

#[export] Instance py_error_eq_dec : EqDecision py_error.
Proof. solve_decision. Defined.

Abbreviation outcome := (py_error + frame)%type.

(** [blended = cv2.addWeighted(frame, 1-alpha, delayed_inverted, alpha, 0)]
    with the size error surfaced. *)
Definition blend (f : frame) (alpha : Z) (delayed_inverted : frame) : outcome :=
  match add_weighted f alpha delayed_inverted with
  | Some blended => inr blended
  | None => inl CvSizeMismatch
  end.

Definition process_frame (f : frame) (buffer : list frame) (delay alpha : Z)
    : list frame * outcome :=
  let inverted := invert f in
  let buffer := buffer ++ [inverted] in
  if delay <? py_len buffer then
    match buffer.[- (delay + 1)] with
    | Some delayed_inverted => (buffer, blend f alpha delayed_inverted)
    | None => (buffer, inl IndexError)
    end
  else (buffer, inr f).

(** One call per frame, each with the trackbar values read for it. *)
Record frame_input := { fi_frame : frame; fi_delay : Z; fi_alpha : Z }.

Fixpoint feed (buffer : list frame) (ins : list frame_input)
    : list frame * list outcome :=
  match ins with
  | [] => (buffer, [])
  | i :: rest =>
      let '(buffer, out) := process_frame (fi_frame i) buffer (fi_delay i) (fi_alpha i) in
      let '(buffer, outs) := feed buffer rest in
      (buffer, out :: outs)
  end.

(** A stream of frames processed with fixed trackbar values. *)
Definition constant_inputs (fs : list frame) (delay alpha : Z) : list frame_input :=
  map (fun f => {| fi_frame := f; fi_delay := delay; fi_alpha := alpha |}) fs.

(** ** One call *)

Lemma process_frame_buffer f buffer delay alpha :
  fst (process_frame f buffer delay alpha) = buffer ++ [invert f].
Proof.
  unfold process_frame. repeat case_match; reflexivity.
Qed.

(** The outcome of a call with a non-negative delay: the raw frame while
    the buffer (after the append) holds at most [delay] frames, else the
    blend with the inverted frame [delay] places before the new one. *)
Lemma process_frame_outcome f buffer delay alpha :
  0 <= delay ->
  snd (process_frame f buffer delay alpha) =
  if delay <=? py_len buffer then
    match nth_error (buffer ++ [invert f]) (Z.to_nat (py_len buffer - delay)) with
    | Some g => blend f alpha g
    | None => inl IndexError
    end
  else inr f.
Proof.
  intros Hd. unfold process_frame. autorewrite with eye_rw.
  destruct (Z.leb_spec delay (py_len buffer)) as [Hle|Hgt].
  - rewrite (proj2 (Z.ltb_lt _ _)) by lia.
    rewrite py_get_neg by (rewrite py_len_app_one; lia).
    rewrite py_len_app_one. replace (py_len buffer + 1 - 1 - delay) with (py_len buffer - delay) by lia.
    destruct (nth_error _ _); reflexivity.
  - rewrite (proj2 (Z.ltb_ge _ _)) by lia. reflexivity.
Qed.

(** A call on a buffer of frames of the new frame's shape, with a
    non-negative delay, raises nothing. *)
Lemma process_frame_no_raise f buffer delay alpha :
  0 <= delay -> Forall (fun g => shape g = shape f) buffer ->
  exists g, snd (process_frame f buffer delay alpha) = inr g.
Proof.
  intros Hd Hbuf. rewrite process_frame_outcome by exact Hd.
  destruct (Z.leb_spec delay (py_len buffer)) as [Hle|]; [|eauto].
  destruct (nth_error _ _) as [h|] eqn:Hh.
  - assert (Hs : shape h = shape f).
    { apply nth_error_In in Hh. apply in_app_or in Hh as [Hh|[<-|[]]].
      - rewrite Forall_forall in Hbuf. auto.
      - apply invert_shape. }
    unfold blend, add_weighted. case_decide; [eauto | congruence].
  - apply nth_error_None in Hh. rewrite length_app in Hh. unfold py_len in *. simpl in Hh. lia.
Qed.

(** ** The stream *)

Lemma feed_buffer buffer ins :
  fst (feed buffer ins) = buffer ++ map (fun i => invert (fi_frame i)) ins.
Proof.
  revert buffer. induction ins as [|i ins IH]; intros buffer; simpl.
  - rewrite app_nil_r. reflexivity.
  - pose proof (process_frame_buffer (fi_frame i) buffer (fi_delay i) (fi_alpha i)) as Hb.
    destruct (process_frame _ _ _ _) as [b o]. simpl in Hb. subst b.
    specialize (IH (buffer ++ [invert (fi_frame i)])).
    destruct (feed _ ins) as [b2 o2]. simpl in *. rewrite IH, <- app_assoc. reflexivity.
Qed.

Lemma feed_outcomes_length buffer ins : length (snd (feed buffer ins)) = length ins.
Proof.
  revert buffer. induction ins as [|i ins IH]; intros buffer; simpl; [reflexivity|].
  destruct (process_frame _ _ _ _) as [b o]. specialize (IH b).
  destruct (feed b ins). simpl in *. lia.
Qed.

(** The outcome of the [t]-th call of a stream started on [buffer] is
    the outcome of one call on the buffer that the first [t] calls
    built. *)
Lemma feed_nth buffer ins t i :
  nth_error ins t = Some i ->
  nth_error (snd (feed buffer ins)) t =
  Some (snd (process_frame (fi_frame i)
          (buffer ++ map (fun j => invert (fi_frame j)) (take t ins))
          (fi_delay i) (fi_alpha i))).
Proof.
  revert buffer t. induction ins as [|i0 ins IH]; intros buffer [|t] Hi; simpl in *;
    try discriminate.
  - injection Hi as <-. rewrite app_nil_r.
    destruct (process_frame _ _ _ _) as [b o]. destruct (feed b ins). reflexivity.
  - pose proof (process_frame_buffer (fi_frame i0) buffer (fi_delay i0) (fi_alpha i0)) as Hb.
    destruct (process_frame _ _ _ _) as [b o]. simpl in Hb. subst b.
    specialize (IH (buffer ++ [invert (fi_frame i0)]) t Hi).
    destruct (feed _ ins) as [b2 o2]. simpl in *. rewrite IH, <- app_assoc. reflexivity.
Qed.

(** The history the first [t] calls leave, extended by the [t]-th
    inverted frame, read at [k <= t]. *)
Lemma history_nth (ins : list frame_input) t i k :
  nth_error ins t = Some i -> (k <= t)%nat ->
  nth_error (map (fun j => invert (fi_frame j)) (take t ins) ++ [invert (fi_frame i)]) k =
  (fun j => invert (fi_frame j)) <$> nth_error ins k.
Proof.
  intros Hi Hk. assert (Ht : (t < length ins)%nat) by (apply nth_error_Some; congruence).
  assert (Hlen : length (map (fun j => invert (fi_frame j)) (take t ins)) = t)
    by (rewrite length_map, length_take; lia).
  destruct (Nat.eq_dec k t) as [->|Hne].
  - rewrite nth_error_app2 by lia. rewrite Hlen, Nat.sub_diag, Hi. reflexivity.
  - rewrite nth_error_app1 by lia. rewrite nth_error_map, nth_error_firstn.
    rewrite (proj2 (Nat.ltb_lt k t)) by lia. destruct (nth_error ins k); reflexivity.
Qed.

Lemma history_len (ins : list frame_input) t :
  (t <= length ins)%nat ->
  py_len ([] ++ map (fun j => invert (fi_frame j)) (take t ins)) = Z.of_nat t.
Proof. intros Ht. unfold py_len. simpl. rewrite length_map, length_take. lia. Qed.

(** The outcome of call [t] of a stream started on an empty buffer, for a
    non-negative delay [d]: the raw frame while [t < d], else the blend
    with the inverse of frame [t - d]. *)
Lemma feed_nth_outcome (ins : list frame_input) t i :
  nth_error ins t = Some i -> 0 <= fi_delay i ->
  nth_error (snd (feed [] ins)) t =
  Some (if (Z.to_nat (fi_delay i) <=? t)%nat then
          match nth_error ins (t - Z.to_nat (fi_delay i)) with
          | Some j => blend (fi_frame i) (fi_alpha i) (invert (fi_frame j))
          | None => inl IndexError
          end
        else inr (fi_frame i)).
Proof.
  intros Hi Hd. rewrite (feed_nth [] ins t i Hi). f_equal.
  assert (Ht : (t < length ins)%nat) by (apply nth_error_Some; congruence).
  rewrite process_frame_outcome, history_len by (auto; lia).
  destruct (Nat.leb_spec (Z.to_nat (fi_delay i)) t) as [Hle|Hgt].
  - rewrite (proj2 (Z.leb_le _ _)) by lia.
    replace (Z.to_nat (Z.of_nat t - fi_delay i)) with (t - Z.to_nat (fi_delay i))%nat by lia.
    simpl. rewrite history_nth with (i := i) by (auto; lia).
    destruct (nth_error ins (t - _)); reflexivity.
  - rewrite (proj2 (Z.leb_gt _ _)) by lia. reflexivity.
Qed.

(** ** Properties *)

(** C1 (delay correctness).  In a stream started on an empty buffer,
    call [t] made with delay [d <= t] (the trackbar may have moved
    between calls) blends frame [t] with the inverse of frame [t - d]:
    the whole inverted history is kept, so any delay can reach back. *)
Theorem feed_delay_correct (ins : list frame_input) (t : nat) (i j : frame_input) :
  nth_error ins t = Some i ->
  0 <= fi_delay i ->
  (Z.to_nat (fi_delay i) <= t)%nat ->
  nth_error ins (t - Z.to_nat (fi_delay i)) = Some j ->
  nth_error (snd (feed [] ins)) t =
  Some (blend (fi_frame i) (fi_alpha i) (invert (fi_frame j))).
Proof.
  intros Hi Hd Hle Hj. rewrite (feed_nth_outcome ins t i) by auto.
  rewrite (proj2 (Nat.leb_le _ _) Hle), Hj. reflexivity.
Qed.

(** C2 (warm-up law).  Call [t] made with a delay [d > t] returns the
    raw frame unchanged: the first [d] frames of a stream are not
    blended. *)
Theorem feed_warmup (ins : list frame_input) (t : nat) (i : frame_input) :
  nth_error ins t = Some i ->
  (t < Z.to_nat (fi_delay i))%nat ->
  nth_error (snd (feed [] ins)) t = Some (inr (fi_frame i)).
Proof.
  intros Hi Hlt. rewrite (feed_nth_outcome ins t i) by (auto; lia).
  rewrite (proj2 (Nat.leb_gt _ _) Hlt). reflexivity.
Qed.

(** C3 (no exception escapes).  On a stream of frames of one shape with
    non-negative delays, no call raises: neither the list index
    [buffer[-(delay+1)]] nor [cv2.addWeighted]. *)
Theorem feed_never_raises (ins : list frame_input) (s : list nat) :
  Forall (fun i => shape (fi_frame i) = s /\ 0 <= fi_delay i) ins ->
  Forall (fun o => exists g, o = inr g) (snd (feed [] ins)).
Proof.
  intros Hall. apply (proj2 (Forall_nth_error _ _)). intros t o Ho.
  assert (Ht : (t < length ins)%nat)
    by (rewrite <- (feed_outcomes_length [] ins); apply nth_error_Some; congruence).
  destruct (nth_error ins t) as [i|] eqn:Hi; [|apply nth_error_None in Hi; lia].
  pose proof (proj1 (Forall_nth_error _ _) Hall t i Hi) as [Hs Hd].
  rewrite (feed_nth_outcome ins t i) in Ho by auto. injection Ho as <-.
  destruct (Nat.leb _ _); [|eauto].
  destruct (nth_error ins (t - _)) as [j|] eqn:Hj.
  - pose proof (proj1 (Forall_nth_error _ _) Hall _ j Hj) as [Hsj _].
    unfold blend, add_weighted. rewrite invert_shape. case_decide; [eauto | congruence].
  - apply nth_error_None in Hj. lia.
Qed.

(** The spec's contract for one frame (spec 4.2-4.3): the abstract buffer
    is the history of inverted frames, newest last; [lookback history d]
    is the frame [d] steps behind the newest, or nothing (NotAvailable)
    when fewer than [d + 1] frames were appended.  A call appends the
    inverted frame and blends with [lookback delay], or passes the raw
    frame through. *)
Definition lookback (history : list frame) (d : nat) : option frame :=
  nth_error (rev history) d.

Definition process_frame_spec (f : frame) (history : list frame) (d : nat) (alpha : Z)
    : list frame * outcome :=
  let history := history ++ [invert f] in
  (history, match lookback history d with
            | Some g => blend f alpha g
            | None => inr f
            end).

(** [process_frame] computes the spec's append-then-lookback: the
    guard [len(buffer) > delay] and the index [-(delay + 1)] select the
    frame [delay] places before the new one, and nothing else. *)
Lemma process_frame_spec_eq f buffer delay alpha :
  0 <= delay ->
  process_frame f buffer delay alpha = process_frame_spec f buffer (Z.to_nat delay) alpha.
Proof.
  intros Hd. apply injective_projections; [apply process_frame_buffer|].
  rewrite process_frame_outcome by exact Hd. unfold process_frame_spec, lookback. simpl.
  rewrite nth_error_rev, length_app. simpl. unfold py_len.
  destruct (Z.leb_spec delay (Z.of_nat (length buffer))) as [Hle|Hgt].
  - rewrite (proj2 (Nat.ltb_lt _ _)) by lia.
    replace (length buffer + 1 - S (Z.to_nat delay))%nat
      with (Z.to_nat (Z.of_nat (length buffer) - delay)) by lia.
    destruct (nth_error _ _) eqn:E; [reflexivity|].
    apply nth_error_None in E. rewrite length_app in E. simpl in E. lia.
  - rewrite (proj2 (Nat.ltb_ge _ _)) by lia. reflexivity.
Qed.

(** At delay 1 a call blends with the last frame buffered before it. *)
Lemma process_frame_delay_1 f buffer g alpha :
  snd (process_frame f (buffer ++ [g]) 1 alpha) = blend f alpha g.
Proof.
  rewrite process_frame_spec_eq by lia. unfold process_frame_spec, lookback.
  rewrite !rev_app_distr. reflexivity.
Qed.

(** C20 (refinement).  For every non-negative delay, [process_frame] with
    its guard [len(buffer) > delay] and its negative index
    [buffer[-(delay+1)]] is the spec's append-then-lookback contract:
    same buffer, same outcome, and the IndexError branch is never
    taken. *)
Theorem process_frame_refines_spec (f : frame) (buffer : list frame) (delay alpha : Z) :
  0 <= delay ->
  process_frame f buffer delay alpha = process_frame_spec f buffer (Z.to_nat delay) alpha.
Proof. apply process_frame_spec_eq. Qed.

Lemma process_frame_refines_spec_witness :
  process_frame [[mk_bgr 1 2 3]] [[[mk_bgr 9 9 9]]; [[mk_bgr 8 8 8]]] 1 50 =
  process_frame_spec [[mk_bgr 1 2 3]] [[[mk_bgr 9 9 9]]; [[mk_bgr 8 8 8]]] 1 50.
Proof. apply (process_frame_refines_spec _ _ 1 50). lia. Defined.

(** A stream of 1x1 frames of grey levels 0, 40, 80, 120, 160 with
    delay 3 and opacity 50. *)
Definition demo_inputs : list frame_input :=
  constant_inputs (map (fun v => [[mk_bgr v v v]]) [0; 40; 80; 120; 160]) 3 50.

Lemma feed_delay_correct_witness :
  nth_error (snd (feed [] demo_inputs)) 4 =
  Some (inr [[mk_bgr 188 188 188]]).
Proof.
  rewrite (feed_delay_correct demo_inputs 4
             {| fi_frame := [[mk_bgr 160 160 160]]; fi_delay := 3; fi_alpha := 50 |}
             {| fi_frame := [[mk_bgr 40 40 40]]; fi_delay := 3; fi_alpha := 50 |});
    first [reflexivity | simpl; lia].
Defined.

Lemma feed_warmup_witness :
  nth_error (snd (feed [] demo_inputs)) 2 = Some (inr [[mk_bgr 80 80 80]]).
Proof.
  apply (feed_warmup demo_inputs 2
           {| fi_frame := [[mk_bgr 80 80 80]]; fi_delay := 3; fi_alpha := 50 |});
    first [reflexivity | simpl; lia].
Defined.

Lemma feed_never_raises_witness :
  Forall (fun o => exists g, o = inr g) (snd (feed [] demo_inputs)).
Proof.
  apply (feed_never_raises demo_inputs [1%nat]).
  cbn. repeat (apply Forall_cons; [split; [reflexivity | simpl; lia] |]). apply Forall_nil.
Defined.
