(* ===== verification/Detector.v ===== *)
(** * The BlobDetector: [detect_pupil] (main.py:16-25)

    [cv2.cvtColor(.., COLOR_BGR2GRAY)] is OpenCV's fixed-point luminance
    [Y = (1868 B + 9617 G + 4899 R + 2^13) >> 14] ([gray_px]).
    [cv2.threshold(gray, 50, 255, THRESH_BINARY_INV)] maps a sample to 0
    when it is above 50 and to 255 otherwise ([threshold_inv]).
    [cv2.contourArea] is the absolute shoelace sum over the closed
    polygon, halved; [contour_area2] keeps it doubled, which selects the
    same contour in [max] ([py_max_by_mono]).

    The two OpenCV routines whose internals are not modelled here,
    [cv2.findContours(.., RETR_EXTERNAL, CHAIN_APPROX_SIMPLE)] and
    [cv2.minEnclosingCircle], form the record [ContourBackend]; the
    record [backend_laws] states what the code relies on from them, and
    every theorem about [detect_pupil] is proved for any backend that
    satisfies the laws.  [box_backend] is a small backend satisfying
    them, used to run the theorems on concrete frames.  The last section
    shows that [contour_area2] depends only on the polygon: not on the
    vertex a listing starts from, its orientation, or the collinear
    vertices [CHAIN_APPROX_SIMPLE] removes. *)

From Stdlib Require Import ZArith QArith Qround List Lia Lqa.
From stdpp Require Import base list decidable.
From S2P Require Import Prelude Frame.

Open Scope Z_scope.

(** ** Grey conversion and threshold *)

(** A single-channel uint8 image, as rows of samples. *)
Definition gray_image := list (list Z).

(** [cv::RGB2Gray<uchar>] on a BGR pixel: coefficients 0.114, 0.587,
    0.299 scaled by [2^14], rounded by adding half before the shift. *)
Definition gray_px (p : bgr) : Z :=
  Z.shiftr (blue p * 1868 + green p * 9617 + red p * 4899 + Z.shiftl 1 13) 14.

Definition to_gray (f : frame) : gray_image := map (map gray_px) f.

(** [THRESH_BINARY_INV]: [dst = src > thresh ? 0 : maxval]. *)
Definition threshold_inv_px (thresh maxval v : Z) : Z :=
  if thresh <? v then 0 else maxval.

Definition threshold_inv (thresh maxval : Z) (g : gray_image) : gray_image :=
  map (map (threshold_inv_px thresh maxval)) g.

(** Sample [(x, y)] of a single-channel image. *)
Definition gray_at (g : gray_image) (x y : Z) : option Z :=
  if (0 <=? x) && (0 <=? y) then
    row ← nth_error g (Z.to_nat y); nth_error row (Z.to_nat x)
  else None.

(** ** Contours *)

(** A contour point [(x, y)]: column, row. *)
Definition point := (Z * Z)%type.
Definition contour := list point.

(** [contourArea]'s loop: [a00 += prev.x * p.y - p.x * prev.y], with
    [prev] starting at the last point. *)
Fixpoint shoelace_from (prev : point) (ps : list point) : Z :=
  match ps with
  | [] => 0
  | p :: rest => (fst prev * snd p - fst p * snd prev) + shoelace_from p rest
  end.

(** Twice [cv2.contourArea(c)] (non-oriented: absolute value). *)
Definition contour_area2 (c : contour) : Z :=
  match c with
  | [] => 0
  | p0 :: _ => Z.abs (shoelace_from (List.last c p0) c)
  end.

(** ** The OpenCV routines [detect_pupil] calls *)

(** A circle [((cx, cy), radius)] as [cv2.minEnclosingCircle] returns it. *)
Definition circle := ((Q * Q) * Q)%type.

Record ContourBackend := {
  find_contours : gray_image -> list contour;
  min_enclosing_circle : contour -> circle
}.

Definition foreground_free (g : gray_image) : Prop :=
  Forall (Forall (fun v => v = 0)) g.

Definition in_box (c : contour) (q : Q * Q) : Prop :=
  exists xlo xhi ylo yhi,
    In xlo (map fst c) /\ In xhi (map fst c) /\ In ylo (map snd c) /\ In yhi (map snd c) /\
    (inject_Z xlo <= fst q <= inject_Z xhi)%Q /\ (inject_Z ylo <= snd q <= inject_Z yhi)%Q.

(** What the code relies on from the two routines:
    - no contour exactly when there is no foreground pixel;
    - every contour is non-empty and runs through foreground pixels;
    - the centre of the enclosing circle lies within the contour's
      bounding box. *)
Record backend_laws (B : ContourBackend) : Prop := {
  fc_background : forall g, foreground_free g -> find_contours B g = [];
  fc_found : forall g, find_contours B g = [] -> foreground_free g;
  fc_nonempty : forall g c, In c (find_contours B g) -> c <> [];
  fc_foreground : forall g c x y, In c (find_contours B g) -> In (x, y) c ->
    exists v, gray_at g x y = Some v /\ v <> 0;
  mec_center : forall c, c <> [] -> in_box c (fst (min_enclosing_circle B c))
}.

(** ** [detect_pupil] *)

Definition detect_pupil (B : ContourBackend) (motion_frame : frame) : option (Z * Z) :=
  let gray := to_gray motion_frame in
  let thresh := threshold_inv 50 255 gray in
  let cnts := find_contours B thresh in
  match cnts with
  | [] => None
  | _ =>
      match py_max_by contour_area2 cnts with
      | Some c =>
          let '((x, y), _) := min_enclosing_circle B c in
          Some (py_int x, py_int y)
      | None => None
      end
  end.

(** A pixel of the frame whose grey level passes the threshold. *)
Definition dark (f : frame) (x y : Z) : Prop :=
  0 <= x /\ 0 <= y /\
  exists p, pixel_at f (Z.to_nat x) (Z.to_nat y) = Some p /\ gray_px p <= 50.

(** A non-zero sample of a single-channel image. *)
Definition foreground (g : gray_image) (x y : Z) : Prop :=
  exists v, gray_at g x y = Some v /\ v <> 0.

(** [(x, y)] lies in the bounding box of the points satisfying [P]:
    there are such points in columns [x1 <= x <= x2] and in rows
    [y1 <= y <= y2]. *)
Definition bbox_of (P : Z -> Z -> Prop) (x y : Z) : Prop :=
  exists x1 x2 y1 y2 a1 a2 b1 b2,
    P x1 b1 /\ P x2 b2 /\ P a1 y1 /\ P a2 y2 /\ x1 <= x <= x2 /\ y1 <= y <= y2.

(** ** Lemmas *)

Lemma gray_px_div p :
  gray_px p = (blue p * 1868 + green p * 9617 + red p * 4899 + 8192) / 16384.
Proof. unfold gray_px. rewrite Z.shiftr_div_pow2 by lia. reflexivity. Qed.

(** The weights sum to [2^14]: a pixel whose channels are all above
    [t] has a grey level above [t]. *)
Lemma gray_px_lower (t : Z) p :
  t < blue p -> t < green p -> t < red p -> t < gray_px p.
Proof.
  intros Hb Hg Hr. rewrite gray_px_div.
  apply Z.lt_le_trans with (t + 1); [lia|].
  apply Z.div_le_lower_bound; lia.
Qed.

Lemma threshold_inv_px_nonzero v : threshold_inv_px 50 255 v <> 0 <-> v <= 50.
Proof.
  unfold threshold_inv_px. case_zcmp; split; intros; lia.
Qed.

(** A non-zero sample of the thresholded grey frame is a dark pixel. *)
Lemma gray_at_threshold_dark f x y v :
  gray_at (threshold_inv 50 255 (to_gray f)) x y = Some v -> v <> 0 -> dark f x y.
Proof.
  unfold gray_at, dark, pixel_at, threshold_inv, to_gray.
  destruct (Z.leb_spec 0 x), (Z.leb_spec 0 y); simpl; try discriminate.
  intros Hv Hnz. split; [lia|]. split; [lia|].
  rewrite map_map, nth_error_map in Hv.
  destruct (nth_error f (Z.to_nat y)) as [row|]; simpl in *; [|discriminate].
  rewrite map_map, nth_error_map in Hv.
  destruct (nth_error row (Z.to_nat x)) as [p|]; simpl in *; [|discriminate].
  injection Hv as <-. exists p. split; [reflexivity|]. apply threshold_inv_px_nonzero; exact Hnz.
Qed.

(** A frame with no dark pixel thresholds to an all-zero image. *)
Lemma threshold_bright_free (f : frame) :
  Forall (Forall (fun p => 50 < gray_px p)) f ->
  foreground_free (threshold_inv 50 255 (to_gray f)).
Proof.
  intros Hf. unfold foreground_free, threshold_inv, to_gray. rewrite map_map.
  apply Forall_map. eapply Forall_impl; [|exact Hf]. intros row Hrow.
  rewrite map_map. apply Forall_map. eapply Forall_impl; [|exact Hrow]. intros p Hp.
  simpl in *. unfold threshold_inv_px. case_zcmp; lia.
Qed.

(** [detect_pupil] in terms of the contour it selects. *)
Lemma detect_pupil_some B f x y :
  detect_pupil B f = Some (x, y) ->
  exists c, py_max_by contour_area2 (find_contours B (threshold_inv 50 255 (to_gray f))) = Some c /\
    py_int (fst (fst (min_enclosing_circle B c))) = x /\
    py_int (snd (fst (min_enclosing_circle B c))) = y.
Proof.
  unfold detect_pupil. destruct (find_contours B _) as [|c0 cs]; [discriminate|].
  destruct (py_max_by contour_area2 (c0 :: cs)) as [c|] eqn:Hc; [|discriminate].
  destruct (min_enclosing_circle B c) as [[cx cy] r] eqn:Hm. intros [= <- <-].
  exists c. rewrite Hm. auto.
Qed.

(** ** A backend that satisfies the laws

    [box_backend] reports all foreground pixels as one contour, in
    raster order, and the circle centred on their bounding box.  It is
    not OpenCV's algorithm; it shows the laws are satisfiable and lets
    the theorems run on concrete frames. *)

Fixpoint row_points (y x : Z) (row : list Z) : list point :=
  match row with
  | [] => []
  | v :: rest => (if v =? 0 then [] else [(x, y)]) ++ row_points y (x + 1) rest
  end.

Fixpoint image_points (y : Z) (g : gray_image) : list point :=
  match g with
  | [] => []
  | row :: rest => row_points y 0 row ++ image_points (y + 1) rest
  end.

Definition list_min (d : Z) (l : list Z) : Z :=
  match l with [] => d | x :: xs => fold_left Z.min xs x end.
Definition list_max (d : Z) (l : list Z) : Z :=
  match l with [] => d | x :: xs => fold_left Z.max xs x end.

Definition box_circle (c : contour) : circle :=
  let xlo := list_min 0 (map fst c) in let xhi := list_max 0 (map fst c) in
  let ylo := list_min 0 (map snd c) in let yhi := list_max 0 (map snd c) in
  ((inject_Z (xlo + xhi) / 2, inject_Z (ylo + yhi) / 2)%Q,
   inject_Z ((xhi - xlo) + (yhi - ylo))).

Definition box_backend : ContourBackend := {|
  find_contours := fun g => match image_points 0 g with [] => [] | pts => [pts] end;
  min_enclosing_circle := box_circle
|}.

Lemma row_points_in y x0 row x y' :
  In (x, y') (row_points y x0 row) ->
  y' = y /\ x0 <= x /\ exists v, nth_error row (Z.to_nat (x - x0)) = Some v /\ v <> 0.
Proof.
  revert x0. induction row as [|v rest IH]; intros x0; simpl; [tauto|].
  rewrite in_app_iff. intros [Hin|Hin].
  - destruct (Z.eqb_spec v 0); simpl in Hin; [tauto|].
    destruct Hin as [[= <- <-]|[]]. split; [reflexivity|]. split; [lia|].
    rewrite Z.sub_diag. eauto.
  - destruct (IH (x0 + 1) Hin) as (-> & Hx & w & Hw & Hnz). split; [reflexivity|]. split; [lia|].
    exists w. replace (Z.to_nat (x - x0)) with (S (Z.to_nat (x - (x0 + 1)))) by lia. auto.
Qed.

Lemma image_points_in y0 g x y :
  In (x, y) (image_points y0 g) ->
  y0 <= y /\ exists row v, nth_error g (Z.to_nat (y - y0)) = Some row /\
    nth_error row (Z.to_nat x) = Some v /\ v <> 0 /\ 0 <= x.
Proof.
  revert y0. induction g as [|row rest IH]; intros y0; simpl; [tauto|].
  rewrite in_app_iff. intros [Hin|Hin].
  - apply row_points_in in Hin as (-> & Hx & v & Hv & Hnz). split; [lia|].
    exists row, v. rewrite Z.sub_diag, Z.sub_0_r in *. auto.
  - destruct (IH (y0 + 1) Hin) as (Hy & row' & v & Hr & Hv & Hnz & Hx). split; [lia|].
    exists row', v. replace (Z.to_nat (y - y0)) with (S (Z.to_nat (y - (y0 + 1)))) by lia. auto.
Qed.

Lemma image_points_free y0 g : foreground_free g -> image_points y0 g = [].
Proof.
  unfold foreground_free. intros Hg. revert y0.
  induction Hg as [|row rest Hrow Hrest IH]; intros y0; simpl; [reflexivity|].
  rewrite IH, app_nil_r. clear IH. generalize 0.
  induction Hrow as [|v r Hv Hr IHr]; intros x; simpl; [reflexivity|].
  rewrite Hv, IHr. reflexivity.
Qed.

Lemma fold_min_in (xs : list Z) x : In (fold_left Z.min xs x) (x :: xs).
Proof.
  revert x. induction xs as [|y ys IH]; intros x; simpl; [auto|].
  destruct (Z.min_spec x y) as [[_ ->]|[_ ->]];
    [specialize (IH x) | specialize (IH y)]; simpl in IH; tauto.
Qed.

Lemma fold_max_in (xs : list Z) x : In (fold_left Z.max xs x) (x :: xs).
Proof.
  revert x. induction xs as [|y ys IH]; intros x; simpl; [auto|].
  destruct (Z.max_spec x y) as [[_ ->]|[_ ->]];
    [specialize (IH y) | specialize (IH x)]; simpl in IH; tauto.
Qed.

Lemma fold_min_le_max (xs : list Z) x : fold_left Z.min xs x <= fold_left Z.max xs x.
Proof.
  assert (forall a b, a <= b -> fold_left Z.min xs a <= fold_left Z.max xs b) as H.
  { induction xs as [|y ys IH]; intros a b Hab; simpl; [lia|]. apply IH. lia. }
  apply H. lia.
Qed.

Lemma Qmid_between (a b : Z) :
  a <= b -> (inject_Z a <= inject_Z (a + b) / 2 <= inject_Z b)%Q.
Proof.
  intros Hab. rewrite inject_Z_plus. rewrite Zle_Qle in Hab. split.
  - apply Qle_shift_div_l; [reflexivity|]. lra.
  - apply Qle_shift_div_r; [reflexivity|]. lra.
Qed.

Lemma row_points_nil y x row : row_points y x row = [] -> Forall (fun v => v = 0) row.
Proof.
  revert x. induction row as [|v rest IH]; intros x; simpl; [constructor|].
  intros H. apply app_eq_nil in H as [Hv Hr].
  constructor; [|eauto]. destruct (Z.eqb_spec v 0); [assumption|discriminate].
Qed.

Lemma image_points_nil y g : image_points y g = [] -> foreground_free g.
Proof.
  unfold foreground_free. revert y. induction g as [|row rest IH]; intros y; simpl;
    [constructor|]. intros H. apply app_eq_nil in H as [Hr Hg].
  constructor; [eapply row_points_nil; eauto | eauto].
Qed.

Lemma box_backend_laws : backend_laws box_backend.
Proof.
  split; simpl.
  - intros g Hg. rewrite image_points_free by exact Hg. reflexivity.
  - intros g. destruct (image_points 0 g) eqn:E; [|discriminate].
    intros _. eapply image_points_nil; eauto.
  - intros g c. destruct (image_points 0 g) eqn:E; simpl; [tauto|].
    intros [<-|[]]. discriminate.
  - intros g c x y. destruct (image_points 0 g) as [|p ps] eqn:E; simpl; [tauto|].
    intros [<-|[]] Hin. rewrite <- E in Hin.
    apply image_points_in in Hin as (Hy & row & v & Hr & Hv & Hnz & Hx).
    exists v. split; [|exact Hnz]. unfold gray_at.
    rewrite (proj2 (Z.leb_le 0 x)), (proj2 (Z.leb_le 0 y)) by lia. simpl.
    rewrite Z.sub_0_r in Hr. rewrite Hr. exact Hv.
  - intros [|[x y] c] Hc; [congruence|]. unfold in_box, box_circle; simpl.
    exists (fold_left Z.min (map fst c) x), (fold_left Z.max (map fst c) x),
           (fold_left Z.min (map snd c) y), (fold_left Z.max (map snd c) y).
    split; [apply fold_min_in|]. split; [apply fold_max_in|].
    split; [apply fold_min_in|]. split; [apply fold_max_in|].
    split; apply Qmid_between, fold_min_le_max.
Qed.

Lemma threshold_free_bright (f : frame) :
  foreground_free (threshold_inv 50 255 (to_gray f)) ->
  Forall (Forall (fun p => 50 < gray_px p)) f.
Proof.
  unfold foreground_free, threshold_inv, to_gray. intros Hf. rewrite map_map, Forall_map in Hf.
  eapply Forall_impl; [|exact Hf]. intros row Hrow.
  simpl in Hrow. rewrite ?map_map, Forall_map in Hrow. eapply Forall_impl; [|exact Hrow].
  intros p Hp. simpl in Hp. unfold threshold_inv_px in Hp. case_zcmp; lia.
Qed.

Lemma bbox_of_impl (P Q : Z -> Z -> Prop) x y :
  (forall a b, P a b -> Q a b) -> bbox_of P x y -> bbox_of Q x y.
Proof.
  intros HPQ (x1 & x2 & y1 & y2 & a1 & a2 & b1 & b2 & H1 & H2 & H3 & H4 & Hx & Hy).
  exists x1, x2, y1, y2, a1, a2, b1, b2. auto 10.
Qed.

Lemma gray_at_nonneg (g : gray_image) a b v : gray_at g a b = Some v -> 0 <= a /\ 0 <= b.
Proof. unfold gray_at. do 2 case_zcmp; simpl; try discriminate. auto. Qed.

(** A coordinate of a point of a reported contour is the coordinate of a
    foreground sample. *)
Lemma contour_coord_foreground B g c a :
  backend_laws B -> In c (find_contours B g) ->
  (In a (map fst c) -> exists b, foreground g a b) /\ (In a (map snd c) -> exists b, foreground g b a).
Proof.
  intros HB Hc. split; intros Ha; apply in_map_iff in Ha as ([x y] & <- & Hin);
    eexists; exact (fc_foreground _ HB _ _ _ _ Hc Hin).
Qed.

(** The centre of the enclosing circle of a reported contour has
    non-negative coordinates: it lies between coordinates of samples. *)
Lemma mec_center_nonneg B g c :
  backend_laws B -> In c (find_contours B g) ->
  (0 <= fst (fst (min_enclosing_circle B c)))%Q /\ (0 <= snd (fst (min_enclosing_circle B c)))%Q.
Proof.
  intros HB Hc.
  destruct (mec_center _ HB c (fc_nonempty _ HB _ _ Hc)) as
    (xlo & xhi & ylo & yhi & Hxlo & _ & Hylo & _ & [Hx1 _] & [Hy1 _]).
  destruct (proj1 (contour_coord_foreground B _ c xlo HB Hc) Hxlo) as [b (v & Hv & _)].
  destruct (proj2 (contour_coord_foreground B _ c ylo HB Hc) Hylo) as [a (w & Hw & _)].
  apply gray_at_nonneg in Hv as [Hx _]. apply gray_at_nonneg in Hw as [_ Hy].
  split; [eapply Qle_trans; [|exact Hx1] | eapply Qle_trans; [|exact Hy1]];
    change 0%Q with (inject_Z 0); rewrite <- Zle_Qle; assumption.
Qed.

(** For a lawful backend, a detection lies in the bounding box of the
    foreground of the thresholded grey image. *)
Lemma detect_pupil_foreground_box B f x y :
  backend_laws B -> detect_pupil B f = Some (x, y) ->
  bbox_of (foreground (threshold_inv 50 255 (to_gray f))) x y.
Proof.
  intros HB Hd. apply detect_pupil_some in Hd as (c & Hc & Hx & Hy).
  pose proof (py_max_by_in _ _ _ Hc) as Hin.
  pose proof (mec_center _ HB c (fc_nonempty _ HB _ _ Hin)) as
    (xlo & xhi & ylo & yhi & Hxlo & Hxhi & Hylo & Hyhi & [Hx1 Hx2] & [Hy1 Hy2]).
  destruct (proj1 (contour_coord_foreground B _ c xlo HB Hin) Hxlo) as [b1 Hb1].
  destruct (proj1 (contour_coord_foreground B _ c xhi HB Hin) Hxhi) as [b2 Hb2].
  destruct (proj2 (contour_coord_foreground B _ c ylo HB Hin) Hylo) as [a1 Ha1].
  destruct (proj2 (contour_coord_foreground B _ c yhi HB Hin) Hyhi) as [a2 Ha2].
  exists xlo, xhi, ylo, yhi, a1, a2, b1, b2. subst x y.
  refine (conj Hb1 (conj Hb2 (conj Ha1 (conj Ha2 (conj _ _))))); apply py_int_between; auto;
    [destruct Hb1 as (v & Hv & _) | destruct Ha1 as (v & Hv & _)];
    apply gray_at_nonneg in Hv; tauto.
Qed.

(** ** Properties *)

(** C8 (detection miss).  For any contour backend with the laws of
    [findContours] and [minEnclosingCircle], [detect_pupil] returns
    [None] exactly when no pixel of the frame has a grey level of at
    most 50; in particular on a uniformly bright frame, one whose
    samples all exceed 50 (spec 4.4 and 8). *)
Theorem detect_pupil_none_iff (B : ContourBackend) (f : frame) :
  backend_laws B ->
  (detect_pupil B f = None <-> Forall (Forall (fun p => 50 < gray_px p)) f) /\
  (Forall (Forall (fun p => 50 < blue p /\ 50 < green p /\ 50 < red p)) f ->
   detect_pupil B f = None).
Proof.
  intros HB.
  assert (Hbright : Forall (Forall (fun p => 50 < gray_px p)) f -> detect_pupil B f = None).
  { intros Hf. unfold detect_pupil.
    rewrite (fc_background _ HB) by (apply threshold_bright_free; exact Hf). reflexivity. }
  split; [split; [|exact Hbright]|].
  - unfold detect_pupil. destruct (find_contours B _) as [|c cs] eqn:E.
    + intros _. apply threshold_free_bright, (fc_found _ HB). exact E.
    + simpl. destruct (min_enclosing_circle B _) as [[? ?] ?]. discriminate.
  - intros Hf. apply Hbright. eapply Forall_impl; [|exact Hf]. intros row Hrow.
    eapply Forall_impl; [|exact Hrow]. intros p (Hb & Hg & Hr). apply gray_px_lower; assumption.
Qed.

(** C9 (largest contour, first on ties).  A detection is the truncated
    centre of the enclosing circle of a reported contour whose area is
    at least every other's and strictly greater than every earlier one's
    (Python's [max] keeps the first maximum). *)
Theorem detect_pupil_first_largest (B : ContourBackend) (f : frame) (x y : Z) :
  detect_pupil B f = Some (x, y) ->
  exists pre c post,
    find_contours B (threshold_inv 50 255 (to_gray f)) = pre ++ c :: post /\
    Forall (fun c' => contour_area2 c' < contour_area2 c) pre /\
    Forall (fun c' => contour_area2 c' <= contour_area2 c) post /\
    x = py_int (fst (fst (min_enclosing_circle B c))) /\
    y = py_int (snd (fst (min_enclosing_circle B c))).
Proof.
  intros Hd. apply detect_pupil_some in Hd as (c & Hc & Hx & Hy).
  destruct (py_max_by_first _ _ _ Hc) as (pre & post & Heq & Hpre).
  pose proof (py_max_by_ge _ _ _ Hc) as Hge. rewrite Heq in Hge.
  apply Forall_app in Hge as [_ Hge]. inversion Hge; subst.
  exists pre, c, post. auto.
Qed.

(** C10 (detection inside the dark region).  A detection [(x, y)] lies
    in the bounding box of the frame's dark pixels: there are dark
    pixels in columns [x1 <= x <= x2] and in rows [y1 <= y <= y2]. *)
Theorem detect_pupil_within_dark (B : ContourBackend) (f : frame) (x y : Z) :
  backend_laws B -> detect_pupil B f = Some (x, y) -> bbox_of (dark f) x y.
Proof.
  intros HB Hd. eapply bbox_of_impl; [|exact (detect_pupil_foreground_box B f x y HB Hd)].
  intros a b (v & Hv & Hnz). eapply gray_at_threshold_dark; eauto.
Qed.

(** A 3x3 frame, bright (200) except a dark (10) L-shaped blob at
    (1,1), (2,1), (1,2); its box centre (1.5, 1.5) truncates to (1, 1). *)
Definition demo_dark : frame :=
  let b := mk_bgr 200 200 200 in let d := mk_bgr 10 10 10 in
  [[b; b; b]; [b; d; d]; [b; d; b]].

Lemma detect_pupil_none_iff_witness :
  detect_pupil box_backend [[mk_bgr 200 200 200; mk_bgr 60 60 60]] = None.
Proof.
  apply (proj2 (detect_pupil_none_iff box_backend _ box_backend_laws)).
  repeat constructor; reflexivity.
Defined.

Lemma detect_pupil_first_largest_witness :
  detect_pupil box_backend demo_dark = Some (1, 1) /\
  exists c, In c (find_contours box_backend (threshold_inv 50 255 (to_gray demo_dark))) /\
    1 = py_int (fst (fst (min_enclosing_circle box_backend c))).
Proof.
  assert (Hd : detect_pupil box_backend demo_dark = Some (1, 1)) by (vm_compute; reflexivity).
  split; [exact Hd|].
  destruct (detect_pupil_first_largest box_backend demo_dark 1 1 Hd)
    as (pre & c & post & Heq & _ & _ & Hx & _).
  exists c. rewrite Heq. split; [apply in_or_app; right; left; reflexivity | exact Hx].
Defined.

Lemma detect_pupil_within_dark_witness : bbox_of (dark demo_dark) 1 1.
Proof.
  exact (detect_pupil_within_dark box_backend demo_dark 1 1 box_backend_laws
           ltac:(vm_compute; reflexivity)).
Defined.

(** ** [contourArea] does not depend on how the polygon is listed *)

(** One term of the shoelace sum: the cross product of two vertices. *)
Lemma shoelace_from_cons prev p rest :
  shoelace_from prev (p :: rest) =
  (fst prev * snd p - fst p * snd prev) + shoelace_from p rest.
Proof. reflexivity. Qed.

Lemma last_cons_cons {A} (p q : A) (l : list A) (d : A) :
  List.last (p :: q :: l) d = List.last (q :: l) d.
Proof. reflexivity. Qed.

Lemma last_app_cons {A} (l1 l2 : list A) (q d : A) :
  List.last (l1 ++ q :: l2) d = List.last (q :: l2) d.
Proof.
  induction l1 as [|p l1 IH]; [reflexivity|]. rewrite <- app_comm_cons, <- IH.
  destruct l1; reflexivity.
Qed.

Lemma last_default {A} (q : A) (l : list A) (d d' : A) :
  List.last (q :: l) d = List.last (q :: l) d'.
Proof.
  revert q. induction l as [|p l IH]; intros q; [reflexivity|].
  rewrite !(last_cons_cons q p). apply IH.
Qed.

(** The sum over a concatenation: the second part starts from the last
    vertex of the first. *)
Lemma shoelace_from_app prev l1 l2 :
  shoelace_from prev (l1 ++ l2) = shoelace_from prev l1 + shoelace_from (List.last l1 prev) l2.
Proof.
  revert prev. induction l1 as [|p l1 IH]; intros prev; [reflexivity|].
  rewrite <- app_comm_cons, !shoelace_from_cons, IH.
  destruct l1 as [|q l1]; [simpl; lia|].
  rewrite last_cons_cons, (last_default q l1 prev p). lia.
Qed.

(** Walking a chain backwards negates its sum. *)
Lemma shoelace_from_rev a z l :
  shoelace_from z (rev l ++ [a]) = - shoelace_from a (l ++ [z]).
Proof.
  revert a. induction l as [|p l IH]; intros a; [simpl; lia|].
  cbn [rev]. rewrite shoelace_from_app, IH, last_last, <- app_comm_cons, shoelace_from_cons.
  simpl. lia.
Qed.

(** The closed sum of a non-empty contour, for any default vertex. *)
Lemma contour_area2_cons q l :
  contour_area2 (q :: l) = Z.abs (shoelace_from (List.last (q :: l) q) (q :: l)).
Proof. reflexivity. Qed.

Lemma contour_area2_app_cons (pre rest : contour) (x : point) :
  contour_area2 (pre ++ x :: rest) =
  Z.abs (shoelace_from (List.last (x :: rest) x) (pre ++ x :: rest)).
Proof.
  destruct pre as [|y pre]; [reflexivity|].
  rewrite <- app_comm_cons, contour_area2_cons, app_comm_cons, last_app_cons.
  rewrite (last_default x rest y x). reflexivity.
Qed.

Lemma contour_area2_snoc (l : contour) (z : point) :
  contour_area2 (l ++ [z]) = Z.abs (shoelace_from z (l ++ [z])).
Proof. apply contour_area2_app_cons. Qed.

Lemma contour_area2_app_snoc (a b : contour) (za zb : point) :
  contour_area2 ((a ++ [za]) ++ (b ++ [zb])) =
  Z.abs (shoelace_from zb (a ++ [za]) + shoelace_from za (b ++ [zb])).
Proof.
  rewrite (app_assoc (a ++ [za]) b [zb]), contour_area2_snoc, <- (app_assoc (a ++ [za]) b [zb]).
  rewrite shoelace_from_app, last_last. reflexivity.
Qed.

(** C24 (start point and orientation).  [cv2.contourArea] of a contour
    does not depend on the vertex its listing starts from (a rotation
    [a ++ b] to [b ++ a]) nor on its orientation (the reversed listing):
    the contour [max] selects is a property of the traced polygon, not
    of where or in which direction [findContours] walked it. *)
Theorem contour_area2_listing_invariant (a b c : contour) :
  contour_area2 (b ++ a) = contour_area2 (a ++ b) /\ contour_area2 (rev c) = contour_area2 c.
Proof.
  split.
  - destruct a as [|za a' _] using rev_ind; [rewrite app_nil_r; reflexivity|].
    destruct b as [|zb b' _] using rev_ind; [rewrite app_nil_r; reflexivity|].
    rewrite !contour_area2_app_snoc. f_equal. lia.
  - destruct c as [|q l]; [reflexivity|].
    destruct l as [|z l _] using rev_ind; [reflexivity|].
    change (rev (q :: l ++ [z])) with (rev (l ++ [z]) ++ [q]).
    rewrite rev_app_distr, contour_area2_snoc, app_comm_cons, contour_area2_snoc.
    cbn [rev app]. rewrite !shoelace_from_cons, shoelace_from_rev.
    rewrite <- Z.abs_opp. f_equal. lia.
Qed.

(** C25 (chain compression keeps the area).  Removing from a contour a
    vertex [q] collinear with its neighbours [p] and [r], as
    [CHAIN_APPROX_SIMPLE] does for the inner points of a straight run,
    leaves [cv2.contourArea] unchanged: the two shoelace terms through
    [q] sum to the one from [p] to [r] plus twice the (zero) area of
    the triangle [p q r].  With C24 this covers the runs that wrap
    around the first vertex. *)
Theorem contour_area2_drop_collinear (pre post : contour) (p q r : point) :
  (fst q - fst p) * (snd r - snd p) = (fst r - fst p) * (snd q - snd p) ->
  contour_area2 (pre ++ p :: q :: r :: post) = contour_area2 (pre ++ p :: r :: post).
Proof.
  intros Hcol. rewrite !contour_area2_app_cons, !last_cons_cons.
  rewrite !shoelace_from_app, !shoelace_from_cons. f_equal. nia.
Qed.

(** The 2x2 square listed with the midpoint (1, 0) of its bottom edge. *)
Lemma contour_area2_drop_collinear_witness :
  contour_area2 [(0, 0); (1, 0); (2, 0); (2, 2); (0, 2)] =
  contour_area2 [(0, 0); (2, 0); (2, 2); (0, 2)].
Proof. exact (contour_area2_drop_collinear [] [(2, 2); (0, 2)] (0, 0) (1, 0) (2, 0) eq_refl). Defined.
