(* ===== verification/Motion.v ===== *)
(** * Motion extraction: what [detect_pupil] sees after the blend

    The composition of [process_frame] (main.py:5-14) with the first
    two steps of [detect_pupil] (main.py:17-18): the current frame is
    blended with the inverse of the frame [delay] calls back, converted
    to grey and thresholded.  On grey pixels this composition has a
    closed form: sample [(x, y)] is foreground exactly when
    [v (100 - p) + (255 - w) p <= 5050], where [v] is the current grey
    level, [w] the level [delay] frames back and [p] the opacity, one
    of the opacities at which OpenCV's float32 blend is exact
    ([exact_opacity]).  At the default opacity 50 the inequality reads [w - v >= 154]: only a
    pixel that darkened by at least 154 levels is foreground, and a
    frame equal to the one [delay] calls back blends to a uniform grey
    128 in which no pupil is found.  On colour pixels, at those opacities,
    the same inequality on each channel ([motion_sum]) bounds the
    outcome: all three channels satisfying it make the sample
    foreground, none satisfying it background. *)

From Stdlib Require Import ZArith List Lia.
From stdpp Require Import base list decidable.
From S2P Require Import Prelude Frame Blend DelayBuffer Detector.

Open Scope Z_scope.

(** A grey pixel: the three channels equal. *)
Definition grey (v : Z) : bgr := mk_bgr v v v.

(** A uint8 frame whose pixels are all grey. *)
Definition grey_frame (f : frame) : bool :=
  forallb (forallb (fun q => (blue q =? green q) && (green q =? red q) && u8_ok (blue q))) f.

(** A pixel that darkened by at least 154 grey levels between frame [g]
    and frame [f]. *)
Definition darkened (f g : frame) (a b : Z) : Prop :=
  0 <= a /\ 0 <= b /\ exists v w,
    pixel_at f (Z.to_nat a) (Z.to_nat b) = Some (grey v) /\
    pixel_at g (Z.to_nat a) (Z.to_nat b) = Some (grey w) /\ v + 154 <= w.

(** ** Pixel access through the frame operations *)

Lemma pixel_at_map_map (g : bgr -> bgr) (f : frame) x y :
  pixel_at (map (map g) f) x y = g <$> pixel_at f x y.
Proof.
  unfold pixel_at. rewrite nth_error_map.
  destruct (nth_error f y) as [row|]; simpl; [|reflexivity].
  rewrite nth_error_map. reflexivity.
Qed.

Lemma pixel_at_zip_with (g : bgr -> bgr -> bgr) (f1 f2 : frame) x y a b :
  pixel_at f1 x y = Some a -> pixel_at f2 x y = Some b ->
  pixel_at (zip_with (zip_with g) f1 f2) x y = Some (g a b).
Proof.
  unfold pixel_at. revert f2 y. induction f1 as [|r1 f1 IH]; intros [|r2 f2] [|y];
    simpl; try discriminate; [|apply IH].
  clear IH. revert r2 x. induction r1 as [|a1 r1 IHr]; intros [|b2 r2] [|x];
    simpl; try discriminate; [congruence|apply IHr].
Qed.

Lemma pixel_at_zip_with_inv (g : bgr -> bgr -> bgr) (f1 f2 : frame) x y q :
  pixel_at (zip_with (zip_with g) f1 f2) x y = Some q ->
  exists a b, pixel_at f1 x y = Some a /\ pixel_at f2 x y = Some b /\ q = g a b.
Proof.
  unfold pixel_at. revert f2 y. induction f1 as [|r1 f1 IH]; intros [|r2 f2] [|y];
    simpl; try discriminate; [|apply IH].
  clear IH. revert r2 x. induction r1 as [|a1 r1 IHr]; intros [|b2 r2] [|x];
    simpl; try discriminate; [intros [= <-]; eauto|apply IHr].
Qed.

Lemma pixel_at_grey (f : frame) x y q :
  grey_frame f = true -> pixel_at f x y = Some q -> exists v, q = grey v /\ 0 <= v <= 255.
Proof.
  unfold grey_frame, pixel_at. intros Hf Hq.
  destruct (nth_error f y) as [row|] eqn:Hr; simpl in Hq; [|discriminate].
  apply nth_error_In in Hr, Hq. rewrite forallb_forall in Hf. specialize (Hf _ Hr).
  rewrite forallb_forall in Hf. specialize (Hf _ Hq).
  rewrite !andb_true_iff, !Z.eqb_eq, u8_ok_iff in Hf. destruct Hf as [[Hbg Hgr] Hu].
  exists (blue q). destruct q; simpl in *; subst. auto.
Qed.

(** The thresholded grey image, read at a sample, is the threshold of
    the grey level of that pixel. *)
Lemma gray_at_threshold (t mv : Z) (m : frame) x y :
  0 <= x -> 0 <= y ->
  gray_at (threshold_inv t mv (to_gray m)) x y =
  (fun p => threshold_inv_px t mv (gray_px p)) <$> pixel_at m (Z.to_nat x) (Z.to_nat y).
Proof.
  intros Hx Hy. unfold gray_at, threshold_inv, to_gray.
  rewrite (proj2 (Z.leb_le 0 x) Hx), (proj2 (Z.leb_le 0 y) Hy). simpl.
  rewrite map_map. change (pixel_at m (Z.to_nat x) (Z.to_nat y)) with
    (row ← nth_error m (Z.to_nat y); nth_error row (Z.to_nat x)).
  rewrite nth_error_map. destruct (nth_error m (Z.to_nat y)) as [row|]; simpl; [|reflexivity].
  rewrite map_map, nth_error_map. reflexivity.
Qed.

(** ** Sample arithmetic *)

(** The luminance weights sum to [2^14]: a grey pixel keeps its level. *)
Lemma gray_px_grey v : gray_px (grey v) = v.
Proof.
  rewrite gray_px_div. simpl. symmetry. apply Z.div_unique with 8192; lia.
Qed.

(** [cvRound(n / 100) <= 50] exactly when [n <= 5050]: the tie at
    50.5 goes to the even 50. *)
Lemma cv_round_div_le_50 n : cv_round_div n 100 <= 50 <-> n <= 5050.
Proof.
  pose proof (cv_round_div_bounds n 100 ltac:(lia)) as Hb.
  pose proof (Z.div_mod n 100 ltac:(lia)) as Hdm.
  pose proof (Z.mod_pos_bound n 100 ltac:(lia)) as Hm.
  unfold cv_round_div in *.
  destruct (Z.compare_spec (2 * (n mod 100)) 100);
    [destruct (Z.even (n / 100)) eqn:He|..]; split; intros; try lia.
  assert (n / 100 <> 50) by (intros Hq; rewrite Hq in He; discriminate). lia.
Qed.

(** The blend of a grey sample [v] with the inverse of a grey sample
    [w] at opacity [p], thresholded at 50. *)
Lemma motion_sample v w p :
  0 <= v <= 255 -> 0 <= w <= 255 -> 0 <= p <= 100 ->
  threshold_inv_px 50 255 (gray_px (add_weighted_px p (grey v) (invert_px (grey w)))) =
  if v * (100 - p) + (255 - w) * p <=? 5050 then 255 else 0.
Proof.
  intros Hv Hw Hp. unfold invert_px, add_weighted_px. simpl.
  rewrite u8_rsub_255 by exact Hw. fold (grey (add_weighted_u8 v (255 - w) p)).
  rewrite gray_px_grey. unfold add_weighted_u8.
  rewrite saturate_u8_id by (apply cv_round_div_range; nia).
  unfold threshold_inv_px. pose proof (cv_round_div_le_50 (v * (100 - p) + (255 - w) * p)).
  case_zcmp; case_zcmp; lia.
Qed.

(** At opacity 50 a sample blended with its own inverse is 128:
    [cvRound(127.5)] is the even 128. *)
Lemma add_weighted_u8_self_inverse c :
  0 <= c <= 255 -> add_weighted_u8 c (u8_rsub 255 c) 50 = 128.
Proof.
  intros Hc. unfold add_weighted_u8. rewrite u8_rsub_255 by exact Hc.
  replace (c * (100 - 50) + (255 - c) * 50) with 12750 by lia. reflexivity.
Qed.

Lemma add_weighted_px_self_inverse q :
  px_ok q = true -> add_weighted_px 50 q (invert_px q) = grey 128.
Proof.
  intros Hq. apply px_ok_iff in Hq as (Hb & Hg & Hr). unfold add_weighted_px, invert_px. simpl.
  rewrite !add_weighted_u8_self_inverse by assumption. reflexivity.
Qed.

(** A well-formed frame blended at opacity 50 with its own inverse is
    uniformly grey 128. *)
Lemma add_weighted_self_inverse (f : frame) :
  frame_ok f = true ->
  add_weighted f 50 (invert f) = Some (map (map (fun _ => grey 128)) f).
Proof.
  intros Hok. unfold add_weighted. rewrite invert_shape. case_decide as H; [|congruence].
  f_equal. clear H. unfold invert. induction f as [|r f IH]; simpl in *; [reflexivity|].
  apply andb_prop in Hok as [Hr Hf]. rewrite IH by exact Hf. f_equal.
  clear IH Hf. induction r as [|q r IHr]; simpl in *; [reflexivity|].
  apply andb_prop in Hr as [Hq Hr]. rewrite add_weighted_px_self_inverse, IHr by assumption.
  reflexivity.
Qed.

(** A uniformly grey 128 frame has no foreground after the threshold. *)
Lemma threshold_uniform_128 (f : frame) :
  foreground_free (threshold_inv 50 255 (to_gray (map (map (fun _ => grey 128)) f))).
Proof.
  apply threshold_bright_free. apply Forall_map. apply Forall_forall. intros r _.
  apply Forall_map. apply Forall_forall. intros q _. rewrite gray_px_grey. lia.
Qed.

(** [addWeighted] read at a pixel: the blend of the two pixels. *)
Lemma blend_pixel (f g m : frame) (p : Z) x y a b :
  blend f p g = inr m -> pixel_at f x y = Some a -> pixel_at g x y = Some b ->
  pixel_at m x y = Some (add_weighted_px p a b).
Proof.
  unfold blend, add_weighted. case_decide; [|discriminate]. intros [= <-].
  apply pixel_at_zip_with.
Qed.

(** A stream call past the warm-up is the blend with the inverse of the
    frame [delay] calls back (the outcome of [feed_nth_outcome] on the
    branch the hypotheses select). *)
Lemma feed_blend_outcome (ins : list frame_input) t i j :
  nth_error ins t = Some i -> 0 <= fi_delay i -> (Z.to_nat (fi_delay i) <= t)%nat ->
  nth_error ins (t - Z.to_nat (fi_delay i)) = Some j ->
  nth_error (snd (feed [] ins)) t = Some (blend (fi_frame i) (fi_alpha i) (invert (fi_frame j))).
Proof.
  intros Hi Hd Hle Hj. rewrite (feed_nth_outcome ins t i Hi Hd).
  rewrite (proj2 (Nat.leb_le _ _) Hle), Hj. reflexivity.
Qed.

(** On grey frames at opacity 50, a foreground sample of the blend of
    [f] with the inverse of [g] is a pixel that darkened by at least
    154 levels from [g] to [f]. *)
Lemma foreground_darkened (f g m : frame) a b :
  grey_frame f = true -> grey_frame g = true -> blend f 50 (invert g) = inr m ->
  foreground (threshold_inv 50 255 (to_gray m)) a b -> darkened f g a b.
Proof.
  intros Hf Hg Hm (t & Ht & Hnz). destruct (gray_at_nonneg _ _ _ _ Ht) as [Ha Hb].
  rewrite gray_at_threshold in Ht by assumption.
  destruct (pixel_at m _ _) as [q|] eqn:Hq; simpl in Ht; [|discriminate]. injection Ht as <-.
  unfold blend, add_weighted in Hm. case_decide; [|discriminate]. injection Hm as <-.
  apply pixel_at_zip_with_inv in Hq as (q1 & q2 & H1 & H2 & ->).
  unfold invert in H2. rewrite pixel_at_map_map in H2.
  destruct (pixel_at g _ _) as [q3|] eqn:H3; simpl in H2; [|discriminate]. injection H2 as <-.
  destruct (pixel_at_grey f _ _ q1 Hf H1) as (v & -> & Hv).
  destruct (pixel_at_grey g _ _ q3 Hg H3) as (w & -> & Hw).
  rewrite motion_sample in Hnz by (assumption || lia).
  split; [exact Ha|]. split; [exact Hb|]. exists v, w. split; [exact H1|]. split; [exact H3|].
  destruct (Z.leb_spec (v * (100 - 50) + (255 - w) * 50) 5050); [lia | contradiction].
Qed.

(** The weights sum to [2^14]: a pixel whose channels all lie in
    [[0, t]] has a grey level at most [t] (the dual of [gray_px_lower]). *)
Lemma gray_px_upper (t : Z) p :
  0 <= blue p <= t -> 0 <= green p <= t -> 0 <= red p <= t -> gray_px p <= t.
Proof.
  intros Hb Hg Hr. rewrite gray_px_div.
  apply Z.lt_succ_r, Z.div_lt_upper_bound; lia.
Qed.

(** The weighted sum [addWeighted] rounds, for a channel [c] of the
    current frame and the channel [c'] of the frame [delay] calls back. *)
Definition motion_sum (p c c' : Z) : Z := c * (100 - p) + (255 - c') * p.

(** One channel of the blend with the inverse: at most 50 exactly when
    its weighted sum is at most 5050. *)
Lemma motion_channel c c' p :
  0 <= c <= 255 -> 0 <= c' <= 255 -> 0 <= p <= 100 ->
  0 <= add_weighted_u8 c (u8_rsub 255 c') p <= 255 /\
  (add_weighted_u8 c (u8_rsub 255 c') p <= 50 <-> motion_sum p c c' <= 5050).
Proof.
  intros Hc Hc' Hp. rewrite u8_rsub_255 by exact Hc'. unfold add_weighted_u8, motion_sum.
  rewrite saturate_u8_id by (apply cv_round_div_range; nia).
  split; [apply cv_round_div_range; nia | apply cv_round_div_le_50].
Qed.

(** The colour sample: a pixel whose three channels all darkened enough
    is foreground, one whose three channels all did not is background. *)
Lemma motion_sample_colour p q q' :
  px_ok q = true -> px_ok q' = true -> 0 <= p <= 100 ->
  (motion_sum p (blue q) (blue q') <= 5050 -> motion_sum p (green q) (green q') <= 5050 ->
   motion_sum p (red q) (red q') <= 5050 ->
   threshold_inv_px 50 255 (gray_px (add_weighted_px p q (invert_px q'))) = 255) /\
  (5050 < motion_sum p (blue q) (blue q') -> 5050 < motion_sum p (green q) (green q') ->
   5050 < motion_sum p (red q) (red q') ->
   threshold_inv_px 50 255 (gray_px (add_weighted_px p q (invert_px q'))) = 0).
Proof.
  intros Hq Hq' Hp. apply px_ok_iff in Hq as (Hb & Hg & Hr). apply px_ok_iff in Hq' as (Hb' & Hg' & Hr').
  destruct (motion_channel _ _ _ Hb Hb' Hp) as [Rb Ib].
  destruct (motion_channel _ _ _ Hg Hg' Hp) as [Rg Ig].
  destruct (motion_channel _ _ _ Hr Hr' Hp) as [Rr Ir].
  set (m := add_weighted_px p q (invert_px q')).
  unfold threshold_inv_px. split; intros H1 H2 H3.
  - assert (gray_px m <= 50) by (apply gray_px_upper; cbn; lia). case_zcmp; lia.
  - assert (50 < gray_px m) by (apply gray_px_lower; cbn; lia). case_zcmp; lia.
Qed.

(** ** Properties *)

(** C22 (motion extraction law).  Past the warm-up, where pixel [(x, y)]
    is grey in the current frame (level [v]) and in the frame [delay]
    calls back (level [w]), the thresholded grey image [detect_pupil]
    hands to [findContours] is 255 at [(x, y)] exactly when
    [v (100 - p) + (255 - w) p <= 5050], [p] being the opacity, at the
    opacities where OpenCV's float32 blend is exact ([exact_opacity]:
    0, 25, 50, 75, 100): at the default opacity 50, exactly when the
    pixel darkened by at least 154 levels. *)
Theorem feed_motion_threshold (ins : list frame_input) (t : nat) (i j : frame_input)
    (x y v w : Z) (m : frame) :
  nth_error ins t = Some i -> 0 <= fi_delay i -> (Z.to_nat (fi_delay i) <= t)%nat ->
  nth_error ins (t - Z.to_nat (fi_delay i)) = Some j ->
  exact_opacity (fi_alpha i) = true -> 0 <= v <= 255 -> 0 <= w <= 255 -> 0 <= x -> 0 <= y ->
  pixel_at (fi_frame i) (Z.to_nat x) (Z.to_nat y) = Some (grey v) ->
  pixel_at (fi_frame j) (Z.to_nat x) (Z.to_nat y) = Some (grey w) ->
  nth_error (snd (feed [] ins)) t = Some (inr m) ->
  gray_at (threshold_inv 50 255 (to_gray m)) x y =
  Some (if v * (100 - fi_alpha i) + (255 - w) * fi_alpha i <=? 5050 then 255 else 0).
Proof.
  intros Hi Hd Hle Hj Hp Hv Hw Hx Hy Hpi Hpj Hm. apply exact_opacity_range in Hp.
  rewrite (feed_blend_outcome ins t i j Hi Hd Hle Hj) in Hm. injection Hm as Hm.
  rewrite gray_at_threshold by assumption.
  erewrite blend_pixel; [| exact Hm | exact Hpi | unfold invert; rewrite pixel_at_map_map, Hpj; reflexivity].
  simpl. rewrite motion_sample by assumption. reflexivity.
Qed.

(** C36 (motion extraction on colour frames).  Past the warm-up, at
    an opacity [p] where OpenCV's float32 blend is exact
    ([exact_opacity]: 0, 25, 50, 75, 100), where pixel [(x, y)] is the colour pixel [q] in the
    current frame and [q'] in the frame [delay] calls back, the
    thresholded grey image [detect_pupil] hands to [findContours] is 255
    at [(x, y)] when each of the three channels darkened enough
    ([c (100 - p) + (255 - c') p <= 5050]), and 0 when none did: the
    grey conversion's weights sum to [2^14], so the grey level of the
    blend lies between its smallest and its largest channel. *)
Theorem feed_motion_colour (ins : list frame_input) (t : nat) (i j : frame_input)
    (x y : Z) (q q' : bgr) (m : frame) :
  nth_error ins t = Some i -> 0 <= fi_delay i -> (Z.to_nat (fi_delay i) <= t)%nat ->
  nth_error ins (t - Z.to_nat (fi_delay i)) = Some j ->
  exact_opacity (fi_alpha i) = true -> px_ok q = true -> px_ok q' = true -> 0 <= x -> 0 <= y ->
  pixel_at (fi_frame i) (Z.to_nat x) (Z.to_nat y) = Some q ->
  pixel_at (fi_frame j) (Z.to_nat x) (Z.to_nat y) = Some q' ->
  nth_error (snd (feed [] ins)) t = Some (inr m) ->
  (motion_sum (fi_alpha i) (blue q) (blue q') <= 5050 ->
   motion_sum (fi_alpha i) (green q) (green q') <= 5050 ->
   motion_sum (fi_alpha i) (red q) (red q') <= 5050 ->
   gray_at (threshold_inv 50 255 (to_gray m)) x y = Some 255) /\
  (5050 < motion_sum (fi_alpha i) (blue q) (blue q') ->
   5050 < motion_sum (fi_alpha i) (green q) (green q') ->
   5050 < motion_sum (fi_alpha i) (red q) (red q') ->
   gray_at (threshold_inv 50 255 (to_gray m)) x y = Some 0).
Proof.
  intros Hi Hd Hle Hj Hp Hq Hq' Hx Hy Hpi Hpj Hm. apply exact_opacity_range in Hp.
  rewrite (feed_blend_outcome ins t i j Hi Hd Hle Hj) in Hm. injection Hm as Hm.
  rewrite gray_at_threshold by assumption.
  erewrite blend_pixel; [| exact Hm | exact Hpi | unfold invert; rewrite pixel_at_map_map, Hpj; reflexivity].
  destruct (motion_sample_colour (fi_alpha i) q q' Hq Hq' Hp) as [Hfg Hbg].
  split; intros H1 H2 H3; simpl; f_equal; auto.
Qed.

(** A dark colour pixel (blue 20, green 40, red 45) over a light grey
    background (200, 200, 200) one call before, at opacity 50: each
    channel sum is at most [45 * 50 + 55 * 50 = 5000]. *)
Definition colour_inputs : list frame_input :=
  constant_inputs [[[mk_bgr 200 200 200]]; [[mk_bgr 20 40 45]]] 1 50.

Definition colour_motion : frame :=
  Eval vm_compute in
  match nth_error (snd (feed [] colour_inputs)) 1 with
  | Some (inr m) => m
  | _ => []
  end.

Lemma feed_motion_colour_witness :
  gray_at (threshold_inv 50 255 (to_gray colour_motion)) 0 0 = Some 255.
Proof.
  apply (feed_motion_colour colour_inputs 1 (Build_frame_input [[mk_bgr 20 40 45]] 1 50)
           (Build_frame_input [[mk_bgr 200 200 200]] 1 50) 0 0 (mk_bgr 20 40 45)
           (mk_bgr 200 200 200) colour_motion);
    first [reflexivity | vm_compute; reflexivity | simpl; lia | idtac].
  all: unfold motion_sum; simpl; lia.
Defined.

(** C23 (a static scene shows no pupil).  Past the warm-up at the
    default opacity 50, when the current frame equals the frame [delay]
    calls back, the motion frame is uniformly grey 128 (each sample is
    [cvRound(127.5) = 128]) and [detect_pupil] finds nothing, whatever
    the scene holds: the program tracks only what moved. *)
Theorem feed_static_scene_no_pupil (B : ContourBackend) (HB : backend_laws B)
    (ins : list frame_input) (t : nat) (i j : frame_input) :
  nth_error ins t = Some i -> 0 <= fi_delay i -> (Z.to_nat (fi_delay i) <= t)%nat ->
  nth_error ins (t - Z.to_nat (fi_delay i)) = Some j ->
  fi_alpha i = 50 -> fi_frame j = fi_frame i -> frame_ok (fi_frame i) = true ->
  nth_error (snd (feed [] ins)) t = Some (inr (map (map (fun _ => grey 128)) (fi_frame i))) /\
  detect_pupil B (map (map (fun _ => grey 128)) (fi_frame i)) = None.
Proof.
  intros Hi Hd Hle Hj Ha Hf Hok. split.
  - rewrite (feed_blend_outcome ins t i j Hi Hd Hle Hj), Ha, Hf.
    unfold blend. rewrite add_weighted_self_inverse by exact Hok. reflexivity.
  - unfold detect_pupil. rewrite (fc_background B HB) by apply threshold_uniform_128.
    reflexivity.
Qed.

(** A grey 200 background in which the pixel darkens to 10 one call
    later (delay 1, opacity 50): [10 * 50 + 55 * 50 = 3250 <= 5050]. *)
Definition motion_inputs : list frame_input :=
  constant_inputs [[[grey 200]]; [[grey 10]]] 1 50.

Lemma feed_motion_threshold_witness :
  gray_at (threshold_inv 50 255 (to_gray [[grey 32]])) 0 0 = Some 255.
Proof.
  rewrite (feed_motion_threshold motion_inputs 1 (Build_frame_input [[grey 10]] 1 50)
             (Build_frame_input [[grey 200]] 1 50) 0 0 10 200 [[grey 32]]);
    simpl; try reflexivity; lia.
Defined.

Lemma feed_static_scene_no_pupil_witness :
  nth_error (snd (feed [] (constant_inputs [[[grey 10]]; [[grey 10]]] 1 50))) 1 =
    Some (inr [[grey 128]]) /\
  detect_pupil box_backend [[grey 128]] = None.
Proof.
  apply (feed_static_scene_no_pupil box_backend box_backend_laws
           (constant_inputs [[[grey 10]]; [[grey 10]]] 1 50) 1
           (Build_frame_input [[grey 10]] 1 50) (Build_frame_input [[grey 10]] 1 50));
    simpl; try reflexivity; lia.
Defined.

(** C31 (end to end: the detection follows what moved).  Past the
    warm-up at the default opacity 50, on a video of grey frames, for
    every contour backend with the laws of [findContours] and
    [minEnclosingCircle], a detection in the motion frame lies in the
    bounding box of the pixels that darkened by at least 154 grey levels
    since the frame [delay] calls back.  In the spec's end-to-end
    scenario, a dark disc moving over a bright background with the two
    at least 154 levels apart and the disc clear of its position
    [delay] frames before, these pixels are exactly the current disc. *)
Theorem feed_detection_within_motion (B : ContourBackend) (HB : backend_laws B)
    (ins : list frame_input) (t : nat) (i j : frame_input) (m : frame) (x y : Z) :
  nth_error ins t = Some i -> 0 <= fi_delay i -> (Z.to_nat (fi_delay i) <= t)%nat ->
  nth_error ins (t - Z.to_nat (fi_delay i)) = Some j ->
  fi_alpha i = 50 -> grey_frame (fi_frame i) = true -> grey_frame (fi_frame j) = true ->
  nth_error (snd (feed [] ins)) t = Some (inr m) ->
  detect_pupil B m = Some (x, y) ->
  bbox_of (darkened (fi_frame i) (fi_frame j)) x y.
Proof.
  intros Hi Hd Hle Hj Ha Hgi Hgj Hm Hdet.
  rewrite (feed_blend_outcome ins t i j Hi Hd Hle Hj), Ha in Hm. injection Hm as Hm.
  eapply bbox_of_impl; [|exact (detect_pupil_foreground_box B m x y HB Hdet)].
  intros a b. apply foreground_darkened; assumption.
Qed.

(** The spec's scenario in one row: ten frames of width 10, background
    220, a dark (10) pixel moving one column per frame, delay 3,
    opacity 50. *)
Definition scenario_frame (k : nat) : frame :=
  [map (fun c => grey (if Nat.eqb c k then 10 else 220)) (seq 0 10)].

Definition scenario_inputs : list frame_input :=
  constant_inputs (map scenario_frame (seq 0 10)) 3 50.

(** The motion frame of call 5. *)
Definition scenario_motion_5 : frame :=
  Eval vm_compute in
  match nth_error (snd (feed [] scenario_inputs)) 5 with
  | Some (inr m) => m
  | _ => []
  end.

Lemma feed_detection_within_motion_witness :
  bbox_of (darkened (scenario_frame 5) (scenario_frame 2)) 5 0.
Proof.
  apply (feed_detection_within_motion box_backend box_backend_laws scenario_inputs 5
           (Build_frame_input (scenario_frame 5) 3 50) (Build_frame_input (scenario_frame 2) 3 50)
           scenario_motion_5);
    first [reflexivity | simpl; lia | vm_compute; reflexivity].
Defined.
