(* ===== verification/Trail.v ===== *)
(** * The TrailAccumulator (main.py:73-83 and 91-97)

    The loop keeps [trail_mode] and [trail_points].  On a detection it
    appends the point when trail mode is on and draws every earlier point
    ([trail_points[:-1]]) as a red radius-3 disc and the current point as
    a green radius-5 disc; when trail mode is off it only draws the
    current point.  The key read by [cv2.waitKey] is masked with
    [& 0xFF]: 27 (ESC) quits, [ord("t")] = 116 toggles trail mode, and
    turning it off clears the points.  Drawing is kept as the list of
    [cv2.circle] calls, in order. *)

From Stdlib Require Import ZArith List Lia.
From stdpp Require Import base list decidable.
From S2P Require Import Prelude Frame.

Open Scope Z_scope.

(** ** Data *)

Record trail_state := { trail_mode : bool; trail_points : list (Z * Z) }.

(** [cv2.circle(img, center, radius, color, -1)]: a filled disc. *)
Record circle_cmd := { cc_center : Z * Z; cc_radius : Z; cc_color : bgr }.

Definition red_bgr : bgr := mk_bgr 0 0 255.
Definition green_bgr : bgr := mk_bgr 0 255 0.

Definition marker (r : Z) (color : bgr) (pt : Z * Z) : circle_cmd :=
  {| cc_center := pt; cc_radius := r; cc_color := color |}.

(** Python's [l[:-1]]: all but the last element ([[]] for [[]]). *)
Definition py_drop_last {A} (l : list A) : list A := take (length l - 1) l.

(** ** Operations *)

(** Lines 73-83: the state after a frame's detection and the discs drawn
    on the frame. *)
Definition on_detection (st : trail_state) (pupil : option (Z * Z))
    : trail_state * list circle_cmd :=
  match pupil with
  | None => (st, [])
  | Some (x, y) =>
      if trail_mode st then
        let pts := trail_points st ++ [(x, y)] in
        ({| trail_mode := true; trail_points := pts |},
         map (marker 3 red_bgr) (py_drop_last pts) ++ [marker 5 green_bgr (x, y)])
      else (st, [marker 5 green_bgr (x, y)])
  end.

(** Lines 95-97: toggle, and clear the points when turning off. *)
Definition toggle (st : trail_state) : trail_state :=
  let m := negb (trail_mode st) in
  {| trail_mode := m; trail_points := if m then trail_points st else [] |}.

(** Lines 91-95: [key = cv2.waitKey(..) & 0xFF] and its dispatch;
    [waitKey] returns -1 when no key was pressed. *)
Inductive key_action := KQuit | KToggle | KNone.

#[export] Instance key_action_eq_dec : EqDecision key_action.
Proof. solve_decision. Defined.

Definition ord_t : Z := 116.
Definition key_esc : Z := 27.

Definition key_action_of (k : Z) : key_action :=
  let key := Z.land k 255 in
  if key =? key_esc then KQuit else if key =? ord_t then KToggle else KNone.

(** The trail's events in loop order: a frame's detection result, or a
    press of [t]. *)
Inductive trail_event := Detect (p : option (Z * Z)) | Toggle.

Definition trail_step (st : trail_state) (e : trail_event) : trail_state :=
  match e with
  | Detect p => fst (on_detection st p)
  | Toggle => toggle st
  end.

Definition trail_run (st : trail_state) (evs : list trail_event) : trail_state :=
  fold_left trail_step evs st.

(** The points detected by a list of events. *)
Fixpoint found_points (evs : list trail_event) : list (Z * Z) :=
  match evs with
  | [] => []
  | Detect (Some pt) :: rest => pt :: found_points rest
  | _ :: rest => found_points rest
  end.

(** The invariant: points are stored only while trail mode is on. *)
Definition trail_ok (st : trail_state) : Prop :=
  trail_mode st = false -> trail_points st = [].

(** ** Lemmas *)

Lemma py_drop_last_snoc {A} (l : list A) (x : A) : py_drop_last (l ++ [x]) = l.
Proof.
  unfold py_drop_last. rewrite length_app. simpl.
  replace (length l + 1 - 1)%nat with (length l) by lia.
  rewrite take_app_length. reflexivity.
Qed.

Lemma on_detection_ok st p : trail_ok st -> trail_ok (fst (on_detection st p)).
Proof.
  unfold trail_ok. destruct p as [[x y]|]; simpl; [|auto].
  destruct (trail_mode st) eqn:E; simpl; [discriminate|auto].
Qed.

Lemma toggle_ok st : trail_ok (toggle st).
Proof. unfold trail_ok, toggle. simpl. destruct (trail_mode st); simpl; congruence. Qed.

Lemma trail_step_ok st e : trail_ok st -> trail_ok (trail_step st e).
Proof. destruct e; simpl; [apply on_detection_ok | intros _; apply toggle_ok]. Qed.


Lemma trail_run_app st evs1 evs2 :
  trail_run st (evs1 ++ evs2) = trail_run (trail_run st evs1) evs2.
Proof. unfold trail_run. apply fold_left_app. Qed.

Lemma trail_run_ok st evs : trail_ok st -> trail_ok (trail_run st evs).
Proof.
  unfold trail_run. revert st. induction evs as [|e evs IH]; simpl; auto using trail_step_ok.
Qed.

(** Without a toggle, trail mode does not change, and when it is on the
    points grow by exactly the detections. *)
Lemma trail_run_no_toggle st evs :
  Forall (fun e => e <> Toggle) evs ->
  trail_mode (trail_run st evs) = trail_mode st /\
  (trail_mode st = true ->
   trail_points (trail_run st evs) = trail_points st ++ found_points evs).
Proof.
  unfold trail_run. revert st. induction evs as [|e evs IH]; intros st Hevs; simpl.
  - rewrite app_nil_r. auto.
  - inversion Hevs as [|? ? He Hrest]; subst.
    destruct e as [[[x y]|]|]; [|simpl; apply IH; exact Hrest|congruence].
    simpl. destruct (trail_mode st) eqn:Em; simpl.
    + destruct (IH {| trail_mode := true; trail_points := trail_points st ++ [(x, y)] |} Hrest)
        as [Hm Hp]. split; [exact Hm|]. intros _. rewrite Hp by reflexivity.
      simpl. rewrite <- app_assoc. reflexivity.
    + destruct (IH st Hrest) as [Hm _]. split; [rewrite Hm; exact Em | discriminate].
Qed.

Lemma trail_run_off st evs :
  trail_ok st -> trail_mode st = false -> Forall (fun e => e <> Toggle) evs ->
  trail_mode (trail_run st evs) = false /\ trail_points (trail_run st evs) = [].
Proof.
  intros Hok Hm Hevs. destruct (trail_run_no_toggle st evs Hevs) as [Hm' _].
  rewrite Hm'. split; [exact Hm|]. apply (trail_run_ok st evs Hok). rewrite Hm'. exact Hm.
Qed.

(** ** Properties *)

(** C11 (the trail is the points since trail mode was last turned on).
    From any state satisfying the invariant, after a run whose last
    toggle is followed by the events [post], the trail holds exactly the
    points detected in [post] when trail mode is on, and nothing when it
    is off.  In particular On, three detections, Off, On leaves it empty. *)
Theorem trail_since_last_toggle (st : trail_state) (pre post : list trail_event) :
  trail_ok st -> Forall (fun e => e <> Toggle) post ->
  trail_points (trail_run st (pre ++ Toggle :: post)) =
  if trail_mode (trail_run st (pre ++ Toggle :: post)) then found_points post else [].
Proof.
  intros Hok Hpost. rewrite trail_run_app. simpl.
  pose proof (trail_run_ok st pre Hok) as Hok1.
  remember (trail_run st pre) as s1 eqn:Hs1. clear Hs1.
  unfold toggle. destruct (trail_mode s1) eqn:Em; simpl.
  - assert (Hoff : trail_ok {| trail_mode := false; trail_points := [] |}) by (intros _; reflexivity).
    destruct (trail_run_off _ post Hoff eq_refl Hpost) as [Hm Hp].
    rewrite Hm, Hp. reflexivity.
  - rewrite (Hok1 Em).
    destruct (trail_run_no_toggle {| trail_mode := true; trail_points := [] |} post Hpost)
      as [Hm Hp]. simpl in *. rewrite Hm, Hp by reflexivity. reflexivity.
Qed.

(** C12 (drawing).  A frame without detection gets no disc.  With a
    detection, trail mode on draws a red radius-3 disc at every stored
    point, in order, then the green radius-5 disc at the new point;
    trail mode off draws only the green disc. *)
Theorem on_detection_draws (st : trail_state) (p : option (Z * Z)) :
  snd (on_detection st p) =
  match p with
  | None => []
  | Some pt =>
      (if trail_mode st then map (marker 3 red_bgr) (trail_points st) else [])
      ++ [marker 5 green_bgr pt]
  end.
Proof.
  destruct p as [[x y]|]; simpl; [|reflexivity].
  destruct (trail_mode st); simpl; [|reflexivity].
  rewrite py_drop_last_snoc. reflexivity.
Qed.

(** C13 (key mask).  [cv2.waitKey(..) & 0xFF] keeps the key code modulo
    256: any code whose low byte is 27 quits, any whose low byte is 116
    toggles, and -1 (no key) does nothing. *)
Theorem key_action_of_spec (k : Z) :
  key_action_of k =
  (if k mod 256 =? 27 then KQuit else if k mod 256 =? 116 then KToggle else KNone) /\
  key_action_of (-1) = KNone.
Proof.
  split; [|reflexivity]. unfold key_action_of, key_esc, ord_t.
  change 255 with (Z.ones 8). rewrite Z.land_ones by lia. reflexivity.
Qed.

(** The spec's run: On, three detections, Off, On. *)
Lemma trail_since_last_toggle_witness :
  trail_points
    (trail_run {| trail_mode := false; trail_points := [] |}
       ([Toggle; Detect (Some (1, 2)); Detect (Some (3, 4)); Detect (Some (5, 6)); Toggle]
          ++ Toggle :: [])) = [].
Proof.
  rewrite (trail_since_last_toggle {| trail_mode := false; trail_points := [] |}).
  - reflexivity.
  - unfold trail_ok. reflexivity.
  - constructor.
Defined.

(** ** Automation exported to the later components *)

#[export] Hint Resolve on_detection_ok toggle_ok trail_step_ok : eye.
