(* ===== verification/Driver.v ===== *)
(** * The PipelineDriver: [main] (main.py:30-100)

    The loop state is what persists across iterations of [while True]:
    the capture's read position, the delay [buffer], the trail state, and
    the number of frames processed so far (which indexes the user's
    trackbar positions and key presses).  The environment gives the two
    possible captures (the video file, the webcam), the user's inputs
    per processed frame and the screen size.  [loop_iter] is one
    iteration of the loop body (lines 55-97); it either continues with a
    new state or leaves the loop, and in both cases returns the effects
    it performed ([moveTo], [imshow], [waitKey]) in order.  [run] iterates
    it with fuel; [main] opens the capture (lines 37-46), creates the
    window and trackbars (lines 49-52, [setup_effects]), runs the loop
    and, when it was left by [break], releases the capture and closes
    the windows (lines 99-100, [teardown]).  Python's [%] by a zero
    screen dimension raises [ZeroDivisionError] (line 87), which ends
    the loop like the exceptions of [process_frame]. *)

From Stdlib Require Import ZArith QArith Qround List Lia String Ascii.
From stdpp Require Import base list decidable.
From S2P Require Import Prelude Frame Blend DelayBuffer Detector Trail.

Open Scope Z_scope.

(** ** Environment and configuration *)

(** A [cv2.VideoCapture]: the frame [read] returns at each position
    ([None]: [ret] is false) and [cap.get(CAP_PROP_FPS)]. *)
Record source := { read_at : nat -> option frame; reported_fps : Q }.

(** A video file: its frames in order, then end of stream. *)
Definition file_capture (frames : list frame) (fps : Q) : source :=
  {| read_at := fun i => nth_error frames i; reported_fps := fps |}.

(** What the user does while frame [k] is processed: the three trackbar
    positions read at lines 64-66 and the key code [cv2.waitKey] returns
    at line 91 (-1 when no key is pressed). *)
Record ui_input := { ui_delay : Z; ui_opacity : Z; ui_speed : Z; ui_key : Z }.

Record env := {
  file_source : source;           (* cv2.VideoCapture(input_path) *)
  camera_source : source;         (* cv2.VideoCapture(0) *)
  ui : nat -> ui_input;
  screen_size : Z * Z             (* pyautogui.size() *)
}.

(** The settings of lines 32-34. *)
Record config := { test_mode : bool; input_path : option string; loop_video : bool }.

(** ** Setup (lines 37-46) *)

(** The characters [str.strip()] removes, Python's [str.isspace], on
    the code points 0-255 a [string] of [ascii] holds (a character [c]
    is the code point [nat_of_ascii c]): \t, \n, \v, \f, \r, the
    separators \x1c-\x1f, space, NEL (\x85) and NO-BREAK SPACE (\xa0). *)
Definition is_py_space (c : ascii) : bool :=
  match nat_of_ascii c with
  | 9 | 10 | 11 | 12 | 13 | 28 | 29 | 30 | 31 | 32 | 133 | 160 => true
  | _ => false
  end%nat.

Fixpoint all_space (s : string) : bool :=
  match s with
  | EmptyString => true
  | String c rest => is_py_space c && all_space rest
  end.

(** [input_path and input_path.strip()]: a non-empty path once
    whitespace is stripped. *)
Definition path_given (p : option string) : bool :=
  match p with
  | Some s => negb (all_space s)
  | None => false
  end.

(** The capture opened, whether looping applies, and
    [fps = cap.get(cv2.CAP_PROP_FPS) or 30] (a zero fps is falsy). *)
Record session := { s_cap : source; s_loop : bool; s_fps : Q }.

Definition open_session (cfg : config) (e : env) : session :=
  let '(cap, looping) :=
    if path_given (input_path cfg) then (file_source e, loop_video cfg)
    else (camera_source e, false) in
  {| s_cap := cap; s_loop := looping;
     s_fps := if Qeq_bool (reported_fps cap) 0 then 30 else reported_fps cap |}.

(** ** The loop *)

Record loop_state := {
  ls_pos : nat;                  (* the capture's next frame *)
  ls_buffer : list frame;
  ls_trail : trail_state;
  ls_count : nat                 (* frames processed so far *)
}.

Definition init_state : loop_state :=
  {| ls_pos := 0; ls_buffer := [];
     ls_trail := {| trail_mode := false; trail_points := [] |}; ls_count := 0 |}.

Inductive effect :=
| NamedWindow (name : string)              (* cv2.namedWindow *)
| CreateTrackbar (name : string) (init max : Z)  (* cv2.createTrackbar *)
| MoveTo (x y : Z)                         (* pyautogui.moveTo *)
| Show (f : frame) (discs : list circle_cmd)  (* cv2.imshow after the cv2.circle calls *)
| WaitKey (ms : Z)                         (* cv2.waitKey *)
| Release                                  (* cap.release *)
| DestroyAllWindows.                       (* cv2.destroyAllWindows *)

Definition window : string := "Motion Extract + Pupil".

(** Lines 49-52: the window and its three trackbars, each with its
    initial position and maximum (the minimum is 0). *)
Definition setup_effects : list effect :=
  [NamedWindow window; CreateTrackbar "Delay" 3 30; CreateTrackbar "Opacity" 50 100;
   CreateTrackbar "Speed" 10 50].

(** A position [cv2.getTrackbarPos] can return for a trackbar created
    with maximum [max]. *)
Definition trackbar_pos_ok (max v : Z) : bool := (0 <=? v) && (v <=? max).

(** The positions read at lines 64-66 are positions of the trackbars of
    lines 50-52. *)
Definition ui_ok (u : ui_input) : bool :=
  trackbar_pos_ok 30 (ui_delay u) && trackbar_pos_ok 100 (ui_opacity u) &&
  trackbar_pos_ok 50 (ui_speed u).

Inductive stop_reason :=
| EndOfStream                 (* break at line 61 *)
| QuitKey                     (* break at line 93 *)
| Raised (e : py_error).      (* an exception escaping process_frame *)

Inductive iter_result :=
| Continue (st : loop_state) (effs : list effect)
| Halt (r : stop_reason) (effs : list effect).

(** [int((1000 / fps) / playback_speed)] with
    [playback_speed = max(1, speed_slider) / 10.0]. *)
Definition wait_ms (fps : Q) (speed_slider : Z) : Z :=
  py_int (1000 / fps / (inject_Z (Z.max 1 speed_slider) / 10)).

(** Lines 85-87: the pointer target, wrapped into the screen; Python's
    [%] raises [ZeroDivisionError] when a screen dimension is 0. *)
Definition pointer_moves (cfg : config) (e : env) (pupil : option (Z * Z))
    : py_error + list effect :=
  match pupil with
  | Some (x, y) =>
      if test_mode cfg then inr []
      else let '(w, h) := screen_size e in
           if (w =? 0) || (h =? 0) then inl ZeroDivisionError
           else inr [MoveTo (x mod w) (y mod h)]
  | None => inr []
  end.

(** The pointer is moved without error: test mode, or a screen of
    non-zero dimensions. *)
Definition screen_ok (cfg : config) (e : env) : Prop :=
  test_mode cfg = true \/ (fst (screen_size e) <> 0 /\ snd (screen_size e) <> 0).

Section Loop.

Variable B : ContourBackend.
Variable cfg : config.
Variable e : env.
Variable sess : session.

(** One iteration of [while True] (lines 55-97). *)
Definition loop_iter (st : loop_state) : iter_result :=
  match read_at (s_cap sess) (ls_pos st) with
  | None =>
      if s_loop sess then Continue {| ls_pos := 0; ls_buffer := ls_buffer st;
                                      ls_trail := ls_trail st; ls_count := ls_count st |} []
      else Halt EndOfStream []
  | Some frame =>
      let u := ui e (ls_count st) in
      let delay := Z.max 1 (ui_delay u) in
      let alpha := ui_opacity u in
      let '(buffer, res) := process_frame frame (ls_buffer st) delay alpha in
      match res with
      | inl err => Halt (Raised err) []
      | inr motion_frame =>
          let pupil := detect_pupil B motion_frame in
          let '(trail, discs) := on_detection (ls_trail st) pupil in
          match pointer_moves cfg e pupil with
          | inl err => Halt (Raised err) []
          | inr moves =>
          let effs := moves ++
                      [Show motion_frame discs; WaitKey (wait_ms (s_fps sess) (ui_speed u))] in
          let next trail := {| ls_pos := S (ls_pos st); ls_buffer := buffer;
                               ls_trail := trail; ls_count := S (ls_count st) |} in
          match key_action_of (ui_key u) with
          | KQuit => Halt QuitKey effs
          | KToggle => Continue (next (toggle trail)) effs
          | KNone => Continue (next trail) effs
          end
          end
      end
  end.

Inductive status := Running (st : loop_state) | Stopped (r : stop_reason).

(** At most [fuel] iterations; the effects of all of them in order. *)
Fixpoint run (fuel : nat) (st : loop_state) : status * list effect :=
  match fuel with
  | O => (Running st, [])
  | S n =>
      match loop_iter st with
      | Continue st' effs => let '(s, tr) := run n st' in (s, effs ++ tr)
      | Halt r effs => (Stopped r, effs)
      end
  end.

(** The states the loop reaches, by rule induction. *)
Inductive reachable : loop_state -> Prop :=
| reach_init : reachable init_state
| reach_step st st' effs : reachable st -> loop_iter st = Continue st' effs -> reachable st'.

End Loop.

(** Lines 99-100, reached when the loop is left by [break] (end of
    stream or ESC); an exception escapes [main] before them. *)
Definition teardown (s : status) : list effect :=
  match s with
  | Stopped EndOfStream | Stopped QuitKey => [Release; DestroyAllWindows]
  | _ => []
  end.

(** [main]: open the capture, create the window and trackbars, loop,
    then release the capture and close the windows. *)
Definition main (B : ContourBackend) (fuel : nat) (cfg : config) (e : env) : status * list effect :=
  let '(s, tr) := run B cfg e (open_session cfg e) fuel init_state in
  (s, setup_effects ++ tr ++ teardown s).

(** ** Lemmas *)

Section LoopFacts.

Variable B : ContourBackend.
Variable cfg : config.
Variable e : env.
Variable sess : session.

Lemma loop_iter_no_frame st :
  read_at (s_cap sess) (ls_pos st) = None ->
  loop_iter B cfg e sess st =
  if s_loop sess then Continue {| ls_pos := 0; ls_buffer := ls_buffer st;
                                  ls_trail := ls_trail st; ls_count := ls_count st |} []
  else Halt EndOfStream [].
Proof. intros H. unfold loop_iter. rewrite H. reflexivity. Qed.

Lemma pointer_moves_ok p : screen_ok cfg e -> exists moves, pointer_moves cfg e p = inr moves.
Proof.
  unfold pointer_moves, screen_ok. intros Hs. destruct p as [[x y]|]; [|eauto].
  destruct (test_mode cfg); [eauto|]. destruct (screen_size e) as [w h]. simpl in Hs.
  destruct Hs as [[=]|[Hw Hh]].
  destruct (Z.eqb_spec w 0), (Z.eqb_spec h 0); simpl; try contradiction; eauto.
Qed.

(** An iteration that reads a frame and does not raise either quits on
    ESC or continues with one more frame processed and its inverse
    appended to the buffer; its trail moves by that frame's detection
    and possibly a toggle. *)
Lemma loop_iter_frame st f g :
  screen_ok cfg e ->
  read_at (s_cap sess) (ls_pos st) = Some f ->
  snd (process_frame f (ls_buffer st) (Z.max 1 (ui_delay (ui e (ls_count st))))
         (ui_opacity (ui e (ls_count st)))) = inr g ->
  (key_action_of (ui_key (ui e (ls_count st))) = KQuit /\
   exists effs, loop_iter B cfg e sess st = Halt QuitKey effs) \/
  (key_action_of (ui_key (ui e (ls_count st))) <> KQuit /\
   exists st' effs, loop_iter B cfg e sess st = Continue st' effs /\
     ls_pos st' = S (ls_pos st) /\ ls_count st' = S (ls_count st) /\
     ls_buffer st' = ls_buffer st ++ [invert f] /\
     exists evs, ls_trail st' = trail_run (ls_trail st) evs).
Proof.
  intros Hscr Hf Hg. unfold loop_iter. rewrite Hf.
  pose proof (process_frame_buffer f (ls_buffer st) (Z.max 1 (ui_delay (ui e (ls_count st))))
                (ui_opacity (ui e (ls_count st)))) as Hb.
  destruct (process_frame _ _ _ _) as [buf res]. simpl in Hb, Hg. subst buf res.
  destruct (on_detection (ls_trail st) (detect_pupil B g)) as [tr discs] eqn:Hd.
  destruct (pointer_moves_ok (detect_pupil B g) Hscr) as [moves ->].
  destruct (key_action_of _) eqn:Hk; [left; eauto | right | right];
    (split; [discriminate|]); eexists _, _; (split; [reflexivity|]); simpl;
    (split; [reflexivity|]); (split; [reflexivity|]); (split; [reflexivity|]).
  - exists [Detect (detect_pupil B g); Toggle]. simpl. rewrite Hd. reflexivity.
  - exists [Detect (detect_pupil B g)]. simpl. rewrite Hd. reflexivity.
Qed.

(** The effects of one iteration: nothing, or the pointer moves, the
    frame shown with its discs, and the wait, in that order. *)
Lemma loop_iter_effects st :
  match loop_iter B cfg e sess st with
  | Continue _ effs | Halt _ effs =>
      effs = [] \/ exists p moves m discs ms,
        pointer_moves cfg e p = inr moves /\ effs = moves ++ [Show m discs; WaitKey ms]
  end.
Proof.
  unfold loop_iter. destruct (read_at _ _) as [f|]; [|destruct (s_loop sess); auto].
  destruct (process_frame _ _ _ _) as [buf [err|m]]; [auto|].
  destruct (on_detection _ _) as [tr discs].
  destruct (pointer_moves _ _ _) as [err|moves] eqn:Hp; [auto|].
  destruct (key_action_of _); right; eauto 8.
Qed.

Lemma pointer_moves_in p moves a b :
  pointer_moves cfg e p = inr moves -> In (MoveTo a b) moves ->
  test_mode cfg = false /\ exists x y, p = Some (x, y) /\
    a = x mod fst (screen_size e) /\ b = y mod snd (screen_size e).
Proof.
  unfold pointer_moves. destruct p as [[x y]|]; [|intros [= <-]; simpl; tauto].
  destruct (test_mode cfg); [intros [= <-]; simpl; tauto|]. destruct (screen_size e) as [w h].
  repeat case_match; try discriminate. intros [= <-] [[= <- <-]|[]]. split; [reflexivity|]. eauto.
Qed.

(** [pointer_moves] only moves the pointer. *)
Lemma pointer_moves_only_moves p moves eff :
  pointer_moves cfg e p = inr moves -> In eff moves -> exists x y, eff = MoveTo x y.
Proof.
  unfold pointer_moves. repeat case_match; intros [= <-]; simpl; intros; intuition (subst; eauto).
Qed.

End LoopFacts.

(** Every effect of a run is an effect of one iteration's pattern. *)
Lemma run_effects_in B cfg e sess fuel st eff :
  In eff (snd (run B cfg e sess fuel st)) ->
  exists p moves m discs ms,
    pointer_moves cfg e p = inr moves /\ In eff (moves ++ [Show m discs; WaitKey ms]).
Proof.
  revert st. induction fuel as [|n IH]; intros st; simpl; [tauto|].
  pose proof (loop_iter_effects B cfg e sess st) as Heff.
  destruct (loop_iter B cfg e sess st) as [st' effs|r effs].
  - destruct (run B cfg e sess n st') as [s tr] eqn:Hrun. simpl. rewrite in_app_iff.
    intros [Hin|Hin].
    + destruct Heff as [->|(p & moves & m & discs & ms & Hp & ->)]; [destruct Hin|eauto 7].
    + apply (IH st'). rewrite Hrun. exact Hin.
  - simpl. intros Hin.
    destruct Heff as [->|(p & moves & m & discs & ms & Hp & ->)]; [destruct Hin|eauto 7].
Qed.

Lemma main_run B fuel cfg e :
  main B fuel cfg e =
  (fst (run B cfg e (open_session cfg e) fuel init_state),
   setup_effects ++ snd (run B cfg e (open_session cfg e) fuel init_state) ++
   teardown (fst (run B cfg e (open_session cfg e) fuel init_state))).
Proof. unfold main. destruct (run _ _ _ _ _ _). reflexivity. Qed.

Lemma main_fst B fuel cfg e :
  fst (main B fuel cfg e) = fst (run B cfg e (open_session cfg e) fuel init_state).
Proof. rewrite main_run. reflexivity. Qed.

(** An effect of [main] is one of the setup, of the loop or of the
    teardown. *)
Lemma main_effects_in B fuel cfg e eff :
  In eff (snd (main B fuel cfg e)) ->
  In eff setup_effects \/ In eff (snd (run B cfg e (open_session cfg e) fuel init_state)) \/
  In eff [Release; DestroyAllWindows].
Proof.
  rewrite main_run. cbn [snd]. rewrite !in_app_iff.
  destruct (fst (run _ _ _ _ _ _)) as [|[]]; simpl; tauto.
Qed.

(** The two ways an iteration continues: a failed read seeks back to
    frame 0 (looping on) and changes nothing else; a read frame is
    processed, its inverse appended to the buffer and the trail moved
    by its detection and possibly a toggle. *)
Lemma loop_iter_continue B cfg e sess st st' effs :
  loop_iter B cfg e sess st = Continue st' effs ->
  (read_at (s_cap sess) (ls_pos st) = None /\ s_loop sess = true /\
   st' = {| ls_pos := 0; ls_buffer := ls_buffer st; ls_trail := ls_trail st;
            ls_count := ls_count st |}) \/
  (exists f evs, read_at (s_cap sess) (ls_pos st) = Some f /\ ls_pos st' = S (ls_pos st) /\
     ls_count st' = S (ls_count st) /\ ls_buffer st' = ls_buffer st ++ [invert f] /\
     ls_trail st' = trail_run (ls_trail st) evs).
Proof.
  intros Hit. unfold loop_iter in Hit. destruct (read_at _ _) as [f|] eqn:Hr.
  - right. exists f.
    pose proof (process_frame_buffer f (ls_buffer st) (Z.max 1 (ui_delay (ui e (ls_count st))))
                  (ui_opacity (ui e (ls_count st)))) as Hb.
    destruct (process_frame _ _ _ _) as [buf [err|m]]; [discriminate|]. simpl in Hb. subst buf.
    destruct (on_detection _ _) as [tr discs] eqn:Hd.
    destruct (pointer_moves _ _ _); [discriminate|].
    destruct (key_action_of _); [discriminate| |]; injection Hit as <- _.
    + exists [Detect (detect_pupil B m); Toggle]. simpl. rewrite Hd. auto.
    + exists [Detect (detect_pupil B m)]. simpl. rewrite Hd. auto.
  - left. destruct (s_loop sess); [|discriminate]. injection Hit as <- _. auto.
Qed.

(** ** Properties *)

(** C14 (loop invariant).  In every state the loop reaches, the buffer
    holds one uint8 frame per frame processed (it grows by one per
    [waitKey] and never shrinks), and trail points are stored only while
    trail mode is on. *)
Theorem reachable_invariant (B : ContourBackend) (cfg : config) (e : env) (sess : session)
    (st : loop_state) :
  reachable B cfg e sess st ->
  length (ls_buffer st) = ls_count st /\ trail_ok (ls_trail st) /\
  Forall (fun g => frame_ok g = true) (ls_buffer st).
Proof.
  induction 1 as [|st st' effs Hr (Hlen & Htr & Hok) Hit].
  - split; [reflexivity|]. split; [intros _; reflexivity | constructor].
  - destruct (loop_iter_continue B cfg e sess st st' effs Hit)
      as [(_ & _ & ->)|(f & evs & _ & _ & -> & -> & ->)]; [auto|].
    rewrite length_app. simpl. split; [lia|]. split; [apply trail_run_ok; exact Htr|].
    apply Forall_app. split; [exact Hok|]. constructor; [apply invert_ok | constructor].
Qed.

(** C15 (an unreadable video with looping spins).  When a video path is
    given and looping is on but the capture yields no frame (an empty or
    unreadable file), every iteration seeks back to frame 0 and
    [continue]s: for any number of iterations the loop is still running
    and the program has performed no effect beyond creating the window
    and its trackbars, so [waitKey] is never called and neither ESC nor
    any other input is ever read. *)
Theorem main_spins_without_frames (B : ContourBackend) (cfg : config) (e : env) (fuel : nat) :
  path_given (input_path cfg) = true -> loop_video cfg = true ->
  (forall i, read_at (file_source e) i = None) ->
  main B fuel cfg e = (Running init_state, setup_effects).
Proof.
  intros Hp Hl Hnone.
  assert (Hloop : s_loop (open_session cfg e) = true)
    by (unfold open_session; rewrite Hp; exact Hl).
  assert (Hread : forall i, read_at (s_cap (open_session cfg e)) i = None)
    by (unfold open_session; rewrite Hp; exact Hnone).
  enough (Hrun : run B cfg e (open_session cfg e) fuel init_state = (Running init_state, []))
    by (rewrite main_run, Hrun; reflexivity).
  induction fuel as [|n IH]; [reflexivity|]. simpl.
  rewrite loop_iter_no_frame by apply Hread. rewrite Hloop.
  change {| ls_pos := 0; ls_buffer := ls_buffer init_state; ls_trail := ls_trail init_state;
            ls_count := ls_count init_state |} with init_state.
  rewrite IH. reflexivity.
Qed.

(** Every effect of a run is an effect of one of its iterations, from
    some state. *)
Lemma run_effect_iter B cfg e sess fuel st eff :
  In eff (snd (run B cfg e sess fuel st)) ->
  exists st', match loop_iter B cfg e sess st' with
              | Continue _ effs | Halt _ effs => In eff effs
              end.
Proof.
  revert st. induction fuel as [|n IH]; intros st; simpl; [tauto|].
  destruct (loop_iter B cfg e sess st) as [st' effs|r effs] eqn:Hit.
  - destruct (run B cfg e sess n st') as [s tr] eqn:Hrun. simpl. rewrite in_app_iff.
    intros [Hin|Hin]; [exists st; rewrite Hit; exact Hin|].
    apply (IH st'). rewrite Hrun. exact Hin.
  - simpl. intros Hin. exists st. rewrite Hit. exact Hin.
Qed.

(** A pointer move of an iteration is the move to the detection in the
    frame that iteration shows, wrapped into the screen. *)
Lemma loop_iter_move_effect B cfg e sess st a b :
  match loop_iter B cfg e sess st with
  | Continue _ effs | Halt _ effs => In (MoveTo a b) effs
  end ->
  test_mode cfg = false /\ exists m discs x y,
    match loop_iter B cfg e sess st with
    | Continue _ effs | Halt _ effs => In (Show m discs) effs
    end /\ detect_pupil B m = Some (x, y) /\
    a = x mod fst (screen_size e) /\ b = y mod snd (screen_size e).
Proof.
  unfold loop_iter. destruct (read_at _ _) as [f|]; [|destruct (s_loop sess); simpl; tauto].
  destruct (process_frame f _ _ _) as [buf [err|m]]; [simpl; tauto|].
  destruct (on_detection _ _) as [tr discs].
  destruct (pointer_moves _ _ _) as [err|moves] eqn:Hm; [simpl; tauto|].
  destruct (key_action_of _); cbn iota; rewrite in_app_iff;
    (intros [Hin|[[=]|[[=]|[]]]];
     apply (pointer_moves_in _ _ _ _ _ _ Hm) in Hin as (Ht & x & y & Hd & -> & ->);
     split; [exact Ht|]; exists m, discs, x, y; rewrite in_app_iff; simpl; auto).
Qed.

(** C16 (pointer target).  Every [pyautogui.moveTo] the program performs
    is made by an iteration that detected the pupil at [(x, y)] in the
    frame it shows, and targets [(x mod w, y mod h)], a point of the
    screen; none is performed in test mode. *)
Theorem main_pointer_within_screen (B : ContourBackend) (fuel : nat) (cfg : config) (e : env)
    (a b : Z) :
  0 < fst (screen_size e) -> 0 < snd (screen_size e) ->
  In (MoveTo a b) (snd (main B fuel cfg e)) ->
  test_mode cfg = false /\ exists st m discs x y,
    match loop_iter B cfg e (open_session cfg e) st with
    | Continue _ effs | Halt _ effs => In (MoveTo a b) effs /\ In (Show m discs) effs
    end /\ detect_pupil B m = Some (x, y) /\
    a = x mod fst (screen_size e) /\ b = y mod snd (screen_size e) /\
    0 <= a < fst (screen_size e) /\ 0 <= b < snd (screen_size e).
Proof.
  intros Hw Hh Hin.
  apply main_effects_in in Hin as [Hin|[Hin|Hin]]; [simpl in Hin; intuition discriminate| |
    simpl in Hin; intuition discriminate].
  apply run_effect_iter in Hin as [st Hin].
  pose proof (loop_iter_move_effect B cfg e _ st a b Hin) as (Ht & m & discs & x & y & Hs & Hd & Ha & Hb).
  split; [exact Ht|]. exists st, m, discs, x, y.
  split; [destruct (loop_iter _ _ _ _ st); auto|]. subst a b.
  repeat split; try assumption; apply Z.mod_pos_bound; assumption.
Qed.

(** One iteration on a readable frame of the buffer's shape: it quits
    on ESC, or continues with the buffer still of that shape. *)
Lemma loop_iter_frame_shape B cfg e sess st f s :
  screen_ok cfg e -> read_at (s_cap sess) (ls_pos st) = Some f -> shape f = s ->
  Forall (fun g => shape g = s) (ls_buffer st) ->
  (key_action_of (ui_key (ui e (ls_count st))) = KQuit /\
   exists effs, loop_iter B cfg e sess st = Halt QuitKey effs) \/
  (key_action_of (ui_key (ui e (ls_count st))) <> KQuit /\
   exists st' effs, loop_iter B cfg e sess st = Continue st' effs /\
     ls_pos st' = S (ls_pos st) /\ ls_count st' = S (ls_count st) /\
     Forall (fun g => shape g = s) (ls_buffer st')).
Proof.
  intros Hscr Hf Hs Hbuf.
  destruct (process_frame_no_raise f (ls_buffer st) (Z.max 1 (ui_delay (ui e (ls_count st))))
              (ui_opacity (ui e (ls_count st)))) as [g Hg]; [lia| |].
  { eapply Forall_impl; [|exact Hbuf]. simpl. congruence. }
  destruct (loop_iter_frame B cfg e sess st f g Hscr Hf Hg)
    as [Hq|[Hk (st' & effs & Hc & Hpos & Hcount & Hb & _)]]; [left; exact Hq|].
  right. split; [exact Hk|]. exists st', effs. repeat (split; [assumption|]).
  rewrite Hb. apply Forall_app. split; [exact Hbuf|]. constructor; [|constructor].
  rewrite invert_shape. exact Hs.
Qed.

Lemma run_halt_quit B cfg e sess st effs n :
  loop_iter B cfg e sess st = Halt QuitKey effs ->
  fst (run B cfg e sess (S n) st) = Stopped QuitKey.
Proof. intros H. simpl. rewrite H. reflexivity. Qed.

Lemma run_continue_fst B cfg e sess st st' effs n :
  loop_iter B cfg e sess st = Continue st' effs ->
  fst (run B cfg e sess (S n) st) = fst (run B cfg e sess n st').
Proof. intros H. simpl. rewrite H. destruct (run B cfg e sess n st'). reflexivity. Qed.

Section Quit.

Variable B : ContourBackend.
Variable cfg : config.
Variable e : env.
Variable sess : session.
Variable frames : list frame.
Variable s : list nat.
Variable k : nat.
Hypothesis Hread : forall i, read_at (s_cap sess) i = nth_error frames i.
Hypothesis Hloop : s_loop sess = true.
Hypothesis Hshape : Forall (fun f => shape f = s) frames.
Hypothesis Hne : frames <> [].
Hypothesis Hesc : key_action_of (ui_key (ui e k)) = KQuit.
Hypothesis Hscreen : screen_ok cfg e.

Lemma frame_read_shape i f : read_at (s_cap sess) i = Some f -> shape f = s.
Proof.
  rewrite Hread. intros Hf. apply nth_error_In in Hf.
  rewrite Forall_forall in Hshape. auto.
Qed.

(** From a state [d] frames before the ESC press, [2 d + 2] iterations
    suffice to leave the loop on a key ([2 d + 1] when the next read
    succeeds): each frame costs at most one seek back and one read. *)
Definition quits_from (d : nat) : Prop :=
  forall st fuel, (ls_count st + d = k)%nat -> Forall (fun g => shape g = s) (ls_buffer st) ->
  (2 * d + 2 <= fuel)%nat -> fst (run B cfg e sess fuel st) = Stopped QuitKey.

Definition quits_from_read (d : nat) : Prop :=
  forall st fuel, read_at (s_cap sess) (ls_pos st) <> None ->
  (ls_count st + d = k)%nat -> Forall (fun g => shape g = s) (ls_buffer st) ->
  (2 * d + 1 <= fuel)%nat -> fst (run B cfg e sess fuel st) = Stopped QuitKey.

Lemma quits_read d : (forall d', d = S d' -> quits_from d') -> quits_from_read d.
Proof.
  intros IH st fuel Hr Hc Hb Hfuel.
  destruct (read_at (s_cap sess) (ls_pos st)) as [f|] eqn:Hf; [|congruence].
  destruct fuel as [|n]; [lia|].
  destruct (loop_iter_frame_shape B cfg e sess st f s Hscreen Hf (frame_read_shape _ _ Hf) Hb)
    as [[_ [effs Hq]]|[Hk (st' & effs & Hit & _ & Hcount & Hb')]];
    [eapply run_halt_quit; eauto|].
  rewrite (run_continue_fst _ _ _ _ _ _ _ _ Hit). destruct d as [|d'].
  - exfalso. rewrite Nat.add_0_r in Hc. rewrite <- Hc in Hesc. exact (Hk Hesc).
  - apply (IH d' eq_refl); [lia | exact Hb' | lia].
Qed.

Lemma quits_of_read d : quits_from_read d -> quits_from d.
Proof.
  intros Hq st fuel Hc Hb Hfuel.
  destruct (read_at (s_cap sess) (ls_pos st)) eqn:Hr; [apply Hq; [congruence|auto|auto|lia]|].
  destruct fuel as [|n]; [lia|].
  assert (Hit : loop_iter B cfg e sess st =
                Continue {| ls_pos := 0; ls_buffer := ls_buffer st; ls_trail := ls_trail st;
                            ls_count := ls_count st |} [])
    by (rewrite loop_iter_no_frame, Hloop by exact Hr; reflexivity).
  rewrite (run_continue_fst _ _ _ _ _ _ _ _ Hit).
  apply Hq; simpl; [|exact Hc|exact Hb|lia].
  rewrite Hread. destruct frames; [congruence|discriminate].
Qed.

Lemma run_quits d : quits_from d.
Proof.
  induction d as [|d IH]; apply quits_of_read, quits_read; [discriminate|].
  intros d' [= <-]. exact IH.
Qed.

End Quit.

Section EndOfStream.

Variable B : ContourBackend.
Variable cfg : config.
Variable e : env.
Variable sess : session.
Variable frames : list frame.
Variable s : list nat.
Hypothesis Hread : forall i, read_at (s_cap sess) i = nth_error frames i.
Hypothesis Hnoloop : s_loop sess = false.
Hypothesis Hshape : Forall (fun f => shape f = s) frames.
Hypothesis Hnokey : forall j, (j < length frames)%nat -> key_action_of (ui_key (ui e j)) <> KQuit.
Hypothesis Hscreen : screen_ok cfg e.

(** Without looping and without ESC, the loop reads the [r] frames left
    and stops at the end of the stream after [r + 1] iterations. *)
Lemma run_reaches_end r :
  forall st fuel, (ls_pos st + r = length frames)%nat -> ls_count st = ls_pos st ->
  Forall (fun g => shape g = s) (ls_buffer st) -> (r + 1 <= fuel)%nat ->
  fst (run B cfg e sess fuel st) = Stopped EndOfStream.
Proof.
  induction r as [|r IH]; intros st fuel Hpos Hc Hb Hfuel; destruct fuel as [|n]; try lia.
  - simpl. rewrite loop_iter_no_frame, Hnoloop by (rewrite Hread; apply nth_error_None; lia).
    reflexivity.
  - destruct (nth_error frames (ls_pos st)) as [f|] eqn:Hf; [|apply nth_error_None in Hf; lia].
    rewrite <- Hread in Hf.
    assert (Hsf : shape f = s).
    { rewrite Hread in Hf. apply nth_error_In in Hf. rewrite Forall_forall in Hshape. auto. }
    destruct (loop_iter_frame_shape B cfg e sess st f s Hscreen Hf Hsf Hb)
      as [[Hk _]|[_ (st' & effs & Hit & Hpos' & Hcount & Hb')]];
      [exfalso; apply (Hnokey (ls_count st)); [lia | exact Hk]|].
    rewrite (run_continue_fst _ _ _ _ _ _ _ _ Hit). apply IH; [lia | lia | exact Hb' | lia].
Qed.

End EndOfStream.

Lemma open_session_file cfg e :
  path_given (input_path cfg) = true ->
  s_cap (open_session cfg e) = file_source e /\ s_loop (open_session cfg e) = loop_video cfg.
Proof. unfold open_session. intros ->. auto. Qed.

(** C17 (ESC terminates).  Playing a non-empty video file of one frame
    shape in a loop, if the user presses ESC (any key code whose low
    byte is 27) while frame [k] is shown, the program leaves the loop on
    that key within [2 k + 2] iterations (each frame costs at most one
    seek back and one read), and not by an exception, provided the
    pointer can be moved (test mode, or a screen of non-zero size). *)
Theorem main_quits_on_esc (B : ContourBackend) (cfg : config) (e : env)
    (frames : list frame) (fps : Q) (s : list nat) (k : nat) :
  path_given (input_path cfg) = true -> loop_video cfg = true ->
  file_source e = file_capture frames fps -> frames <> [] ->
  Forall (fun f => shape f = s) frames ->
  key_action_of (ui_key (ui e k)) = KQuit -> screen_ok cfg e ->
  fst (main B (2 * k + 2) cfg e) = Stopped QuitKey.
Proof.
  intros Hp Hl Hsrc Hne Hs Hk Hscr. rewrite main_fst. destruct (open_session_file cfg e Hp) as [Hcap Hloop].
  assert (Hread : forall i, read_at (s_cap (open_session cfg e)) i = nth_error frames i)
    by (intros i; rewrite Hcap, Hsrc; reflexivity).
  apply (run_quits B cfg e (open_session cfg e) frames s k Hread ltac:(congruence) Hs Hne Hk Hscr k);
    [reflexivity | constructor | lia].
Qed.

(** C18 (end of stream).  Playing a video file of [n] frames of one
    shape without looping, with no ESC pressed, the program shows the [n]
    frames and leaves the loop at the end of the stream, after [n + 1]
    iterations, provided the pointer can be moved. *)
Theorem main_ends_without_loop (B : ContourBackend) (cfg : config) (e : env)
    (frames : list frame) (fps : Q) (s : list nat) :
  path_given (input_path cfg) = true -> loop_video cfg = false ->
  file_source e = file_capture frames fps ->
  Forall (fun f => shape f = s) frames ->
  (forall j, (j < length frames)%nat -> key_action_of (ui_key (ui e j)) <> KQuit) ->
  screen_ok cfg e ->
  fst (main B (S (length frames)) cfg e) = Stopped EndOfStream.
Proof.
  intros Hp Hl Hsrc Hs Hk Hscr. rewrite main_fst. destruct (open_session_file cfg e Hp) as [Hcap Hloop].
  assert (Hread : forall i, read_at (s_cap (open_session cfg e)) i = nth_error frames i)
    by (intros i; rewrite Hcap, Hsrc; reflexivity).
  apply (run_reaches_end B cfg e (open_session cfg e) frames s Hread ltac:(congruence) Hs Hk Hscr
           (length frames)); [reflexivity | reflexivity | constructor | lia].
Qed.

(** C19 ([waitKey(0)] blocks).  The delay handed to [cv2.waitKey] is 0,
    which OpenCV reads as "wait for a key forever", exactly when
    [fps * max(1, speed) > 10000]: with the speed trackbar at its maximum
    50 this happens for any video reporting more than 200 fps, and the
    playback then stops at every frame until a key is pressed. *)
Theorem wait_ms_zero_iff (fps : Q) (speed : Z) :
  (0 < fps)%Q ->
  wait_ms fps speed = 0 <-> (10000 < fps * inject_Z (Z.max 1 speed))%Q.
Proof.
  intros Hfps. unfold wait_ms.
  assert (Hm : (0 < inject_Z (Z.max 1 speed))%Q)
    by (change 0%Q with (inject_Z 0); rewrite <- Zlt_Qlt; lia).
  assert (Hq : (1000 / fps / (inject_Z (Z.max 1 speed) / 10) ==
                10000 / (fps * inject_Z (Z.max 1 speed)))%Q)
    by (field; split; apply Qnot_eq_sym, Qlt_not_eq; assumption).
  assert (Hpos : (0 < fps * inject_Z (Z.max 1 speed))%Q) by (apply Qmult_lt_0_compat; assumption).
  rewrite py_int_zero_iff, Hq.
  - split; intros H.
    + apply Qnot_le_lt. intros Hle. apply (Qlt_not_le _ _ H).
      apply Qle_shift_div_l; [exact Hpos|]. rewrite Qmult_1_l. exact Hle.
    + apply Qlt_shift_div_r; [exact Hpos|]. rewrite Qmult_1_l. exact H.
  - rewrite Hq. apply Qle_shift_div_l; [exact Hpos|]. rewrite Qmult_0_l. discriminate.
Qed.

(** ** Concrete runs *)

(** A 1x2 frame with one dark pixel at (1, 0). *)
Definition demo_frame : frame := [[mk_bgr 200 200 200; mk_bgr 10 10 10]].

Definition demo_cfg (looping : bool) : config :=
  {| test_mode := false; input_path := Some "test.mov"%string; loop_video := looping |}.

(** Trackbars at their initial positions (3, 50, 10); ESC pressed while
    frame [esc_at] is shown, no key otherwise; an 800x600 screen. *)
Definition demo_env (frames : list frame) (esc_at : nat) : env := {|
  file_source := file_capture frames 30;
  camera_source := file_capture [] 0;
  ui := fun j => {| ui_delay := 3; ui_opacity := 50; ui_speed := 10;
                    ui_key := if Nat.eqb j esc_at then 27 else -1 |};
  screen_size := (800, 600)
|}.

(** The spec's example: a detection at (850, 650) on an 800x600 screen
    moves the pointer to (50, 50). *)
Lemma pointer_moves_wraps :
  pointer_moves (demo_cfg true) (demo_env [] 0) (Some (850, 650)) = inr [MoveTo 50 50].
Proof. reflexivity. Qed.

Lemma reachable_invariant_witness :
  let sess := open_session (demo_cfg true) (demo_env [demo_frame] 5) in
  let st1 := {| ls_pos := 1; ls_buffer := [invert demo_frame];
                ls_trail := {| trail_mode := false; trail_points := [] |}; ls_count := 1 |} in
  length (ls_buffer st1) = ls_count st1 /\ trail_ok (ls_trail st1) /\
  Forall (fun g => frame_ok g = true) (ls_buffer st1).
Proof.
  intros sess st1. apply (reachable_invariant box_backend (demo_cfg true) (demo_env [demo_frame] 5) sess).
  eapply reach_step; [apply reach_init | vm_compute; reflexivity].
Defined.

Lemma main_spins_without_frames_witness :
  main box_backend 7 (demo_cfg true) (demo_env [] 0) = (Running init_state, setup_effects).
Proof. apply main_spins_without_frames; [reflexivity | reflexivity | intros i; destruct i; reflexivity]. Defined.

(** The dark pixel of [demo_frame] at (1, 0) is detected in the first
    frame and the pointer moved there. *)
Lemma main_pointer_within_screen_witness :
  test_mode (demo_cfg true) = false /\ exists st m discs x y,
    match loop_iter box_backend (demo_cfg true) (demo_env [demo_frame] 5)
            (open_session (demo_cfg true) (demo_env [demo_frame] 5)) st with
    | Continue _ effs | Halt _ effs => In (MoveTo 1 0) effs /\ In (Show m discs) effs
    end /\ detect_pupil box_backend m = Some (x, y) /\
    1 = x mod 800 /\ 0 = y mod 600 /\ 0 <= 1 < 800 /\ 0 <= 0 < 600.
Proof.
  apply (main_pointer_within_screen box_backend 1 (demo_cfg true) (demo_env [demo_frame] 5) 1 0);
    [reflexivity | reflexivity | vm_compute; do 4 right; left; reflexivity].
Defined.

Lemma main_quits_on_esc_witness :
  fst (main box_backend (2 * 3 + 2) (demo_cfg true) (demo_env [demo_frame; demo_frame] 3)) =
  Stopped QuitKey.
Proof.
  apply (main_quits_on_esc box_backend (demo_cfg true) (demo_env [demo_frame; demo_frame] 3)
           [demo_frame; demo_frame] 30 [2%nat]);
    [reflexivity | reflexivity | reflexivity | discriminate | repeat constructor | reflexivity |
     right; simpl; split; discriminate].
Defined.

Lemma main_ends_without_loop_witness :
  fst (main box_backend 3 (demo_cfg false) (demo_env [demo_frame; demo_frame] 100)) =
  Stopped EndOfStream.
Proof.
  apply (main_ends_without_loop box_backend (demo_cfg false) (demo_env [demo_frame; demo_frame] 100)
           [demo_frame; demo_frame] 30 [2%nat]);
    [reflexivity | reflexivity | reflexivity | repeat constructor | |
     right; simpl; split; discriminate].
  intros j Hj. simpl in Hj. destruct j as [|[|j]]; [discriminate | discriminate | lia].
Defined.

(** A 240 fps video at the maximum speed 50 waits 0 ms: [waitKey(0)]. *)
Lemma wait_ms_zero_iff_witness : wait_ms 240 50 = 0.
Proof. apply (wait_ms_zero_iff 240 50); reflexivity. Defined.

(** C21 (per-frame ordering of side effects).  The effects of any run
    are a sequence of per-frame blocks, in frame order: each block is the
    frame's pointer move (if any), then [imshow] of the frame with its
    discs, then [waitKey]; nothing of frame [N + 1] happens before frame
    [N]'s wait. *)
Theorem run_trace_blocks (B : ContourBackend) (cfg : config) (e : env) (sess : session)
    (fuel : nat) (st : loop_state) :
  exists blocks,
    snd (run B cfg e sess fuel st) = concat blocks /\
    Forall (fun b => exists p moves m discs ms,
              pointer_moves cfg e p = inr moves /\
              b = moves ++ [Show m discs; WaitKey ms]) blocks.
Proof.
  revert st. induction fuel as [|n IH]; intros st; simpl; [exists []; auto|].
  pose proof (loop_iter_effects B cfg e sess st) as Heff.
  destruct (loop_iter B cfg e sess st) as [st' effs|r effs].
  - destruct (IH st') as (blocks & Hb & Hall).
    destruct (run B cfg e sess n st') as [s tr]. simpl in Hb |- *. subst tr.
    destruct Heff as [->|Hblk]; [exists blocks; auto|].
    exists (effs :: blocks). split; [reflexivity | constructor; assumption].
  - destruct Heff as [->|Hblk]; [exists []; auto|].
    exists [effs]. split; [simpl; rewrite app_nil_r; reflexivity | constructor; [assumption | constructor]].
Qed.

(** C38 (the delay is clamped to 1).  When the Delay trackbar reads 0
    (or 1), [max(1, ...)] at main.py:64 makes the frame shown by an
    iteration the blend of the frame read with the last frame of the
    buffer, the inverse of the frame read before it.  Without the clamp,
    a delay of 0 would blend each frame with its own inverse, a uniform
    grey at opacity 50, in which nothing is ever detected (C23). *)
Theorem loop_iter_delay_clamp (B : ContourBackend) (cfg : config) (e : env) (sess : session)
    (st : loop_state) (f : frame) (buf : list frame) (g m : frame) (discs : list circle_cmd) :
  read_at (s_cap sess) (ls_pos st) = Some f -> ui_delay (ui e (ls_count st)) <= 1 ->
  ls_buffer st = buf ++ [g] ->
  match loop_iter B cfg e sess st with
  | Continue _ effs | Halt _ effs => In (Show m discs) effs
  end ->
  blend f (ui_opacity (ui e (ls_count st))) g = inr m.
Proof.
  intros Hr Hd Hb. unfold loop_iter. rewrite Hr, Z.max_l by lia.
  pose proof (process_frame_delay_1 f buf g (ui_opacity (ui e (ls_count st)))) as Hp.
  rewrite Hb. destruct (process_frame _ _ _ _) as [buf' [err|m']]; [contradiction|].
  simpl in Hp. destruct (on_detection _ _) as [tr ds].
  destruct (pointer_moves _ _ _) as [err|moves] eqn:Hm; [contradiction|].
  destruct (key_action_of _); rewrite in_app_iff;
    (intros [Hin|[[= <- _]|[Hin|[]]]]; [|symmetry; exact Hp|discriminate]);
    destruct (pointer_moves_only_moves _ _ _ _ _ Hm Hin) as (? & ? & ?); discriminate.
Qed.

(** The Delay trackbar at 0 while the second frame of a two-frame video
    is read: it is blended with the inverse of the first. *)
Definition clamp_frame : frame := [[mk_bgr 10 10 10; mk_bgr 200 200 200]].

Definition clamp_env : env := {|
  file_source := file_capture [demo_frame; clamp_frame] 30;
  camera_source := file_capture [] 0;
  ui := fun _ => {| ui_delay := 0; ui_opacity := 50; ui_speed := 10; ui_key := -1 |};
  screen_size := (800, 600)
|}.

Definition clamp_state : loop_state :=
  {| ls_pos := 1; ls_buffer := [invert demo_frame];
     ls_trail := {| trail_mode := false; trail_points := [] |}; ls_count := 1 |}.

Lemma loop_iter_delay_clamp_witness :
  blend clamp_frame 50 (invert demo_frame) = inr [[mk_bgr 32 32 32; mk_bgr 222 222 222]].
Proof.
  apply (loop_iter_delay_clamp box_backend (demo_cfg true) clamp_env
           (open_session (demo_cfg true) clamp_env) clamp_state clamp_frame [] (invert demo_frame)
           _ [marker 5 green_bgr (0, 0)]);
    [reflexivity | simpl; lia | reflexivity | vm_compute; right; left; reflexivity].
Defined.
