(* ===== verification/Playback.v ===== *)
(** * Playback: properties of whole runs of [main] (main.py:30-100)

    Theorems about sequences of loop iterations: the contents of the
    delay buffer while a video plays in a loop (the buffer survives the
    seek back to frame 0), the type of every frame shown, the cases in
    which the capture is released, the abort on a frame-size change,
    the range of the [waitKey] delay the trackbars allow, and the
    progress of a looped video (the [imshow] and [waitKey] calls of a
    run counted by [imshow_count] and [waitkey_count]). *)

From Stdlib Require Import ZArith QArith Qround List Lia Lqa Morphisms String.
From stdpp Require Import base list decidable.
From S2P Require Import Prelude Frame Blend DelayBuffer Detector Motion Trail Driver.

Open Scope Z_scope.

(** ** One iteration *)

(** An effect of an iteration other than a pointer move belongs to the
    frame read and processed by that iteration. *)
Lemma loop_iter_frame_effect B cfg e sess st eff :
  match loop_iter B cfg e sess st with
  | Continue _ effs | Halt _ effs => In eff effs
  end ->
  (exists x y, eff = MoveTo x y) \/
  exists f m discs, read_at (s_cap sess) (ls_pos st) = Some f /\
    snd (process_frame f (ls_buffer st) (Z.max 1 (ui_delay (ui e (ls_count st))))
           (ui_opacity (ui e (ls_count st)))) = inr m /\
    (eff = Show m discs \/ eff = WaitKey (wait_ms (s_fps sess) (ui_speed (ui e (ls_count st))))).
Proof.
  unfold loop_iter. destruct (read_at _ _) as [f|]; [|destruct (s_loop sess); simpl; tauto].
  destruct (process_frame f _ _ _) as [buf [err|m]] eqn:Hp; [simpl; tauto|].
  destruct (on_detection _ _) as [tr discs].
  destruct (pointer_moves _ _ _) as [err|moves] eqn:Hm; [simpl; tauto|].
  destruct (key_action_of _); cbn iota; rewrite in_app_iff;
    (intros [H|[H|[H|[]]]]; [left; eapply pointer_moves_only_moves; eauto|..]; right;
     exists f, m, discs; rewrite Hp; auto).
Qed.

(** The loop reaches every state a run of it is still running in. *)
Lemma run_reachable B cfg e sess fuel st st' tr :
  reachable B cfg e sess st -> run B cfg e sess fuel st = (Running st', tr) ->
  reachable B cfg e sess st'.
Proof.
  revert st tr. induction fuel as [|n IH]; intros st tr Hr; simpl; [congruence|].
  destruct (loop_iter B cfg e sess st) as [st1 effs|r effs] eqn:Hit; [|discriminate].
  destruct (run B cfg e sess n st1) as [s tr1] eqn:Hrun. intros [= -> _].
  eapply IH; [eapply reach_step; eauto | exact Hrun].
Qed.

(** ** Looped playback *)

Section Looped.

Variable B : ContourBackend.
Variable cfg : config.
Variable e : env.
Variable sess : session.
Variable frames : list frame.
Hypothesis Hread : forall i, read_at (s_cap sess) i = nth_error frames i.
Hypothesis Hloop : s_loop sess = true.
Hypothesis Hne : frames <> [].

(** The history of a looped playback after [c] processed frames: the
    inverses of frames [0, 1, ..., n - 1, 0, 1, ...]. *)
Definition looped_history (c : nat) : list frame :=
  map (fun k => invert (nth (k mod length frames)%nat frames [])) (seq 0 c).

Lemma looped_history_S c :
  looped_history (S c) = looped_history c ++ [invert (nth (c mod length frames)%nat frames [])].
Proof. unfold looped_history. rewrite seq_S, map_app. reflexivity. Qed.

Lemma looped_step st st' effs :
  (ls_pos st <= length frames)%nat ->
  (ls_count st mod length frames = ls_pos st mod length frames)%nat ->
  ls_buffer st = looped_history (ls_count st) ->
  loop_iter B cfg e sess st = Continue st' effs ->
  (ls_pos st' <= length frames)%nat /\
  (ls_count st' mod length frames = ls_pos st' mod length frames)%nat /\
  ls_buffer st' = looped_history (ls_count st').
Proof.
  intros Hpos Hmod Hbuf Hit. assert (Hn : length frames <> 0%nat) by (destruct frames; simpl; congruence).
  destruct (loop_iter_continue B cfg e sess st st' effs Hit)
    as [(Hr & _ & ->)|(f & evs & Hr & -> & -> & -> & _)]; simpl.
  - rewrite Hread in Hr. apply nth_error_None in Hr.
    assert (ls_pos st = length frames) as Heq by lia. rewrite Heq, Nat.Div0.mod_same in Hmod.
    rewrite Nat.Div0.mod_0_l. split; [lia|]. auto.
  - rewrite Hread in Hr. assert (Hlt : (ls_pos st < length frames)%nat) by (apply nth_error_Some; congruence).
    rewrite (Nat.mod_small (ls_pos st)) in Hmod by exact Hlt.
    split; [lia|]. split.
    + rewrite <- (Nat.add_1_r (ls_count st)), <- (Nat.add_1_r (ls_pos st)), (Nat.Div0.add_mod (ls_count st)), Hmod.
      apply Nat.Div0.add_mod_idemp_r.
    + rewrite looped_history_S, Hbuf, Hmod. f_equal. f_equal. f_equal.
      symmetry. apply nth_error_nth. exact Hr.
Qed.

End Looped.

(** ** Frames shown, teardown, aborts *)

(** The outcome of [process_frame], when it is a frame, is the current
    frame or its blend: a uint8 frame of the current frame's shape. *)
Lemma process_frame_inr_ok f buf d a m :
  snd (process_frame f buf d a) = inr m -> frame_ok f = true ->
  frame_ok m = true /\ shape m = shape f.
Proof.
  unfold process_frame. destruct (d <? _); [|intros [= <-]; auto].
  destruct (py_get _ _) as [g|]; simpl; [|discriminate].
  unfold blend. destruct (add_weighted f a g) as [m'|] eqn:Hw; [|discriminate].
  intros [= <-] _. split; [eapply add_weighted_ok | eapply add_weighted_shape]; eauto.
Qed.

(** No iteration of the loop releases the capture. *)
Lemma run_no_release B cfg e sess fuel st : ~ In Release (snd (run B cfg e sess fuel st)).
Proof.
  intros Hin. apply run_effect_iter in Hin as [st' Hin].
  apply loop_iter_frame_effect in Hin as [(x & y & [=])|(f & m & discs & _ & _ & [[=]|[=]])].
Qed.

Lemma ends_with_teardown_in (l tr : list effect) :
  l = tr ++ [Release; DestroyAllWindows] -> In Release l.
Proof. intros ->. apply in_or_app. simpl. auto. Qed.

(** The delay of [waitKey]: [int(10000 / (fps * max(1, speed)))]. *)
Lemma wait_ms_eq fps s :
  (0 < fps)%Q -> wait_ms fps s = py_int (10000 / (fps * inject_Z (Z.max 1 s))).
Proof.
  intros Hfps. unfold wait_ms. apply py_int_proper.
  assert (Hm : (0 < inject_Z (Z.max 1 s))%Q)
    by (change 0%Q with (inject_Z 0); rewrite <- Zlt_Qlt; lia).
  field. split; apply Qnot_eq_sym, Qlt_not_eq; assumption.
Qed.

Lemma ui_ok_speed u : ui_ok u = true -> 0 <= ui_speed u <= 50.
Proof.
  unfold ui_ok, trackbar_pos_ok. rewrite !andb_true_iff, !Z.leb_le. tauto.
Qed.

(** ** What is shown *)

(** Pixel [r] is the blend of [q] and [q'] at opacity [p], rounded: in
    each channel [r] is within half a unit of the weighted mean
    [(q (100 - p) + q' p) / 100].  The float32 arithmetic of OpenCV also
    meets this bound, at any opacity. *)
Definition blended_px (p : Z) (q q' r : bgr) : Prop :=
  2 * Z.abs (100 * blue r - (blue q * (100 - p) + blue q' * p)) <= 100 /\
  2 * Z.abs (100 * green r - (green q * (100 - p) + green q' * p)) <= 100 /\
  2 * Z.abs (100 * red r - (red q * (100 - p) + red q' * p)) <= 100.

Lemma add_weighted_u8_near a b p :
  0 <= a <= 255 -> 0 <= b <= 255 -> 0 <= p <= 100 ->
  2 * Z.abs (100 * add_weighted_u8 a b p - (a * (100 - p) + b * p)) <= 100.
Proof.
  intros Ha Hb Hp. unfold add_weighted_u8.
  rewrite saturate_u8_id by (apply cv_round_div_range; nia). apply cv_round_div_near. lia.
Qed.

Lemma add_weighted_blended p q q' :
  0 <= p <= 100 -> px_ok q = true -> px_ok q' = true -> blended_px p q q' (add_weighted_px p q q').
Proof.
  intros Hp Hq Hq'. apply px_ok_iff in Hq as (? & ? & ?). apply px_ok_iff in Hq' as (? & ? & ?).
  repeat split; apply add_weighted_u8_near; assumption.
Qed.

Lemma pixel_at_ok f x y q : frame_ok f = true -> pixel_at f x y = Some q -> px_ok q = true.
Proof.
  rewrite frame_ok_iff. unfold pixel_at. intros Hf.
  destruct (nth_error f y) as [row|] eqn:Hr; simpl; [|discriminate]. intros Hq.
  apply nth_error_In in Hr, Hq. rewrite Forall_forall in Hf. specialize (Hf _ Hr).
  rewrite Forall_forall in Hf. auto.
Qed.

Lemma ui_ok_opacity u : ui_ok u = true -> 0 <= ui_opacity u <= 100.
Proof. unfold ui_ok, trackbar_pos_ok. rewrite !andb_true_iff, !Z.leb_le. tauto. Qed.

(** Every effect of a run from a reachable state is an effect of an
    iteration from a reachable state. *)
Lemma run_effect_reachable B cfg e sess fuel st eff :
  reachable B cfg e sess st -> In eff (snd (run B cfg e sess fuel st)) ->
  exists st', reachable B cfg e sess st' /\
    match loop_iter B cfg e sess st' with
    | Continue _ effs | Halt _ effs => In eff effs
    end.
Proof.
  revert st. induction fuel as [|n IH]; intros st Hr; simpl; [tauto|].
  destruct (loop_iter B cfg e sess st) as [st' effs|r effs] eqn:Hit.
  - destruct (run B cfg e sess n st') as [s tr] eqn:Hrun. simpl. rewrite in_app_iff.
    intros [Hin|Hin]; [exists st; rewrite Hit; auto|].
    apply (IH st'); [eapply reach_step; eauto | rewrite Hrun; exact Hin].
  - simpl. intros Hin. exists st. rewrite Hit. auto.
Qed.

(** The buffer of a reachable state holds inverses of frames the
    capture returned. *)
Lemma reachable_buffer_read B cfg e sess st :
  reachable B cfg e sess st ->
  Forall (fun g => exists i f, read_at (s_cap sess) i = Some f /\ g = invert f) (ls_buffer st).
Proof.
  induction 1 as [|st st' effs Hr IH Hit]; [constructor|].
  destruct (loop_iter_continue B cfg e sess st st' effs Hit)
    as [(_ & _ & ->)|(f & evs & Hf & _ & _ & -> & _)]; [exact IH|].
  apply Forall_app. split; [exact IH|]. constructor; eauto.
Qed.

(** ** Counting displays *)

Definition is_show (x : effect) : bool := match x with Show _ _ => true | _ => false end.
Definition is_wait (x : effect) : bool := match x with WaitKey _ => true | _ => false end.

(** The number of [cv2.imshow] and of [cv2.waitKey] calls in a trace. *)
Definition imshow_count (tr : list effect) : nat := length (List.filter is_show tr).
Definition waitkey_count (tr : list effect) : nat := length (List.filter is_wait tr).

Lemma imshow_count_app l l' : imshow_count (l ++ l') = (imshow_count l + imshow_count l')%nat.
Proof. unfold imshow_count. rewrite filter_app. apply length_app. Qed.

Lemma waitkey_count_app l l' : waitkey_count (l ++ l') = (waitkey_count l + waitkey_count l')%nat.
Proof. unfold waitkey_count. rewrite filter_app. apply length_app. Qed.

(** A frame's block of effects shows it once and waits once. *)
Lemma block_counts cfg e p moves m discs ms :
  pointer_moves cfg e p = inr moves ->
  imshow_count (moves ++ [Show m discs; WaitKey ms]) = 1%nat /\
  waitkey_count (moves ++ [Show m discs; WaitKey ms]) = 1%nat.
Proof.
  intros Hp. assert (Hmv : Forall (fun x => exists a b, x = MoveTo a b) moves)
    by (apply Forall_forall; intros x; eapply pointer_moves_only_moves; eauto).
  unfold imshow_count, waitkey_count. rewrite !filter_app, !(filter_none _ moves); [auto|..];
    eapply Forall_impl; eauto; intros x (a & b & ->); reflexivity.
Qed.

(** An iteration that goes on either seeks back to frame 0 without any
    effect, or displays the frame it read once and waits once. *)
Lemma loop_iter_displays B cfg e sess st st' effs :
  loop_iter B cfg e sess st = Continue st' effs ->
  (read_at (s_cap sess) (ls_pos st) = None /\ ls_pos st' = 0%nat /\ effs = []) \/
  (read_at (s_cap sess) (ls_pos st) <> None /\ imshow_count effs = 1%nat /\
   waitkey_count effs = 1%nat).
Proof.
  unfold loop_iter. intros Hit. destruct (read_at _ _) as [f|] eqn:Hr.
  - right. split; [discriminate|].
    destruct (process_frame _ _ _ _) as [buf [err|m]]; [discriminate|].
    destruct (on_detection _ _) as [tr discs].
    destruct (pointer_moves _ _ _) as [err|moves] eqn:Hp; [discriminate|].
    destruct (key_action_of _); [discriminate| |]; injection Hit as _ <-;
      apply (block_counts cfg e _ _ _ _ _ Hp).
  - left. destruct (s_loop sess); [|discriminate]. injection Hit as <- <-. auto.
Qed.

(** ** Properties *)

(** C26 (the buffer of a looped video).  While a non-empty video file
    plays in a loop, every state the loop reaches has read at most the
    [n] frames of the file, has processed a number of frames congruent
    to its read position modulo [n], and holds in its buffer the
    inverses of frames [0, 1, ..., n - 1, 0, 1, ...] in processing order:
    the seek back to frame 0 (main.py:58) keeps the buffer, so after a
    restart the first frames are blended with inverted frames of the
    previous pass. *)
Theorem looped_buffer_history (B : ContourBackend) (cfg : config) (e : env) (sess : session)
    (frames : list frame) (st : loop_state) :
  (forall i, read_at (s_cap sess) i = nth_error frames i) -> s_loop sess = true ->
  frames <> [] -> reachable B cfg e sess st ->
  (ls_pos st <= length frames)%nat /\
  (ls_count st mod length frames = ls_pos st mod length frames)%nat /\
  ls_buffer st = map (fun k => invert (nth (k mod length frames)%nat frames [])) (seq 0 (ls_count st)).
Proof.
  intros Hread Hloop Hne Hr. fold (looped_history frames (ls_count st)).
  induction Hr as [|st st' effs Hr (Hpos & Hmod & Hbuf) Hit]; [simpl; auto with lia|].
  eapply looped_step; eauto.
Qed.

(** C27 (the frames shown).  When the capture returns uint8 BGR frames
    of dimensions [s] and the trackbars are within their ranges, every
    frame the program hands to [cv2.imshow] is a uint8 frame of
    dimensions [s], shown by an iteration the loop reaches from a frame
    [f] it read: once the buffer (before the append) holds at least
    [d = max(1, delay)] frames, the blend, pixel by pixel and rounded,
    of [f] with the buffered frame [buffer[-(d + 1)]] of the list after
    the append, which is the inverse of a frame the capture returned;
    before that, [f] itself. *)
Theorem main_shows_motion_frames (B : ContourBackend) (fuel : nat) (cfg : config) (e : env)
    (s : list nat) (m : frame) (discs : list circle_cmd) :
  (forall i f, read_at (s_cap (open_session cfg e)) i = Some f ->
     frame_ok f = true /\ shape f = s) ->
  (forall k, ui_ok (ui e k) = true) ->
  In (Show m discs) (snd (main B fuel cfg e)) ->
  frame_ok m = true /\ shape m = s /\
  exists st f, reachable B cfg e (open_session cfg e) st /\
    read_at (s_cap (open_session cfg e)) (ls_pos st) = Some f /\
    match loop_iter B cfg e (open_session cfg e) st with
    | Continue _ effs | Halt _ effs => In (Show m discs) effs
    end /\
    let d := Z.to_nat (Z.max 1 (ui_delay (ui e (ls_count st)))) in
    if (d <=? length (ls_buffer st))%nat then
      exists g, nth_error (ls_buffer st) (length (ls_buffer st) - d) = Some g /\
        (exists i f', read_at (s_cap (open_session cfg e)) i = Some f' /\ g = invert f') /\
        forall x y q q' r, pixel_at f x y = Some q -> pixel_at g x y = Some q' ->
          pixel_at m x y = Some r -> blended_px (ui_opacity (ui e (ls_count st))) q q' r
    else m = f.
Proof.
  intros Hcap Hui Hin.
  apply main_effects_in in Hin as [Hin|[Hin|Hin]];
    [simpl in Hin; intuition discriminate| |simpl in Hin; intuition discriminate].
  apply (run_effect_reachable _ _ _ _ _ _ _ (reach_init _ _ _ _)) in Hin as (st & Hr & Hst).
  pose proof Hst as Hfr.
  apply loop_iter_frame_effect in Hfr as [(x & y & [=])|(f & m' & discs' & Hread & Hp & [[= <- _]|[=]])].
  destruct (Hcap _ _ Hread) as [Hok Hs].
  destruct (process_frame_inr_ok _ _ _ _ _ Hp Hok) as [Hok' Hs'].
  split; [exact Hok'|]. split; [congruence|]. exists st, f. repeat (split; [assumption|]).
  pose proof (ui_ok_opacity _ (Hui (ls_count st))) as Hop.
  rewrite process_frame_outcome in Hp by lia. unfold py_len in Hp. cbv zeta.
  destruct (Z.leb_spec (Z.max 1 (ui_delay (ui e (ls_count st)))) (Z.of_nat (length (ls_buffer st))))
    as [Hle|Hgt].
  - rewrite (proj2 (Nat.leb_le _ _)) by lia.
    rewrite nth_error_app1 in Hp by lia.
    replace (Z.to_nat (Z.of_nat (length (ls_buffer st)) - Z.max 1 (ui_delay (ui e (ls_count st)))))
      with (length (ls_buffer st) - Z.to_nat (Z.max 1 (ui_delay (ui e (ls_count st)))))%nat in Hp by lia.
    destruct (nth_error (ls_buffer st) _) as [g|] eqn:Hg; [|discriminate].
    exists g. split; [reflexivity|].
    assert (Hgr : exists i f', read_at (s_cap (open_session cfg e)) i = Some f' /\ g = invert f').
    { pose proof (reachable_buffer_read _ _ _ _ _ Hr) as Hbuf. rewrite Forall_forall in Hbuf.
      apply Hbuf. eapply nth_error_In. exact Hg. }
    split; [exact Hgr|]. destruct Hgr as (i & f' & _ & ->).
    intros x y q q' r Hq Hq' Hr'. rewrite (blend_pixel _ _ _ _ x y q q' Hp Hq Hq') in Hr'.
    injection Hr' as <-. apply add_weighted_blended;
      [exact Hop | exact (pixel_at_ok f x y q Hok Hq) | exact (pixel_at_ok _ x y q' (invert_ok f') Hq')].
  - rewrite (proj2 (Nat.leb_gt _ _)) by lia. injection Hp as ->. reflexivity.
Qed.

(** C28 (teardown).  The program ends its effects with [cap.release()]
    then [cv2.destroyAllWindows()], and releases the capture nowhere
    else, exactly when the loop is left by [break]: at the end of the
    stream or on ESC.  When [process_frame] raises, or while the loop
    still runs, the capture is not released. *)
Theorem main_teardown_iff_break (B : ContourBackend) (fuel : nat) (cfg : config) (e : env) :
  (fst (main B fuel cfg e) = Stopped EndOfStream \/ fst (main B fuel cfg e) = Stopped QuitKey) <->
  exists tr, snd (main B fuel cfg e) = tr ++ [Release; DestroyAllWindows] /\ ~ In Release tr.
Proof.
  pose proof (run_no_release B cfg e (open_session cfg e) fuel init_state) as Hno.
  rewrite main_run. destruct (run _ _ _ _ _ _) as [st tr]. cbn [fst snd] in *.
  assert (Hpre : ~ In Release (setup_effects ++ tr))
    by (rewrite in_app_iff; simpl; intuition discriminate).
  assert (Hnot : forall tr', setup_effects ++ tr ++ [] <> tr' ++ [Release; DestroyAllWindows])
    by (intros tr' Heq; rewrite app_nil_r in Heq; apply ends_with_teardown_in in Heq; contradiction).
  destruct st as [st|[| |err]]; simpl teardown; split;
    try (intros [[=]|[=]]; fail); try (intros (tr' & Heq & _); destruct (Hnot tr' Heq));
    try (intros _; exists (setup_effects ++ tr); rewrite <- app_assoc; split; [reflexivity|exact Hpre]);
    intros _; (left; reflexivity) || (right; reflexivity).
Qed.

(** C29 (a frame-size change aborts).  When the frame read has another
    size than the frame [delay] calls back, [cv2.addWeighted] raises
    and the exception leaves the loop before anything of the frame is
    shown: the iteration stops with the OpenCV error, performing no
    effect (and, by C28, the capture is never released). *)
Theorem loop_iter_size_mismatch (B : ContourBackend) (cfg : config) (e : env) (sess : session)
    (st : loop_state) (f g : frame) :
  read_at (s_cap sess) (ls_pos st) = Some f ->
  (Z.to_nat (Z.max 1 (ui_delay (ui e (ls_count st)))) <= length (ls_buffer st))%nat ->
  nth_error (ls_buffer st)
    (length (ls_buffer st) - Z.to_nat (Z.max 1 (ui_delay (ui e (ls_count st))))) = Some g ->
  shape g <> shape f ->
  loop_iter B cfg e sess st = Halt (Raised CvSizeMismatch) [].
Proof.
  intros Hr Hle Hg Hs. unfold loop_iter. rewrite Hr.
  pose proof (process_frame_outcome f (ls_buffer st) (Z.max 1 (ui_delay (ui e (ls_count st))))
                (ui_opacity (ui e (ls_count st))) ltac:(lia)) as Ho.
  destruct (process_frame _ _ _ _) as [buf res]. simpl in Ho. subst res.
  unfold py_len. rewrite (proj2 (Z.leb_le _ _)) by lia.
  rewrite nth_error_app1 by lia.
  replace (Z.to_nat (Z.of_nat (length (ls_buffer st)) - Z.max 1 (ui_delay (ui e (ls_count st)))))
    with (length (ls_buffer st) - Z.to_nat (Z.max 1 (ui_delay (ui e (ls_count st)))))%nat by lia.
  rewrite Hg. unfold blend, add_weighted. case_decide; [congruence|reflexivity].
Qed.

(** C32 (a zero screen dimension aborts).  When a frame yields a
    detection, test mode is off and [pyautogui.size()] reports a zero
    width or height, [x % screen_w] (or [y % screen_h]) raises
    [ZeroDivisionError] at line 87: the iteration stops with that error
    before [imshow], performing no effect of the frame. *)
Theorem loop_iter_zero_screen (B : ContourBackend) (cfg : config) (e : env) (sess : session)
    (st : loop_state) (f m : frame) (p : Z * Z) :
  read_at (s_cap sess) (ls_pos st) = Some f ->
  snd (process_frame f (ls_buffer st) (Z.max 1 (ui_delay (ui e (ls_count st))))
         (ui_opacity (ui e (ls_count st)))) = inr m ->
  detect_pupil B m = Some p -> test_mode cfg = false ->
  fst (screen_size e) = 0 \/ snd (screen_size e) = 0 ->
  loop_iter B cfg e sess st = Halt (Raised ZeroDivisionError) [].
Proof.
  intros Hr Hm Hp Ht Hz. unfold loop_iter. rewrite Hr.
  destruct (process_frame _ _ _ _) as [buf res]. simpl in Hm. subst res.
  destruct (on_detection _ _). unfold pointer_moves. rewrite Hp. destruct p as [x y].
  rewrite Ht. destruct (screen_size e) as [w h]. simpl in Hz.
  destruct Hz as [-> | ->]; [|rewrite orb_true_r]; reflexivity.
Qed.

(** C34 (a failed webcam read ends the program).  Without a usable
    video path ([None], or a path that [strip()] empties), [main] opens
    the webcam and turns looping off whatever [loop_video] says (lines
    37-41): when the first read fails, the loop is left at once by the
    end-of-stream [break], and the program performs only the window
    setup and the release. *)
Theorem main_camera_read_failure (B : ContourBackend) (cfg : config) (e : env) (fuel : nat) :
  path_given (input_path cfg) = false -> read_at (camera_source e) 0 = None ->
  main B (S fuel) cfg e = (Stopped EndOfStream, setup_effects ++ [Release; DestroyAllWindows]).
Proof.
  intros Hp Hr. unfold main, open_session. rewrite Hp. simpl.
  unfold loop_iter. simpl. rewrite Hr. reflexivity.
Qed.

(** C30 (range of the [waitKey] delay).  With the speed trackbar within
    its range [0, 50] and a capture reporting at most 200 fps, the
    delay handed to [cv2.waitKey] is at least 1 ms (it never blocks)
    and at most [int(10000 / fps)] ms; with the default 30 fps it lies
    in [6, 333]. *)
Theorem wait_ms_trackbar_bounds (fps : Q) (u : ui_input) :
  ui_ok u = true -> (0 < fps)%Q -> (fps <= 200)%Q ->
  1 <= wait_ms fps (ui_speed u) <= py_int (10000 / fps).
Proof.
  intros Hu Hpos Hle. apply ui_ok_speed in Hu.
  rewrite wait_ms_eq by exact Hpos.
  assert (Hm : (1 <= inject_Z (Z.max 1 (ui_speed u)) <= 50)%Q)
    by (split; [change 1%Q with (inject_Z 1)|change 50%Q with (inject_Z 50)];
        rewrite <- Zle_Qle; lia).
  assert (Hfm : (0 < fps * inject_Z (Z.max 1 (ui_speed u)))%Q) by (apply Qmult_lt_0_compat; lra).
  assert (Hq : (0 <= 10000 / (fps * inject_Z (Z.max 1 (ui_speed u))))%Q)
    by (apply Qle_shift_div_l; lra).
  split.
  - change 1 with (py_int 1). apply py_int_mono; [lra|].
    apply Qle_shift_div_l; [exact Hfm|]. rewrite Qmult_1_l.
    apply Qle_trans with (200 * inject_Z (Z.max 1 (ui_speed u)))%Q; [|lra].
    apply Qmult_le_compat_r; lra.
  - apply py_int_mono; [exact Hq|].
    apply Qle_shift_div_r; [exact Hfm|].
    apply Qle_trans with (10000 * inject_Z (Z.max 1 (ui_speed u)))%Q; [lra|].
    apply Qle_lteq. right. field. apply Qnot_eq_sym, Qlt_not_eq. exact Hpos.
Qed.

(** C37 (a looped video makes progress).  While a video whose first
    frame reads plays in a loop, the loop never spins: of any [fuel]
    iterations that neither stop nor raise, at most every other one is a
    seek back to frame 0 (main.py:58), so [cv2.imshow] is called at least
    [(fuel - 1) / 2] times ([fuel / 2] from a readable position), and
    each call is followed by exactly one [cv2.waitKey]. *)
Theorem run_looped_progress (B : ContourBackend) (cfg : config) (e : env) (sess : session)
    (fuel : nat) (st st' : loop_state) (tr : list effect) :
  s_loop sess = true -> read_at (s_cap sess) 0 <> None ->
  run B cfg e sess fuel st = (Running st', tr) ->
  waitkey_count tr = imshow_count tr /\ (fuel <= 2 * imshow_count tr + 1)%nat /\
  (read_at (s_cap sess) (ls_pos st) <> None -> (fuel <= 2 * imshow_count tr)%nat).
Proof.
  intros Hloop Hf. revert st st' tr. induction fuel as [|n IH]; intros st st' tr; simpl.
  - intros [= _ <-]. split; [reflexivity | lia].
  - destruct (loop_iter B cfg e sess st) as [st1 effs|r effs] eqn:Hit; [|discriminate].
    destruct (run B cfg e sess n st1) as [s tr1] eqn:Hrun. intros [= -> <-].
    destruct (IH _ _ _ Hrun) as (Hw & H1 & H2).
    rewrite imshow_count_app, waitkey_count_app.
    destruct (loop_iter_displays _ _ _ _ _ _ _ Hit) as [(Hr & Hpos & ->)|(_ & -> & ->)].
    + rewrite Hpos in H2. specialize (H2 Hf). simpl. split; [exact Hw | split; [lia | intros Hc; contradiction]].
    + split; [lia | split; intros; lia].
Qed.

(** ** Concrete runs *)

(** The mirror image of [demo_frame]: dark pixel at (0, 0). *)
Definition demo_frame_b : frame := [[mk_bgr 10 10 10; mk_bgr 200 200 200]].

Definition demo_loop_env : env := demo_env [demo_frame; demo_frame_b] 100.

(** The state after four iterations of the looped two-frame video:
    frames 0 and 1 read, a seek back, frame 0 read again. *)
Definition demo_loop_state : loop_state :=
  Eval vm_compute in
  match fst (run box_backend (demo_cfg true) demo_loop_env
               (open_session (demo_cfg true) demo_loop_env) 4 init_state) with
  | Running st => st
  | Stopped _ => init_state
  end.

Lemma looped_buffer_history_witness :
  (ls_pos demo_loop_state <= 2)%nat /\ (ls_count demo_loop_state mod 2 = ls_pos demo_loop_state mod 2)%nat /\
  ls_buffer demo_loop_state = [invert demo_frame; invert demo_frame_b; invert demo_frame].
Proof.
  destruct (looped_buffer_history box_backend (demo_cfg true) demo_loop_env
              (open_session (demo_cfg true) demo_loop_env) [demo_frame; demo_frame_b] demo_loop_state)
    as (H1 & H2 & H3); [intros i; reflexivity | reflexivity | discriminate | |].
  - apply (run_reachable _ _ _ _ 4 init_state _
             (snd (run box_backend (demo_cfg true) demo_loop_env
                     (open_session (demo_cfg true) demo_loop_env) 4 init_state)));
      [apply reach_init | vm_compute; reflexivity].
  - split; [exact H1|]. split; [exact H2|]. rewrite H3. reflexivity.
Defined.

(** The first frame of the two-frame video is shown raw (warm-up), with
    the green disc of its detection. *)
(** [clamp_env]: the second frame, read with the Delay trackbar at 0
    (so [d = 1]) and one frame buffered, is shown blended with the
    inverse of the first. *)
Lemma main_shows_motion_frames_witness :
  let cap := s_cap (open_session (demo_cfg false) clamp_env) in
  let m := [[mk_bgr 32 32 32; mk_bgr 222 222 222]] in
  frame_ok m = true /\ shape m = [2%nat] /\
  exists st f, reachable box_backend (demo_cfg false) clamp_env (open_session (demo_cfg false) clamp_env) st /\
    read_at cap (ls_pos st) = Some f /\
    match loop_iter box_backend (demo_cfg false) clamp_env (open_session (demo_cfg false) clamp_env) st with
    | Continue _ effs | Halt _ effs => In (Show m [marker 5 green_bgr (0, 0)]) effs
    end /\
    let d := Z.to_nat (Z.max 1 (ui_delay (ui clamp_env (ls_count st)))) in
    if (d <=? length (ls_buffer st))%nat then
      exists g, nth_error (ls_buffer st) (length (ls_buffer st) - d) = Some g /\
        (exists i f', read_at cap i = Some f' /\ g = invert f') /\
        forall x y q q' r, pixel_at f x y = Some q -> pixel_at g x y = Some q' ->
          pixel_at m x y = Some r -> blended_px (ui_opacity (ui clamp_env (ls_count st))) q q' r
    else m = f.
Proof.
  apply (main_shows_motion_frames box_backend 2 (demo_cfg false) clamp_env [2%nat]).
  - intros [|[|i]] f H; simpl in H; [| |destruct i; discriminate];
      injection H as <-; split; reflexivity.
  - intros k. reflexivity.
  - vm_compute. do 8 right. left. reflexivity.
Defined.

(** A looped video whose second frame is 1x1 where the first is 1x2:
    with three inverted 1x2 frames buffered and delay 3, reading the
    1x1 frame raises. *)
Lemma loop_iter_size_mismatch_witness :
  loop_iter box_backend (demo_cfg true) (demo_env [demo_frame; [[mk_bgr 10 10 10]]] 100)
    (open_session (demo_cfg true) (demo_env [demo_frame; [[mk_bgr 10 10 10]]] 100))
    {| ls_pos := 1; ls_buffer := [invert demo_frame; invert demo_frame; invert demo_frame];
       ls_trail := {| trail_mode := false; trail_points := [] |}; ls_count := 3 |} =
  Halt (Raised CvSizeMismatch) [].
Proof.
  apply (loop_iter_size_mismatch _ _ _ _ _ [[mk_bgr 10 10 10]] (invert demo_frame));
    [reflexivity | simpl; lia | reflexivity | discriminate].
Defined.

(** The speed trackbar at its maximum 50 with the default 30 fps: 6 ms. *)
Lemma wait_ms_trackbar_bounds_witness :
  1 <= wait_ms 30 50 <= py_int (10000 / 30).
Proof.
  apply (wait_ms_trackbar_bounds 30 {| ui_delay := 3; ui_opacity := 50; ui_speed := 50; ui_key := -1 |});
    [reflexivity | reflexivity | vm_compute; discriminate].
Defined.

(** A 0x600 screen: the detection of the first frame makes [%] raise. *)
Lemma loop_iter_zero_screen_witness :
  loop_iter box_backend (demo_cfg true)
    {| file_source := file_capture [demo_frame] 30; camera_source := file_capture [] 0;
       ui := ui (demo_env [demo_frame] 100); screen_size := (0, 600) |}
    (open_session (demo_cfg true) (demo_env [demo_frame] 100)) init_state =
  Halt (Raised ZeroDivisionError) [].
Proof.
  apply (loop_iter_zero_screen _ _ _ _ _ demo_frame demo_frame (1, 0));
    [reflexivity | reflexivity | vm_compute; reflexivity | reflexivity | left; reflexivity].
Defined.

(** A path of spaces selects the webcam, which here yields no frame. *)
Lemma main_camera_read_failure_witness :
  main box_backend 5 {| test_mode := false; input_path := Some "   "%string; loop_video := true |}
    (demo_env [demo_frame] 100) = (Stopped EndOfStream, setup_effects ++ [Release; DestroyAllWindows]).
Proof. apply main_camera_read_failure; reflexivity. Defined.

(** The looped two-frame video, four iterations from the start: frames
    0 and 1 shown, a seek, frame 0 shown again. *)
Definition demo_loop_trace : list effect :=
  Eval vm_compute in
  snd (run box_backend (demo_cfg true) demo_loop_env
         (open_session (demo_cfg true) demo_loop_env) 4 init_state).

Lemma run_looped_progress_witness :
  waitkey_count demo_loop_trace = imshow_count demo_loop_trace /\
  (4 <= 2 * imshow_count demo_loop_trace + 1)%nat /\
  (read_at (s_cap (open_session (demo_cfg true) demo_loop_env)) (ls_pos init_state) <> None ->
   (4 <= 2 * imshow_count demo_loop_trace)%nat).
Proof.
  apply (run_looped_progress box_backend (demo_cfg true) demo_loop_env
           (open_session (demo_cfg true) demo_loop_env) 4 init_state demo_loop_state);
    [reflexivity | discriminate | vm_compute; reflexivity].
Defined.
