(* ===== verification/Pipeline.v ===== *)
(** * The spec's PipelineDriver, and its refinement by the loop of [main]

    The spec (sections 4.2-4.6 and 6) describes one iteration of the
    driver through its components: append the inverted frame to the
    DelayBuffer and look back [delay] frames ([process_frame_spec]);
    blend, or pass the frame through during the warm-up; detect; update
    the trail as the two-state machine of section 4.5, which clears the
    trail on BOTH transitions ([spec_toggle]) and renders the stored
    points small and the newest large ([spec_track]); move the pointer
    to the wrapped target; present the frame with its markers; wait
    [round(1000 / fps / speed)] ms ([spec_wait]).  [spec_iter] is that
    iteration on an abstract state holding the spec's history and the
    spec's trail; the stream handling (read, seek back, end of stream,
    quit) is the code's, which the spec leaves to the video source.

    [abs_state] maps a state of the code's loop to the spec's state.
    The simulation diagram is [loop_iter_simulation]: an iteration of
    [loop_iter] from [st] and one of [spec_iter] from [abs_state st]
    end the same way, in states related by [abs_state], with the same
    effects except the wait, which the code truncates and the spec
    rounds ([eff_refines]: at most 1 ms apart).  The invariant that
    makes it hold is [trail_ok]: the code clears the trail only on
    On -> Off, the spec also on Off -> On, and the trail is empty
    whenever trail mode is off. *)

From Stdlib Require Import ZArith QArith Qround List Lia Lqa.
From stdpp Require Import base list decidable.
From S2P Require Import Prelude Frame Blend DelayBuffer Detector Trail Driver.

Open Scope Z_scope.

(** ** The spec's driver *)

(** The TrailAccumulator of section 4.5: Off or On, and the points. *)
Record spec_trail := { sp_on : bool; sp_points : list (Z * Z) }.

(** Both transitions clear the trail. *)
Definition spec_toggle (t : spec_trail) : spec_trail :=
  {| sp_on := negb (sp_on t); sp_points := [] |}.

(** A frame's detection: while On, append and render the stored points
    small (red, radius 3) and the newest large (green, radius 5); while
    Off, render the newest only; without a detection, nothing. *)
Definition spec_track (t : spec_trail) (pupil : option (Z * Z)) : spec_trail * list circle_cmd :=
  match pupil with
  | None => (t, [])
  | Some p =>
      if sp_on t
      then ({| sp_on := true; sp_points := sp_points t ++ [p] |},
            map (marker 3 red_bgr) (sp_points t) ++ [marker 5 green_bgr p])
      else (t, [marker 5 green_bgr p])
  end.

(** Rounding to the nearest integer, half up (the spec leaves ties
    open). *)
Definition spec_round (q : Q) : Z := Qfloor (q + (1 # 2)).

(** Section 6: [round(1000 / fps / playbackSpeedFactor)]. *)
Definition spec_wait (fps : Q) (speed : Z) : Z :=
  spec_round (1000 / fps / (inject_Z (Z.max 1 speed) / 10)).

(** The BlobDetector of section 4.4: grey, inverse threshold at 50,
    external contours, none found is "not found", else the contour of
    largest area, the first on ties, and the centre of its minimum
    enclosing circle rounded to the nearest pixel. *)
Definition spec_detect (B : ContourBackend) (f : frame) : option (Z * Z) :=
  match find_contours B (threshold_inv 50 255 (to_gray f)) with
  | [] => None
  | cnts =>
      match first_max contour_area2 cnts with
      | Some c => let '((x, y), _) := min_enclosing_circle B c in Some (spec_round x, spec_round y)
      | None => None
      end
  end.

Record spec_state := {
  sp_pos : nat;                   (* the video source's next frame *)
  sp_history : list frame;        (* the DelayBuffer *)
  sp_trail : spec_trail;
  sp_count : nat                  (* frames processed *)
}.

Definition spec_init : spec_state :=
  {| sp_pos := 0; sp_history := []; sp_trail := {| sp_on := false; sp_points := [] |};
     sp_count := 0 |}.

Inductive spec_result :=
| SContinue (sp : spec_state) (effs : list effect)
| SHalt (r : stop_reason) (effs : list effect).

Inductive spec_status := SRunning (sp : spec_state) | SStopped (r : stop_reason).

Section Spec.

Variable B : ContourBackend.
Variable cfg : config.
Variable e : env.
Variable sess : session.

Definition spec_iter (sp : spec_state) : spec_result :=
  match read_at (s_cap sess) (sp_pos sp) with
  | None =>
      if s_loop sess then SContinue {| sp_pos := 0; sp_history := sp_history sp;
                                       sp_trail := sp_trail sp; sp_count := sp_count sp |} []
      else SHalt EndOfStream []
  | Some f =>
      let u := ui e (sp_count sp) in
      let '(history, res) :=
        process_frame_spec f (sp_history sp) (Z.to_nat (Z.max 1 (ui_delay u))) (ui_opacity u) in
      match res with
      | inl err => SHalt (Raised err) []
      | inr m =>
          let pupil := detect_pupil B m in
          let '(t, discs) := spec_track (sp_trail sp) pupil in
          match pointer_moves cfg e pupil with
          | inl err => SHalt (Raised err) []
          | inr moves =>
              let effs := moves ++ [Show m discs; WaitKey (spec_wait (s_fps sess) (ui_speed u))] in
              let next t := {| sp_pos := S (sp_pos sp); sp_history := history;
                               sp_trail := t; sp_count := S (sp_count sp) |} in
              match key_action_of (ui_key u) with
              | KQuit => SHalt QuitKey effs
              | KToggle => SContinue (next (spec_toggle t)) effs
              | KNone => SContinue (next t) effs
              end
          end
      end
  end.

Fixpoint spec_run (fuel : nat) (sp : spec_state) : spec_status * list effect :=
  match fuel with
  | O => (SRunning sp, [])
  | S n =>
      match spec_iter sp with
      | SContinue sp' effs => let '(s, tr) := spec_run n sp' in (s, effs ++ tr)
      | SHalt r effs => (SStopped r, effs)
      end
  end.

End Spec.

(** ** Abstraction of the code's state *)

Definition abs_trail (t : trail_state) : spec_trail :=
  {| sp_on := trail_mode t; sp_points := trail_points t |}.

Definition abs_state (st : loop_state) : spec_state :=
  {| sp_pos := ls_pos st; sp_history := ls_buffer st; sp_trail := abs_trail (ls_trail st);
     sp_count := ls_count st |}.

(** The code's effect [c] implements the spec's effect [a]: the same,
    or two waits whose delays differ by the rounding, at most 1 ms. *)
Definition eff_refines (c a : effect) : Prop :=
  c = a \/ exists ms ms', c = WaitKey ms /\ a = WaitKey ms' /\ ms <= ms' <= ms + 1.

(** How an iteration of the code and one of the spec correspond. *)
Definition iter_refines (r : iter_result) (a : spec_result) : Prop :=
  match r, a with
  | Continue st' effs, SContinue sp' effs' =>
      sp' = abs_state st' /\ trail_ok (ls_trail st') /\ Forall2 eff_refines effs effs'
  | Halt r effs, SHalt r' effs' => r = r' /\ Forall2 eff_refines effs effs'
  | _, _ => False
  end.

Definition status_refines (s : status) (a : spec_status) : Prop :=
  match s, a with
  | Running st, SRunning sp => sp = abs_state st
  | Stopped r, SStopped r' => r = r'
  | _, _ => False
  end.

(** ** The simulation *)

(** Truncating and rounding a non-negative rational differ by at most 1. *)
Lemma spec_round_bounds q : (0 <= q)%Q -> py_int q <= spec_round q <= py_int q + 1.
Proof.
  intros Hq. unfold spec_round. rewrite py_int_floor by exact Hq. split.
  - apply Qfloor_resp_le. lra.
  - pose proof (Qfloor_le (q + (1 # 2))) as H1. pose proof (Qlt_floor q) as H2.
    assert (H3 : (inject_Z (Qfloor (q + (1 # 2))) < inject_Z (Qfloor q + 2))%Q).
    { rewrite inject_Z_plus in *. change (inject_Z 2) with (inject_Z 1 + inject_Z 1)%Q.
      change (inject_Z 1) with 1%Q in *. lra. }
    rewrite <- Zlt_Qlt in H3. lia.
Qed.

Lemma spec_wait_bounds fps s :
  (0 < fps)%Q -> wait_ms fps s <= spec_wait fps s <= wait_ms fps s + 1.
Proof.
  intros Hfps. apply spec_round_bounds.
  assert (Hm : (0 < inject_Z (Z.max 1 s))%Q)
    by (change 0%Q with (inject_Z 0); rewrite <- Zlt_Qlt; lia).
  apply Qle_shift_div_l; [apply Qlt_shift_div_l; lra|].
  rewrite Qmult_0_l. apply Qle_shift_div_l; lra.
Qed.

Lemma spec_track_abs t p :
  spec_track (abs_trail t) p = (abs_trail (fst (on_detection t p)), snd (on_detection t p)).
Proof.
  destruct p as [[x y]|]; [|reflexivity]. unfold spec_track, on_detection. simpl.
  destruct (trail_mode t); simpl; [rewrite py_drop_last_snoc|]; reflexivity.
Qed.

(** The spec's extra clearing on Off -> On is invisible on a trail that
    satisfies [trail_ok]. *)
Lemma spec_toggle_abs t : trail_ok t -> spec_toggle (abs_trail t) = abs_trail (toggle t).
Proof.
  unfold trail_ok, spec_toggle, abs_trail, toggle. simpl.
  destruct (trail_mode t); simpl; [reflexivity|]. intros ->; reflexivity.
Qed.

Lemma effs_refine_wait moves m discs a b :
  a <= b <= a + 1 ->
  Forall2 eff_refines (moves ++ [Show m discs; WaitKey a]) (moves ++ [Show m discs; WaitKey b]).
Proof.
  intros Hab. apply Forall2_app.
  - induction moves; constructor; [left; reflexivity | assumption].
  - constructor; [left; reflexivity|]. constructor; [right; eauto | constructor].
Qed.

(** The simulation diagram of one iteration. *)
Lemma loop_iter_simulation B cfg e sess st :
  (0 < s_fps sess)%Q -> trail_ok (ls_trail st) ->
  iter_refines (loop_iter B cfg e sess st) (spec_iter B cfg e sess (abs_state st)).
Proof.
  intros Hfps Hok. unfold loop_iter, spec_iter. cbn [sp_pos sp_history sp_trail sp_count abs_state].
  destruct (read_at _ _) as [f|].
  - rewrite <- process_frame_spec_eq by lia.
    destruct (process_frame _ _ _ _) as [buf [err|m]]; [simpl; auto|].
    rewrite spec_track_abs. destruct (on_detection _ _) as [t discs] eqn:Hd. cbn [fst snd].
    assert (Ht : trail_ok t) by (change t with (fst (t, discs)); rewrite <- Hd; apply on_detection_ok, Hok).
    pose proof (spec_wait_bounds (s_fps sess) (ui_speed (ui e (ls_count st))) Hfps) as Hw.
    destruct (pointer_moves _ _ _) as [err|moves]; [simpl; auto|].
    destruct (key_action_of _); simpl.
    + split; [reflexivity | apply effs_refine_wait; exact Hw].
    + split; [unfold abs_state; simpl; rewrite spec_toggle_abs by exact Ht; reflexivity|].
      split; [apply toggle_ok | apply effs_refine_wait; exact Hw].
    + split; [reflexivity|]. split; [exact Ht | apply effs_refine_wait; exact Hw].
  - destruct (s_loop sess); simpl; auto.
Qed.

(** Runs of any length from related states stay related. *)
Lemma run_simulation B cfg e sess fuel st :
  (0 < s_fps sess)%Q -> trail_ok (ls_trail st) ->
  status_refines (fst (run B cfg e sess fuel st)) (fst (spec_run B cfg e sess fuel (abs_state st))) /\
  Forall2 eff_refines (snd (run B cfg e sess fuel st)) (snd (spec_run B cfg e sess fuel (abs_state st))).
Proof.
  intros Hfps. revert st. induction fuel as [|n IH]; intros st Hok; simpl; [auto|].
  pose proof (loop_iter_simulation B cfg e sess st Hfps Hok) as Hsim.
  destruct (loop_iter B cfg e sess st) as [st' effs|r effs];
    destruct (spec_iter B cfg e sess (abs_state st)) as [sp' effs'|r' effs']; simpl in Hsim;
    try contradiction.
  - destruct Hsim as (-> & Hok' & Heffs). destruct (IH st' Hok') as [Hs Htr].
    destruct (run _ _ _ _ n st'), (spec_run _ _ _ _ n _). simpl in *. auto using Forall2_app.
  - destruct Hsim as [-> Heffs]. simpl. auto.
Qed.

(** ** Property *)

(** C33 (the loop refines the spec's PipelineDriver).  For any number
    of iterations, the loop of [main] and the spec's driver run from
    their initial states on the same capture and user inputs stop for
    the same reason, or are both still running in states related by
    [abs_state] (the code's buffer is the spec's history, its trail the
    spec's trail); and they perform the same effects in the same order,
    the delays of [waitKey] excepted, which differ by at most 1 ms
    (truncation against rounding).  The spec's clearing of the trail on
    Off -> On, and its lookback in place of the negative index, are not
    observable. *)
Theorem main_loop_refines_spec (B : ContourBackend) (cfg : config) (e : env) (fuel : nat) :
  (0 < s_fps (open_session cfg e))%Q ->
  status_refines (fst (run B cfg e (open_session cfg e) fuel init_state))
                 (fst (spec_run B cfg e (open_session cfg e) fuel spec_init)) /\
  Forall2 eff_refines (snd (run B cfg e (open_session cfg e) fuel init_state))
                      (snd (spec_run B cfg e (open_session cfg e) fuel spec_init)).
Proof.
  intros Hfps. change spec_init with (abs_state init_state).
  apply run_simulation; [exact Hfps | intros _; reflexivity].
Qed.

(** The two-frame looped video with ESC at frame 3, at 30 fps. *)
Lemma main_loop_refines_spec_witness :
  status_refines (fst (run box_backend (demo_cfg true) (demo_env [demo_frame; demo_frame] 3)
                        (open_session (demo_cfg true) (demo_env [demo_frame; demo_frame] 3)) 8 init_state))
                 (fst (spec_run box_backend (demo_cfg true) (demo_env [demo_frame; demo_frame] 3)
                        (open_session (demo_cfg true) (demo_env [demo_frame; demo_frame] 3)) 8 spec_init)).
Proof. apply (main_loop_refines_spec box_backend (demo_cfg true) (demo_env [demo_frame; demo_frame] 3) 8). reflexivity. Defined.

(** C35 (the detector refines the spec's BlobDetector).  For every
    contour backend with the laws of [findContours] and
    [minEnclosingCircle], [detect_pupil] finds nothing exactly when the
    spec's detector finds nothing, and otherwise returns the same point
    up to the rounding of the centre: the code's [int()] truncation is
    the spec's rounding or one less, in each coordinate. *)
Theorem detect_pupil_refines_spec (B : ContourBackend) (f : frame) :
  backend_laws B ->
  match detect_pupil B f, spec_detect B f with
  | None, None => True
  | Some (x, y), Some (x', y') => x <= x' <= x + 1 /\ y <= y' <= y + 1
  | _, _ => False
  end.
Proof.
  intros HB. unfold detect_pupil, spec_detect.
  destruct (find_contours B _) as [|c0 cs] eqn:Hf; [exact I|].
  rewrite <- py_max_by_eq_first_max.
  destruct (py_max_by contour_area2 (c0 :: cs)) as [c|] eqn:Hc; [|exact I].
  apply py_max_by_in in Hc. rewrite <- Hf in Hc.
  destruct (mec_center_nonneg B _ c HB Hc) as [Hx Hy].
  destruct (min_enclosing_circle B c) as [[cx cy] r]. simpl in Hx, Hy.
  split; apply spec_round_bounds; assumption.
Qed.

(** On the L-shaped blob the box centre (1.5, 1.5) truncates to (1, 1)
    and rounds to (2, 2). *)
Lemma detect_pupil_refines_spec_witness :
  match detect_pupil box_backend demo_dark, spec_detect box_backend demo_dark with
  | None, None => True
  | Some (x, y), Some (x', y') => x <= x' <= x + 1 /\ y <= y' <= y + 1
  | _, _ => False
  end.
Proof. exact (detect_pupil_refines_spec box_backend demo_dark box_backend_laws). Defined.
